(** * pydriosm: Geofabrik catalogue, name resolution and download layer

    A shallow embedding of [pydriosm/download_GeoFabrik.py] and
    [pydriosm/settings.py].

    Python strings are modelled by [string]; the characters the code
    inspects (["/"], ["."], ["("], [")"], the three file suffixes) are ASCII.
    Effects (console output, network requests, the local disk) are
    threaded through an explicit state with an outcome that is a value, a
    raised exception, or divergence of the crawl loop. *)

From Stdlib Require Import Ascii String ZArith Lia Sorted.
From stdpp Require Import base option list gmap sets strings.

Local Open Scope stdpp_scope.
Set Warnings "-clear-no-such-hyp".

(** ** Python string operations used by the source *)

Module Py.

Definition chr (n : nat) : string := String (ascii_of_nat n) "".

(** The double quote and the newline, as one-character strings. *)
Definition dq : string := chr 34.
Definition nl : string := chr 10.

Fixpoint endswith_rev (rsuf rs : string) : bool :=
  match rsuf, rs with
  | "", _ => true
  | String a rsuf', String b rs' => if ascii_dec a b then endswith_rev rsuf' rs' else false
  | String _ _, "" => false
  end.

(** [s.endswith(suffix)] *)
Definition endswith (s suffix : string) : bool :=
  endswith_rev (String.rev suffix) (String.rev s).

(** What [endswith] decides. *)
Definition ends_with (s suffix : string) : Prop := ∃ p, s = p +:+ suffix.

(** [s.split(sep)] for a one-character separator: never the empty list. *)
Fixpoint split_go (sep : ascii) (cur : string) (s : string) : list string :=
  match s with
  | "" => [String.rev cur]
  | String c s' =>
      if ascii_dec c sep then String.rev cur :: split_go sep "" s'
      else split_go sep (String c cur) s'
  end.
Definition split (sep : ascii) (s : string) : list string := split_go sep "" s.

(** [l[-1]] and [l[0]] on the non-empty lists [split] returns. *)
Definition last_item (l : list string) : string := List.last l "".
Definition first_item (l : list string) : string := List.hd "" l.

(** [l[0:-1]] *)
Definition but_last (l : list string) : list string := List.removelast l.

Definition is_upper (c : ascii) : bool :=
  let n := nat_of_ascii c in (Nat.leb 65 n && Nat.leb n 90)%bool.
Definition is_lower (c : ascii) : bool :=
  let n := nat_of_ascii c in (Nat.leb 97 n && Nat.leb n 122)%bool.
Definition is_cased (c : ascii) : bool := (is_upper c || is_lower c)%bool.
Definition to_upper (c : ascii) : ascii :=
  if is_lower c then ascii_of_nat (nat_of_ascii c - 32) else c.
Definition to_lower (c : ascii) : ascii :=
  if is_upper c then ascii_of_nat (nat_of_ascii c + 32) else c.

(** [s.lower()] *)
Fixpoint lower (s : string) : string :=
  match s with
  | "" => ""
  | String c s' => String (to_lower c) (lower s')
  end.

(** [s.title()]: a cased character is put in upper case when the
    character before it is not cased, in lower case otherwise. *)
Fixpoint title_go (prev_cased : bool) (s : string) : string :=
  match s with
  | "" => ""
  | String c s' =>
      String (if prev_cased then to_lower c else to_upper c)
             (title_go (is_cased c) s')
  end.
Definition title (s : string) : string := title_go false s.

(** [s.lstrip(c)] for one character. *)
Fixpoint lstrip (c : ascii) (s : string) : string :=
  match s with
  | String a s' => if ascii_dec a c then lstrip c s' else s
  | "" => ""
  end.

(** [s.find(c)]: the first index of [c], or [-1]. *)
Fixpoint find_from (c : ascii) (s : string) (i : Z) : Z :=
  match s with
  | "" => (-1)%Z
  | String a s' => if ascii_dec a c then i else find_from c s' (i + 1)%Z
  end.
Definition find (c : ascii) (s : string) : Z := find_from c s 0%Z.

(** [s[i:j]] with Python's treatment of negative and out-of-range bounds. *)
Definition clamp (len i : Z) : Z :=
  (if i <? 0 then Z.max 0 (len + i) else Z.min len i)%Z.
Definition slice (s : string) (i j : Z) : string :=
  let len := Z.of_nat (String.length s) in
  let a := clamp len i in
  let b := clamp len j in
  String.substring (Z.to_nat a) (Z.to_nat (b - a)%Z) s.

(** [s.replace(old, new)] for a non-empty [old]: leftmost occurrences,
    not overlapping.  [fuel] bounds the scan by the length of [s]. *)
Fixpoint replace_go (fuel : nat) (old new s : string) : string :=
  match fuel with
  | O => s
  | S fuel' =>
      match s with
      | "" => ""
      | String c s' =>
          if String.prefix old s
          then new +:+ replace_go fuel' old new
                         (String.substring (String.length old)
                            (String.length s - String.length old) s)
          else String c (replace_go fuel' old new s')
      end
  end.
Definition replace (old new s : string) : string :=
  replace_go (S (String.length s)) old new s.

(** Remove every occurrence of the characters accepted by [p]. *)
Fixpoint remove_chars (p : ascii → bool) (s : string) : string :=
  match s with
  | "" => ""
  | String c s' => if p c then remove_chars p s' else String c (remove_chars p s')
  end.

Fixpoint map_chars (f : ascii → ascii) (s : string) : string :=
  match s with
  | "" => ""
  | String c s' => String (f c) (map_chars f s')
  end.

(** [posixpath.split]: the part before the last slash (trailing slashes
    removed unless it consists of slashes only) and the part after it. *)
Fixpoint rsplit_slash (rs : string) (tail : string) : string * string :=
  match rs with
  | "" => ("", tail)
  | String c rs' =>
      if ascii_dec c "/" then (rs, tail) else rsplit_slash rs' (String c tail)
  end.
Definition os_path_split (p : string) : string * string :=
  let '(rhead, tail) := rsplit_slash (String.rev p) "" in
  let stripped := lstrip "/" rhead in
  (String.rev (match stripped with "" => rhead | _ => stripped end), tail).
Definition os_path_basename (p : string) : string := snd (os_path_split p).

(** [posixpath.join] of two components. *)
Definition os_path_join (a b : string) : string :=
  if String.prefix "/" b then b
  else match a with
       | "" => b
       | _ => if endswith a "/" then a +:+ b else a +:+ "/" +:+ b
       end.

(** [dict.fromkeys(l)] read back as a list: repeated items dropped,
    the first occurrence kept, order of first occurrences preserved. *)
Fixpoint fromkeys_go {A} `{EqDecision A} (seen l : list A) : list A :=
  match l with
  | [] => []
  | x :: l' =>
      if decide (x ∈ seen) then fromkeys_go seen l'
      else x :: fromkeys_go (x :: seen) l'
  end.
Definition dict_fromkeys {A} `{EqDecision A} (l : list A) : list A :=
  fromkeys_go [] l.

End Py.

(** ** Exceptions, console and network events, the local disk *)

Inductive exn_class : Type :=
  | Exception
  | AssertionError
  | ValueError
  | TypeError
  | KeyError
  | IndexError
  | AttributeError
  | OSError
  | ConnectionError
  | ConnectionRefusedError
  | HTTPError
  | RecursionError.

Global Instance exn_class_eq_dec : EqDecision exn_class.
Proof. solve_decision. Defined.

(** A raised exception: its class and the text [str(e)] gives. *)
Record exn : Type := Exn { exn_class_of : exn_class; exn_str : string }.

(** [issubclass c k] for the classes above ([HTTPError] is urllib's). *)
Definition issubclass (c k : exn_class) : bool :=
  match k with
  | Exception => true
  | OSError =>
      match c with
      | OSError | ConnectionError | ConnectionRefusedError | HTTPError => true
      | _ => false
      end
  | ConnectionError =>
      match c with ConnectionError | ConnectionRefusedError => true | _ => false end
  | _ => bool_decide (c = k)
  end.

(** Whether [except (k1, k2, ...)] handles [e]. *)
Definition handled_by (ks : list exn_class) (e : exn) : bool :=
  existsb (issubclass (exn_class_of e)) ks.

Inductive event : Type :=
  | Print (line : string)
  | Prompt (question : string)
  | ReadHtml (url : string)
  | HttpGet (url : string)
  | Download (url path : string)
  | Sleep (seconds : nat).

(** A table cell: [None] is a missing value (NaN). *)
Definition cell : Type := option string.

(** The three format tags, [file_types] of the source. *)
Inductive file_type : Type := OsmPbf | ShpZip | OsmBz2.

Global Instance file_type_eq_dec : EqDecision file_type.
Proof. solve_decision. Defined.

Definition ext (ft : file_type) : string :=
  match ft with
  | OsmPbf => ".osm.pbf"
  | ShpZip => ".shp.zip"
  | OsmBz2 => ".osm.bz2"
  end.

Definition file_types : list file_type := [OsmPbf; ShpZip; OsmBz2].

(** A row of a parsed subregion table before [SubregionURL] is added:
    columns [Subregion, .osm.pbf, .osm.pbf_Size, .shp.zip, .osm.bz2]. *)
Record trow : Type := TRow {
  t_Subregion : string;
  t_pbf : cell;
  t_pbf_Size : cell;
  t_shp : cell;
  t_bz2 : cell
}.

(** A row of the table [get_subregion_table] returns:
    [Subregion, SubregionURL, .osm.pbf, .osm.pbf_Size, .shp.zip, .osm.bz2]. *)
Record row : Type := Row {
  Subregion : string;
  SubregionURL : string;
  osm_pbf : cell;
  osm_pbf_Size : cell;
  shp_zip : cell;
  osm_bz2 : cell
}.

Global Instance row_eq_dec : EqDecision row.
Proof. solve_decision. Defined.

Definition table : Type := list row.

(** What [pd.read_html(url, match=Sub-Regions)] followed by [pd.concat]
    yields, by its number of columns. *)
Inductive raw_table : Type :=
  | Raw4 (rows : list (string * cell * cell * cell))
  | Raw5 (rows : list (string * cell * cell * cell * cell))
  | RawOther (ncols : nat).

(** A row of a raw directory index: file, size in bytes, date. *)
Record file_row : Type := FileRow {
  File : string;
  Size : N;
  Date : N
}.

(** A row of the cleaned directory index. *)
Record dir_row : Type := DirRow {
  d_File : string;
  d_Size : string;
  d_Date : N;
  d_FileURL : string
}.

(** The parts of a parsed HTML page the source looks at. *)
Record anchor : Type := Anchor { a_text : string; a_href : option string }.

Record soup : Type := Soup {
  anchors : list anchor;
  tr_onmouseover : list string;
  td_subregion : list (option anchor)
}.

(** The region-subregion tier: a nested dict whose terminal values are
    not dicts. *)
#[warnings="-register-all"]
Inductive tier : Type :=
  | Terminal
  | Nested (items : list (string * tier)).

(** A value held by a file of the data directory. *)
Inductive value : Type :=
  | VNames (names : list string)
  | VUrlIndex (index : gmap string string)
  | VTable (t : table)
  | VTableJson (t : table)
  | VTier (items : list (string * tier))
  | VJson (v : value)
  | VBlob (content : string).

Record state : Type := State {
  files : gmap string value;
  dirs : gset string;
  trace : list event
}.

Definition set_files (f : gmap string value → gmap string value) (s : state) : state :=
  State (f (files s)) (dirs s) (trace s).
Definition set_dirs (f : gset string → gset string) (s : state) : state :=
  State (files s) (f (dirs s)) (trace s).
Definition log (e : event) (s : state) : state :=
  State (files s) (dirs s) (trace s ++ [e]).

(** The lines printed so far. *)
Definition printed (s : state) : list string :=
  omap (λ e, match e with Print l => Some l | _ => None end) (trace s).

Definition printed_of (e : event) : list string :=
  match e with Print l => [l] | _ => [] end.

(** The network requests made so far. *)
Definition is_network (e : event) : bool :=
  match e with
  | ReadHtml _ | HttpGet _ | Download _ _ => true
  | _ => false
  end.
Definition network_requests (s : state) : list event :=
  List.filter is_network (trace s).

Definition is_download (e : event) : bool :=
  match e with
  | Download _ _ => true
  | _ => false
  end.

(** How a state [s'] may differ from an earlier state [s] when only the
    paths accepted by [writable] were written and no download was
    requested: every other path holds what it held, and the events added
    to the trace are not downloads. *)
Definition frame (writable : string → Prop) (s s' : state) : Prop :=
  (∀ p, ¬ writable p → files s' !! p = files s !! p)
  ∧ ∃ evs, trace s' = trace s ++ evs ∧ Forall (λ e, is_download e = false) evs.

Inductive outcome (A : Type) : Type :=
  | Ret (a : A)
  | Raise (e : exn)
  | Diverge.
Arguments Ret {A} a.
Arguments Raise {A} e.
Arguments Diverge {A}.

Definition M (A : Type) : Type := state → outcome A * state.

Global Instance M_ret : MRet M := λ A a s, (Ret a, s).
Global Instance M_bind : MBind M := λ A B f m s,
  match m s with
  | (Ret a, s') => f a s'
  | (Raise e, s') => (Raise e, s')
  | (Diverge, s') => (Diverge, s')
  end.

Definition raise {A} (k : exn_class) (msg : string) : M A :=
  λ s, (Raise (Exn k msg), s).
Definition reraise {A} (e : exn) : M A := λ s, (Raise e, s).
Definition diverge {A} : M A := λ s, (Diverge, s).
Definition emit (e : event) : M unit := λ s, (Ret tt, log e s).
Definition print (line : string) : M unit := emit (Print line).
Definition get_state : M state := λ s, (Ret s, s).
Definition modify (f : state → state) : M unit := λ s, (Ret tt, f s).

(** A computation that, from any state, ends in a state within the frame. *)
Definition respects (writable : string → Prop) {A} (m : M A) : Prop :=
  ∀ s, frame writable s (m s).2.

(** [try: body except (ks) as e: handler e] *)
Definition try_except {A} (body : M A) (ks : list exn_class) (handler : exn → M A) : M A :=
  λ s, match body s with
       | (Raise e, s') => if handled_by ks e then handler e s' else (Raise e, s')
       | r => r
       end.

(** A library call whose result the environment decides. *)
Definition call {A} (r : exn + A) : M A :=
  match r with
  | inl e => reraise e
  | inr a => mret a
  end.

Fixpoint mapM {A B} (f : A → M B) (l : list A) : M (list B) :=
  match l with
  | [] => mret []
  | x :: l' => y ← f x; ys ← mapM f l'; mret (y :: ys)
  end.

Fixpoint foldM {A B} (f : B → A → M B) (b : B) (l : list A) : M B :=
  match l with
  | [] => mret b
  | x :: l' => b' ← f b x; foldM f b' l'
  end.

(** ** [settings.py] *)

(** [gdal.SetConfigOption(key, value)] on the library's global options. *)
Definition SetConfigOption (key val : string) (cfg : gmap string string) : gmap string string :=
  <[key := val]> cfg.

Definition gdal_configurations (reset : bool) (cfg : gmap string string) : gmap string string :=
  if negb reset then
    SetConfigOption "MAX_TMPFILE_SIZE" "2000"
      (SetConfigOption "COMPRESS_NODES" "NO"
        (SetConfigOption "USE_CUSTOM_INDEXING" "YES"
          (SetConfigOption "OGR_INTERLEAVED_READING" "YES" cfg)))
  else
    SetConfigOption "MAX_TMPFILE_SIZE" "100"
      (SetConfigOption "COMPRESS_NODES" "NO"
        (SetConfigOption "USE_CUSTOM_INDEXING" "YES"
          (SetConfigOption "OGR_INTERLEAVED_READING" "NO" cfg))).

(** The four options, in the order the source sets them. *)
Definition gdal_options (cfg : gmap string string) : list (option string) :=
  [cfg !! "OGR_INTERLEAVED_READING"; cfg !! "USE_CUSTOM_INDEXING";
   cfg !! "COMPRESS_NODES"; cfg !! "MAX_TMPFILE_SIZE"].

(** ** The environment: the remote site, the third-party libraries, the
    operator and the machine *)

(** What pandas does with [df.loc[mask, column] = values] when the list
    [values] is not as long as the selection: it raises [ValueError], or
    it leaves the column alone, or it writes the one value of the list
    into every selected cell. *)
Inductive setitem_mismatch : Type :=
  | SetitemRaises
  | SetitemIgnored
  | SetitemBroadcast.

Record env : Type := Env {
  (** [pd.read_html(url, match=re.compile('(Special )?Sub[ \-]Regions?'))]
      followed by [pd.concat]. *)
  read_html_subregions : string → exn + raw_table;
  (** [pd.read_html(url, match='file', header=0, parse_dates=['date'])]
      followed by [pd.concat]. *)
  read_html_files : string → exn + list file_row;
  (** [requests.get(url)] parsed by [bs4.BeautifulSoup]. *)
  requests_get : string → exn + soup;
  (** The resource a download URL serves. *)
  remote_file : string → exn + string;
  (** [urllib.parse.urljoin] and the path component of [urllib.parse.urlparse]. *)
  urljoin : string → string → string;
  urlparse_path : string → string;
  (** [humanfriendly.format_size]. *)
  format_size : N → string;
  (** The masked assignment of a list that is not as long as the
      selection, from the number of cells selected, the number of values
      and the number of rows.  The versions of pandas do not agree on
      it: most mismatches raise [ValueError] in all of them; when the
      mask selects no cell, a list of one value, or of as many values as
      there are rows, is accepted and changes nothing in some; a list of
      one value is written into each of several selected cells by the
      older ones. *)
  loc_setitem_mismatch : nat → nat → nat → setitem_mismatch;
  (** The default scorer of [fuzzywuzzy.process], applied to a query and
      a choice after the default processor: a score from 0 to 100. *)
  WRatio : string → string → nat;
  (** The order in which Python iterates over a set of strings. *)
  set_iter : gset string → list string;
  (** The root of the local data directory and [os.path.abspath]. *)
  data_root : string;
  abspath : string → string;
  (** Disk faults: the error, if any, that writing or deleting a path raises. *)
  write_error : string → option exn;
  remove_error : string → option exn;
  (** The operator's answer to a confirmation prompt. *)
  operator : string → bool;
  (** The number of rounds of the crawl loop the model follows, and the
      number of calls of [retrieve_subregion_names_from] that Python's
      recursion limit allows inside the outermost one. *)
  crawl_bound : nat;
  recursion_limit : nat;
  (** [collect_region_subregion_tier(confirmation_required=True)], which
      no property below depends on: any transformer of the state. *)
  collect_region_subregion_tier : state → outcome unit * state
}.

Section Model.

Context (W : env).

(** *** [pydriosm.utils] *)

(** Modelled from the spec: [cd_dat] is missing from the sources; it
    computes a path under the fixed local data root by joining the
    segment it is given. *)
Definition cd_dat (name : string) : string :=
  Py.os_path_join (data_root W) name.

(** Modelled from the spec: [cd_dat_geofabrik] is missing from the
    sources; it joins path segments under the "Geofabrik" subdirectory of
    the data root. *)
Definition cd_dat_geofabrik (segments : list string) : string :=
  fold_left Py.os_path_join segments (cd_dat "Geofabrik").

(** The path of the pickle of a catalogue. *)
Definition pickle_of (catalogue_name : string) : string :=
  cd_dat (catalogue_name +:+ ".pickle").

(** Modelled from the spec: [save_pickle] is missing from the sources;
    it writes the value to the path, and a disk fault propagates. *)
Definition save_pickle (data : value) (path : string) : M unit :=
  match write_error W path with
  | Some e => reraise e
  | None => modify (set_files (insert path data))
  end.

(** Modelled from the spec: [save_json] is missing from the sources; it
    writes the JSON form of the value to the path. *)
Definition save_json (data : value) (path : string) : M unit :=
  match write_error W path with
  | Some e => reraise e
  | None => modify (set_files (insert path (VJson data)))
  end.

(** The values a pickle holds: anything but the text of a JSON file or
    the bytes of a downloaded file. *)
Definition pickled (v : value) : Prop :=
  match v with
  | VJson _ | VBlob _ => False
  | _ => True
  end.

(** Modelled from the spec: [load_pickle] is missing from the sources;
    it raises a not-found error when the path is absent, and reads back
    the value that was saved. *)
Definition load_pickle (path : string) : M value :=
  s ← get_state;
  match files s !! path with
  | None => raise OSError ("[Errno 2] No such file or directory: " +:+ path)
  | Some (VJson _) | Some (VBlob _) => raise Exception "invalid load key"
  | Some v => mret v
  end.

(** Modelled from the spec: [load_json] is missing from the sources. *)
Definition load_json (path : string) : M value :=
  s ← get_state;
  match files s !! path with
  | None => raise OSError ("[Errno 2] No such file or directory: " +:+ path)
  | Some (VJson v) => mret v
  | Some _ => raise ValueError "Expecting value"
  end.

(** Modelled from the spec: [confirmed] is missing from the sources; when
    confirmation is not required it returns true without prompting,
    otherwise it shows the prompt and returns the operator's answer. *)
Definition confirmed (prompt : string) (confirmation_required : bool) : M bool :=
  if confirmation_required then
    emit (Prompt prompt);; mret (operator W prompt)
  else mret true.

(** Modelled from the spec: [download] is missing from the sources; it
    streams the remote resource to the destination, creating the parent
    directory, and surfaces transport errors to the caller. *)
Definition download (url path : string) : M unit :=
  emit (Download url path);;
  content ← call (remote_file W url);
  modify (set_dirs (union {[ fst (Py.os_path_split path) ]}));;
  modify (set_files (insert path (VBlob content))).

(** Modelled from the spec: [regulate_input_data_dir] is missing from
    the sources; it normalises a directory to an absolute path and
    creates it if absent. *)
Definition regulate_input_data_dir (data_dir : string) : M string :=
  let d := abspath W data_dir in
  modify (set_dirs (union {[ d ]}));; mret d.

(** *** [os.path] and [os] on the modelled disk *)

Definition os_path_isfile (path : string) : M bool :=
  s ← get_state; mret (bool_decide (is_Some (files s !! path))).

Definition os_path_exists (path : string) : M bool :=
  s ← get_state;
  mret (bool_decide (is_Some (files s !! path)) || bool_decide (path ∈ dirs s)).

Definition os_makedirs (path : string) : M unit :=
  modify (set_dirs (union {[ path ]})).

Definition os_remove (path : string) : M unit :=
  match remove_error W path with
  | Some e => reraise e
  | None => modify (set_files (delete path))
  end.

(** *** The two page parsers *)

Definition invalid_input_url : string :=
  "Failed to get the requested information due to invalid input URL.".

(** [url.endswith('.osm.pbf') or url.endswith('.shp.zip') or
    url.endswith('.osm.bz2')] *)
Definition is_file_url (url : string) : bool :=
  Py.endswith url ".osm.pbf" || Py.endswith url ".shp.zip" || Py.endswith url ".osm.bz2".

(** [sort_values('Date', ascending=False)], by insertion. *)
Fixpoint insert_by_date (r : dir_row) (l : list dir_row) : list dir_row :=
  match l with
  | [] => [r]
  | r' :: l' =>
      if (d_Date r' <? d_Date r)%N then r :: l else r' :: insert_by_date r l'
  end.
Definition sort_by_date_desc (l : list dir_row) : list dir_row :=
  foldr insert_by_date [] l.

Definition get_raw_directory_table (url : string) : M (option (list dir_row)) :=
  if is_file_url url then
    print invalid_input_url;;
    mret None
  else
    try_except
      (emit (ReadHtml url);;
       raw ← call (read_html_files W url);
       let cleaned :=
         map (λ r, DirRow (File r) (format_size W (Size r)) (Date r)
                          (urljoin W url (File r))) raw in
       mret (Some (sort_by_date_desc cleaned)))
      [HTTPError; TypeError; ValueError]
      (λ _,
         (if (String.length (urlparse_path W url) <=? 1)%nat
          then print "The home page does not have a raw directory index."
          else mret tt);;
         mret None).

(** Column names are set to the five canonical ones: a table of four
    columns first gets a missing-value column at position 2; any other
    width makes the renaming raise [ValueError]. *)
Definition canonical_columns (raw : raw_table) : option (list trow) :=
  match raw with
  | Raw4 rows => Some (map (λ '(n, pbf, shp, bz2), TRow n pbf None shp bz2) rows)
  | Raw5 rows => Some (map (λ '(n, pbf, size, shp, bz2), TRow n pbf size shp bz2) rows)
  | RawOther _ => None
  end.
Definition with_canonical_columns (raw : raw_table) : M (list trow) :=
  match canonical_columns raw with
  | Some t => mret t
  | None => raise ValueError "Length mismatch: Expected axis has a different number of elements"
  end.

(** [replace({'.osm.pbf_Size': {'[()]': '', '\xa0': ' '}})] *)
Definition is_paren (c : ascii) : bool :=
  bool_decide (c = "("%char) || bool_decide (c = ")"%char).
Definition nbsp_to_space (c : ascii) : ascii :=
  if bool_decide (c = ascii_of_nat 160) then " "%char else c.
Definition clean_size (r : trow) : trow :=
  TRow (t_Subregion r) (t_pbf r)
       (Py.map_chars nbsp_to_space <$> (Py.remove_chars is_paren <$> t_pbf_Size r))
       (t_shp r) (t_bz2 r).

Definition get_format (ft : file_type) (r : trow) : cell :=
  match ft with
  | OsmPbf => t_pbf r
  | ShpZip => t_shp r
  | OsmBz2 => t_bz2 r
  end.

Definition set_format (ft : file_type) (c : cell) (r : trow) : trow :=
  match ft with
  | OsmPbf => TRow (t_Subregion r) c (t_pbf_Size r) (t_shp r) (t_bz2 r)
  | ShpZip => TRow (t_Subregion r) (t_pbf r) (t_pbf_Size r) c (t_bz2 r)
  | OsmBz2 => TRow (t_Subregion r) (t_pbf r) (t_pbf_Size r) (t_shp r) c
  end.

(** The number of non-missing cells of a format column. *)
Definition count_notnull (ft : file_type) (t : list trow) : nat :=
  length (List.filter (λ r, bool_decide (is_Some (get_format ft r))) t).

(** The URLs written, in order, into the non-missing cells of the column. *)
Fixpoint fill_notnull (ft : file_type) (t : list trow) (urls : list string) : list trow :=
  match t with
  | [] => []
  | r :: t' =>
      match get_format ft r, urls with
      | Some _, u :: urls' => set_format ft (Some u) r :: fill_notnull ft t' urls'
      | _, _ => r :: fill_notnull ft t' urls
      end
  end.

(** One value written into every non-missing cell of the column. *)
Definition fill_all (ft : file_type) (t : list trow) (u : string) : list trow :=
  map (λ r, if bool_decide (is_Some (get_format ft r)) then set_format ft (Some u) r else r) t.

(** [subregion_table.loc[subregion_table[file_type].notnull(), file_type] = urls]:
    pandas assigns a list through a boolean mask position by position
    when the list is as long as the selection.  When it is not, the
    version of pandas decides: [ValueError], or the column left as it
    is, or the one value of the list in every selected cell. *)
Definition loc_notnull_assign (ft : file_type) (t : list trow) (urls : list string) : M (list trow) :=
  if decide (length urls = count_notnull ft t) then mret (fill_notnull ft t urls)
  else
    match loc_setitem_mismatch W (count_notnull ft t) (length urls) (length t), urls with
    | SetitemIgnored, _ => mret t
    | SetitemBroadcast, [u] => mret (fill_all ft t u)
    | _, _ => raise ValueError "Must have equal len keys and value when setting with an iterable"
    end.

(** [soup.find_all(name='a', href=True, text=text)], then [link['href']]. *)
Definition find_all_a_href (sp : soup) (text : string) : list string :=
  omap (λ a, if bool_decide (a_text a = text) then a_href a else None) (anchors sp).

(** [soup.find('a', text=text)] *)
Definition find_a (sp : soup) (text : string) : option anchor :=
  List.find (λ a, bool_decide (a_text a = text)) (anchors sp).

(** [a['href']] where [a] may be [None] or lack the attribute. *)
Definition subscript_href (a : option anchor) : M string :=
  match a with
  | None => raise TypeError "'NoneType' object is not subscriptable"
  | Some a =>
      match a_href a with
      | None => raise KeyError "'href'"
      | Some h => mret h
      end
  end.

(** [s[s.find('(') + 1:s.find(')')][1:-1].replace('kml', 'html')] *)
Definition kml_to_html (s : string) : string :=
  Py.replace "kml" "html"
    (Py.slice (Py.slice s (Py.find "(" s + 1)%Z (Py.find ")" s)) 1%Z (-1)%Z).

(** [subregion_table['SubregionURL'] = subregion_urls], with the column
    moved next to [Subregion]. *)
Definition assign_SubregionURL (t : list trow) (urls : list string) : M table :=
  if decide (length urls = length t) then
    mret (zip_with (λ r u, Row (t_Subregion r) u (t_pbf r) (t_pbf_Size r) (t_shp r) (t_bz2 r))
                   t urls)
  else raise ValueError "Length of values does not match length of index".

(** The diagnostic of the handler: Checked out, then in double quotes
    [url.split('/')[-1].split('.')[0].title()], then a full stop. *)
Definition checked_out (url : string) : string :=
  "Checked out " +:+ Py.dq
    +:+ Py.title (Py.first_item (Py.split "." (Py.last_item (Py.split "/" url))))
    +:+ Py.dq +:+ ".".

(** Lines 84-88: for each format, the resolved links whose text is the
    format in square brackets go into the non-missing cells of its column. *)
Definition assign_format_urls (url : string) (sp : soup) (subregion_table : list trow)
  : M (list trow) :=
  foldM (λ t file_type,
           loc_notnull_assign file_type t
             (map (urljoin W url) (find_all_a_href sp ("[" +:+ ext file_type +:+ "]"))))
        subregion_table file_types.

(** Lines 90-96: the page of each subregion, from the anchor that bears
    its name, or from the map overlays when that raises [TypeError]. *)
Definition subregion_page_urls (url : string) (sp : soup) (subregion_table : list trow)
  : M (list string) :=
  try_except
    (mapM (λ text, h ← subscript_href (find_a sp text); mret (urljoin W url h))
          (map t_Subregion subregion_table))
    [TypeError]
    (λ _, mret (map (λ s, urljoin W url (kml_to_html s)) (tr_onmouseover sp))).

(** Lines 64-101: the body of the [try]. *)
Definition parse_subregion_page (url : string) : M (option table) :=
  emit (ReadHtml url);;
  raw ← call (read_html_subregions W url);
  subregion_table ← with_canonical_columns raw;
  let subregion_table := map clean_size subregion_table in
  emit (HttpGet url);;
  sp ← call (requests_get W url);
  subregion_table ← assign_format_urls url sp subregion_table;
  subregion_urls ← subregion_page_urls url sp subregion_table;
  t ← assign_SubregionURL subregion_table subregion_urls;
  mret (Some t).

Definition get_subregion_table (url : string) : M (option table) :=
  if is_file_url url then
    print invalid_input_url;;
    mret None
  else
    try_except
      (parse_subregion_page url)
      [ValueError; TypeError; ConnectionRefusedError; ConnectionError]
      (λ _, print (checked_out url);; mret None).

(** *** The subregion catalogue collector and the cache layer *)

Definition home_url : string := "http://download.geofabrik.de/".

(** [td.a.text] and [td.a['href']] for a cell of class "subregion". *)
Definition td_a_text (td : option anchor) : M string :=
  match td with
  | None => raise AttributeError "'NoneType' object has no attribute 'text'"
  | Some a => mret (a_text a)
  end.

(** [dict(zip(keys, vals))]: a later pair overwrites an earlier one. *)
Definition dict_zip (keys vals : list string) : gmap string string :=
  fold_left (λ m kv, <[kv.1 := kv.2]> m) (zip keys vals) ∅.

(** [pd.concat(tables, ignore_index=True)]: [None] entries are dropped,
    and [ValueError] is raised when nothing is left. *)
Definition pd_concat (tables : list (option table)) : M table :=
  match omap id tables with
  | [] => raise ValueError "All objects passed were None"
  | ts => mret (concat ts)
  end.

(** [df.drop_duplicates()]: of equal rows the first is kept. *)
Definition drop_duplicates (t : table) : table := Py.dict_fromkeys t.

(** [df.set_index('Subregion').to_json()]: the default orientation
    requires a unique index. *)
Definition to_json_by_Subregion (t : table) : M value :=
  if decide (NoDup (map Subregion t)) then mret (VTableJson t)
  else raise ValueError "DataFrame index must be unique for orient='columns'.".

(** The accumulators of the crawl: [avail_subregions],
    [avail_subregion_urls], [avail_subregion_url_tables]. *)
Definition crawl_acc : Type := list string * list string * list table.

(** The body of [for subregion_url_table in subregion_url_tables], with
    [subregion_url_tables_] as first component of the loop state. *)
Definition crawl_table (st : list table * crawl_acc) (subregion_url_table : table)
  : M (list table * crawl_acc) :=
  let '(subregion_url_tables_, (avail_subregions, avail_subregion_urls, avail_subregion_url_tables)) := st in
  let subregions := map Subregion subregion_url_table in
  let subregion_urls := map SubregionURL subregion_url_table in
  subregion_url_tables_0 ← mapM get_subregion_table subregion_urls;
  let subregion_url_tables_ := subregion_url_tables_ ++ omap id subregion_url_tables_0 in
  mret (subregion_url_tables_,
        (avail_subregions ++ subregions,
         avail_subregion_urls ++ subregion_urls,
         avail_subregion_url_tables ++ subregion_url_tables_)).

(** [while subregion_url_tables: ...], followed for at most [rounds]
    rounds. *)
Fixpoint crawl (rounds : nat) (subregion_url_tables : list table) (acc : crawl_acc)
  : M crawl_acc :=
  match subregion_url_tables with
  | [] => mret acc
  | _ :: _ =>
      match rounds with
      | O => diverge
      | S rounds' =>
          st ← foldM crawl_table ([], acc) subregion_url_tables;
          crawl rounds' st.1 st.2
      end
  end.

(** Lines 122-148: the home page and the breadth-first crawl. *)
Definition crawl_site : M crawl_acc :=
  emit (HttpGet home_url);;
  sp ← call (requests_get W home_url);
  avail_subregions ← mapM td_a_text (td_subregion sp);
  avail_subregion_urls ←
    mapM (λ td, h ← subscript_href td; mret (urljoin W home_url h)) (td_subregion sp);
  avail_subregion_url_tables ← mapM get_subregion_table avail_subregion_urls;
  let avail_subregion_url_tables := omap id avail_subregion_url_tables in
  crawl (crawl_bound W) avail_subregion_url_tables
        (avail_subregions, avail_subregion_urls, avail_subregion_url_tables).

(** Lines 150-168: the three catalogues are built and saved one after
    the other. *)
Definition save_catalogues (acc : crawl_acc) : M unit :=
  let '(avail_subregions, avail_subregion_urls, avail_subregion_url_tables) := acc in
  save_pickle (VNames avail_subregions) (cd_dat "GeoFabrik-subregion-name-list.pickle");;
  let subregion_url_index := dict_zip avail_subregions avail_subregion_urls in
  save_pickle (VUrlIndex subregion_url_index) (cd_dat "GeoFabrik-subregion-name-url-dictionary.pickle");;
  save_json (VUrlIndex subregion_url_index) (cd_dat "GeoFabrik-subregion-name-url-dictionary.json");;
  home_subregion_url_table ← get_subregion_table home_url;
  subregion_downloads_index ←
    pd_concat (map Some avail_subregion_url_tables ++ [home_subregion_url_table]);
  let subregion_downloads_index := drop_duplicates subregion_downloads_index in
  subregion_downloads_index_json ← to_json_by_Subregion subregion_downloads_index;
  save_pickle (VTable subregion_downloads_index) (cd_dat "GeoFabrik-subregion-downloads-catalogue.pickle");;
  save_json subregion_downloads_index_json (cd_dat "GeoFabrik-subregion-downloads-catalogue.json").

(** The files the collector writes. *)
Definition catalogue_files : list string :=
  [cd_dat "GeoFabrik-subregion-name-list.pickle";
   cd_dat "GeoFabrik-subregion-name-url-dictionary.pickle";
   cd_dat "GeoFabrik-subregion-name-url-dictionary.json";
   cd_dat "GeoFabrik-subregion-downloads-catalogue.pickle";
   cd_dat "GeoFabrik-subregion-downloads-catalogue.json"].

(** Lines 122-168: the body of the [try]. *)
Definition crawl_and_save : M unit :=
  acc ← crawl_site; save_catalogues acc.

Definition failed_to_get (e : exn) : string :=
  "Failed to get the required information ... " +:+ exn_str e +:+ ".".

Definition collect_prompt : string :=
  "To collect all available subregion links? (Note that it may take a few minutes.) ".

Definition collect_subregion_info_catalogue (confirmation_required : bool) : M unit :=
  ok ← confirmed collect_prompt confirmation_required;
  if ok : bool then
    try_except crawl_and_save [Exception] (λ e, print (failed_to_get e))
  else
    print "The information collection process was not activated.".

(** The message of the two assertions of a fetch: the allowed values,
    each in double quotes on a line of its own. *)
Definition must_be_one_of (what : string) (available : list string) : string :=
  "'" +:+ what +:+ "' must be one of the following: " +:+ Py.nl +:+ "  " +:+ Py.dq
    +:+ String.concat (Py.dq +:+ "," +:+ Py.nl +:+ "  " +:+ Py.dq) available
    +:+ Py.dq +:+ ".".

(** The body shared by [fetch_subregion_info_catalogue] and
    [fetch_region_subregion_tier]; the result is [None] when loading
    fails. *)
Definition fetch_catalogue (available_catalogue : list string) (collect : M unit)
    (catalogue_name file_format : string) (update : bool) : M (option value) :=
  (if bool_decide (catalogue_name ∈ available_catalogue) then mret tt
   else raise AssertionError (must_be_one_of "catalogue_name" available_catalogue));;
  (if bool_decide (file_format ∈ [".pickle"; ".json"]) then mret tt
   else raise AssertionError (must_be_one_of "file_format" [".pickle"; ".json"]));;
  let path_to_catalogue := cd_dat (catalogue_name +:+ file_format) in
  is_file ← os_path_isfile path_to_catalogue;
  (if negb is_file || update then collect else mret tt);;
  try_except
    (index_file ← (if bool_decide (file_format = ".pickle")
                   then load_pickle path_to_catalogue
                   else load_json path_to_catalogue);
     mret (Some index_file))
    [Exception]
    (λ e, print (exn_str e);; mret None).

Definition fetch_subregion_info_catalogue : string → string → bool → M (option value) :=
  fetch_catalogue
    ["GeoFabrik-subregion-name-list"; "GeoFabrik-subregion-name-url-dictionary";
     "GeoFabrik-subregion-downloads-catalogue"]
    (collect_subregion_info_catalogue true).

Definition fetch_region_subregion_tier : string → string → bool → M (option value) :=
  fetch_catalogue
    ["GeoFabrik-region-subregion-tier"; "GeoFabrik-non-subregion-list"]
    (collect_region_subregion_tier W).

(** *** Name resolution *)

(** [fuzzywuzzy.process.extractWithoutOrder]: the choices scoring at
    least the cutoff, each with its score, in the order of the choices. *)
Definition extractWithoutOrder (query : string) (choices : list string) (score_cutoff : nat)
  : list (string * nat) :=
  omap (λ choice,
          let score := WRatio W query choice in
          if (score_cutoff <=? score)%nat then Some (choice, score) else None)
       choices.

(** [max(best_list, key=lambda i: i[1])]: the first pair among those of
    the highest score. *)
Fixpoint max_by_score (best : string * nat) (l : list (string * nat)) : string * nat :=
  match l with
  | [] => best
  | x :: l' => max_by_score (if (best.2 <? x.2)%nat then x else best) l'
  end.

(** [fuzzywuzzy.process.extractOne]: [None] when no choice reaches the
    cutoff. *)
Definition extractOne (query : string) (choices : list string) (score_cutoff : nat)
  : option (string * nat) :=
  match extractWithoutOrder query choices score_cutoff with
  | [] => None
  | x :: l => Some (max_by_score x l)
  end.

(** The choices a loaded name list offers to [extractOne]; a catalogue
    that failed to load offers none.  The name-list file is only ever
    written with a list of names. *)
Definition choices_of (catalogue : option value) : M (list string) :=
  match catalogue with
  | None => mret []
  | Some (VNames names) => mret names
  | Some _ => raise TypeError "unexpected content of the name list"
  end.

Definition regulate_input_subregion_name (subregion_name : string) : M string :=
  catalogue ← fetch_subregion_info_catalogue "GeoFabrik-subregion-name-list" ".pickle" false;
  subregion_names ← choices_of catalogue;
  match extractOne subregion_name subregion_names 50 with
  | None => raise TypeError "cannot unpack non-iterable NoneType object"
  | Some (subregion_name_, _) => mret subregion_name_
  end.

(** *** Download URL and path *)

Definition parse_format (osm_file_format : string) : option file_type :=
  List.find (λ ft, bool_decide (ext ft = osm_file_format)) file_types.

(** What [df.loc[name, column]] evaluates to: a cell when one row has
    the name, a series when several have. *)
Inductive loc_result : Type :=
  | Scalar (c : cell)
  | Series (cs : list cell).

Definition row_format (ft : file_type) (r : row) : cell :=
  match ft with
  | OsmPbf => osm_pbf r
  | ShpZip => shp_zip r
  | OsmBz2 => osm_bz2 r
  end.

Definition loc (t : table) (name : string) (ft : file_type) : M loc_result :=
  match List.filter (λ r, bool_decide (Subregion r = name)) t with
  | [] => raise KeyError name
  | [r] => mret (Scalar (row_format ft r))
  | rs => mret (Series (map (row_format ft) rs))
  end.

Definition get_subregion_download_url (subregion_name osm_file_format : string) (update : bool)
  : M (string * loc_result) :=
  match parse_format osm_file_format with
  | None => raise AssertionError "'file_format' must be one of ['.osm.pbf', '.shp.zip', '.osm.bz2']."
  | Some ft =>
      catalogue ← fetch_subregion_info_catalogue "GeoFabrik-subregion-downloads-catalogue" ".pickle" update;
      match catalogue with
      | Some (VTable subregion_downloads_index) =>
          subregion_name_ ← regulate_input_subregion_name subregion_name;
          download_url ← loc subregion_downloads_index subregion_name_ ft;
          mret (subregion_name_, download_url)
      | _ => raise AttributeError "object has no attribute 'set_index'"
      end
  end.

(** A download URL used as a string. *)
Definition as_str (k : exn_class) (download_url : loc_result) : M string :=
  match download_url with
  | Scalar (Some url) => mret url
  | _ => raise k "expected str"
  end.

Definition get_default_osm_filename (subregion_name osm_file_format : string) (update : bool)
  : M string :=
  r ← get_subregion_download_url subregion_name osm_file_format update;
  download_url ← as_str TypeError r.2;
  mret (Py.os_path_split download_url).2.

Definition get_default_path_to_osm_file (subregion_name osm_file_format : string)
    (mkdir update : bool) : M (string * string) :=
  r ← get_subregion_download_url subregion_name osm_file_format update;
  download_url ← as_str AttributeError r.2;
  let parsed_path := Py.split "/" (Py.lstrip "/" (urlparse_path W download_url)) in
  catalogue ← fetch_subregion_info_catalogue "GeoFabrik-subregion-name-list" ".pickle" false;
  subregion_names ← choices_of catalogue;
  segments ←
    mapM (λ x, match extractOne x subregion_names 0 with
               | None => raise TypeError "'NoneType' object is not subscriptable"
               | Some best => mret best.1
               end)
         (Py.but_last parsed_path);
  let directory := cd_dat_geofabrik segments in
  let default_filename := Py.last_item parsed_path in
  exists_ ← os_path_exists directory;
  (if negb exists_ && mkdir then os_makedirs directory else mret tt);;
  let default_file_path := Py.os_path_join directory default_filename in
  mret (default_filename, default_file_path).

(** *** Subregion name retrieval *)

(** The generator [find_subregions(reg_name, reg_sub_idx)] as the list of
    what it yields, for the dict [v].  A key equal to the name yields the
    keys of its dict, or the name itself when its value is not a dict;
    under any other key the search goes on in the nested dict.  What the
    nested search yields is always a list, so the two [isinstance] tests
    on [sub] pass it on unchanged. *)
Fixpoint find_in (reg_name : string) (v : tier) : list (list string) :=
  match v with
  | Terminal => []
  | Nested items =>
      (fix go (l : list (string * tier)) : list (list string) :=
         match l with
         | [] => []
         | (k, v') :: rest =>
             (if bool_decide (reg_name = k) then
                match v' with
                | Nested items' => [map fst items']
                | Terminal => [[reg_name]]
                end
              else find_in reg_name v') ++ go rest
         end) items
  end.

Definition find_subregions (reg_name : string) (reg_sub_idx : list (string * tier))
  : list (list string) :=
  find_in reg_name (Nested reg_sub_idx).

(** [list(dict.fromkeys(result))] for a loaded list. *)
Definition as_list (catalogue : option value) : M (list string) :=
  match catalogue with
  | Some (VNames names) => mret names
  | _ => raise TypeError "'NoneType' object is not iterable"
  end.

(** [reg_sub_idx.items()] for a loaded tier. *)
Definition as_tier (catalogue : option value) : M (list (string * tier)) :=
  match catalogue with
  | Some (VTier items) => mret items
  | _ => raise AttributeError "'NoneType' object has no attribute 'items'"
  end.

(** [[x for x in res if x not in no_subregion_list]] *)
Definition not_in_list (res : list string) (no_subregion_list : option value) : M (list string) :=
  match res, no_subregion_list with
  | [], _ => mret []
  | _, Some (VNames names) => mret (List.filter (λ x, bool_decide (x ∉ names)) res)
  | _, _ => raise TypeError "argument of type 'NoneType' is not iterable"
  end.

(** The body of the first loop:
    [res += list(find_subregions(regulate_input_subregion_name(region), region_subregion_index))[0]]. *)
Definition first_of (region_subregion_index : option value) (res : list string) (region : string)
  : M (list string) :=
  name ← regulate_input_subregion_name region;
  idx ← as_tier region_subregion_index;
  match find_subregions name idx with
  | [] => raise IndexError "list index out of range"
  | first :: _ => mret (res ++ first)
  end.

(** The body of the second loop, [result += retrieve_subregion_names_from(region)],
    given the function to call. *)
Definition expand_with (retrieve_ : list string → M (list string)) (result : list string)
    (region : string) : M (list string) :=
  sub ← retrieve_ [region]; mret (result ++ sub).

(** [retrieve_subregion_names_from] on the tuple of its arguments, when
    Python's recursion limit leaves room for [depth] calls, this one
    included. *)
Fixpoint retrieve (depth : nat) (subregion_name : list string) : M (list string) :=
  match depth with
  | O => raise RecursionError "maximum recursion depth exceeded"
  | S depth' =>
      no_subregion_list ← fetch_region_subregion_tier "GeoFabrik-non-subregion-list" ".pickle" false;
      result ←
        match subregion_name with
        | [] => as_list no_subregion_list
        | _ :: _ =>
            region_subregion_index ←
              fetch_region_subregion_tier "GeoFabrik-region-subregion-tier" ".pickle" false;
            res ← foldM (first_of region_subregion_index) [] subregion_name;
            check_list ← not_in_list res no_subregion_list;
            match check_list with
            | [] => mret res
            | _ :: _ =>
                foldM (expand_with (retrieve depth'))
                      (set_iter W (list_to_set res ∖ list_to_set check_list))
                      check_list
            end
        end;
      mret (Py.dict_fromkeys result)
  end.

Definition retrieve_subregion_names_from (subregion_name : list string) : M (list string) :=
  retrieve (S (recursion_limit W)) subregion_name.

(** *** Downloading and removing files *)

(** Lines 454-462 of [download_subregion_osm_file]: the resolved name,
    the download URL, the file name and the path of the target file. *)
Definition resolve_target (sub_reg_name osm_file_format : string) (download_dir : option string)
  : M (string * loc_result * string * string) :=
  r ← get_subregion_download_url sub_reg_name osm_file_format false;
  let '(subregion_name_, download_url) := r in
  match download_dir with
  | None | Some "" =>
      p ← get_default_path_to_osm_file subregion_name_ osm_file_format true false;
      mret (subregion_name_, download_url, p.1, p.2)
  | Some download_dir =>
      regulated_dir ← regulate_input_data_dir download_dir;
      osm_filename ← get_default_osm_filename subregion_name_ osm_file_format false;
      mret (subregion_name_, download_url, osm_filename, Py.os_path_join regulated_dir osm_filename)
  end.

Definition already_available (osm_filename subregion_name_ path_to_file : string) : string :=
  Py.nl +:+ Py.dq +:+ osm_filename +:+ Py.dq +:+ " is already available for "
    +:+ Py.dq +:+ subregion_name_ +:+ Py.dq +:+ " at: " +:+ Py.nl
    +:+ Py.dq +:+ path_to_file +:+ Py.dq +:+ "." +:+ Py.nl.

(** The body of the loop of [download_subregion_osm_file]. *)
Definition download_one (osm_file_format : string) (download_dir : option string)
    (update download_confirmation_required verbose : bool) (sub_reg_name : string) : M unit :=
  target ← resolve_target sub_reg_name osm_file_format download_dir;
  let '(subregion_name_, download_url, osm_filename, path_to_file) := target in
  is_file ← os_path_isfile path_to_file;
  if is_file && negb update then
    if verbose then print (already_available osm_filename subregion_name_ path_to_file)
    else mret tt
  else
    ok ← confirmed (Py.nl +:+ "To download " +:+ osm_file_format +:+ " data for " +:+ subregion_name_)
                   download_confirmation_required;
    if ok : bool then
      is_file ← os_path_isfile path_to_file;
      let op := if is_file : bool then "Updating" else "Downloading" in
      try_except
        (url ← as_str TypeError download_url;
         download url path_to_file;;
         print (Py.nl +:+ op +:+ " " +:+ Py.dq +:+ osm_filename +:+ Py.dq +:+ " for "
                  +:+ Py.dq +:+ subregion_name_ +:+ Py.dq +:+ " ... Done.");;
         print ("Check out: " +:+ Py.dq +:+ path_to_file +:+ Py.dq +:+ "."))
        [Exception]
        (λ e, print (Py.nl +:+ "Failed to download " +:+ Py.dq +:+ osm_filename +:+ Py.dq
                       +:+ ". " +:+ exn_str e +:+ "."))
    else print "The downloading process was not activated.".

Definition download_subregion_osm_file (subregion_name : list string) (osm_file_format : string)
    (download_dir : option string) (update download_confirmation_required verbose : bool)
  : M unit :=
  foldM (λ _ sub_reg_name,
           download_one osm_file_format download_dir update
                        download_confirmation_required verbose sub_reg_name)
        tt subregion_name.

(** [download_sub_subregion_osm_file]: the names are expanded, one
    confirmation covers them all, and the pause follows the downloads
    when [interval_sec] is not zero. *)
Definition download_sub_subregion_osm_file (subregion_name : list string)
    (osm_file_format : string) (download_dir : option string)
    (update download_confirmation_required : bool) (interval_sec : nat) : M unit :=
  subregions ← retrieve_subregion_names_from subregion_name;
  ok ← confirmed (Py.nl +:+ "To download " +:+ osm_file_format
                    +:+ " data for all the following subregions: " +:+ Py.nl
                    +:+ String.concat ", " subregions +:+ "?" +:+ Py.nl)
                 download_confirmation_required;
  if ok : bool then
    download_subregion_osm_file subregions osm_file_format download_dir update false true;;
    match interval_sec with
    | O => mret tt
    | S _ => emit (Sleep interval_sec)
    end
  else mret tt.

(** [any(path_to_osm_file.endswith(ext) for ext in [".osm.pbf", ".shp.zip", ".osm.bz2"])] *)
Definition has_osm_suffix (path_to_osm_file : string) : bool :=
  existsb (λ e, Py.endswith path_to_osm_file e) [".osm.pbf"; ".shp.zip"; ".osm.bz2"].

Definition has_been_removed (path_to_osm_file : string) : string :=
  Py.dq +:+ Py.os_path_basename path_to_osm_file +:+ Py.dq
    +:+ " has been removed from local disk." +:+ Py.nl.

Definition does_not_exist (path_to_osm_file : string) : string :=
  let '(head, tail) := Py.os_path_split path_to_osm_file in
  Py.dq +:+ tail +:+ Py.dq +:+ " does not exist at " +:+ Py.dq +:+ head +:+ Py.dq
    +:+ "." +:+ Py.nl.

Definition remove_subregion_osm_file (path_to_osm_file : string) : M unit :=
  if negb (has_osm_suffix path_to_osm_file) then
    raise AssertionError "'subregion_file_path' is not valid."
  else
    is_file ← os_path_isfile path_to_osm_file;
    if is_file : bool then
      try_except
        (os_remove path_to_osm_file;;
         print (has_been_removed path_to_osm_file))
        [Exception]
        (λ e, print (exn_str e))
    else print (does_not_exist path_to_osm_file).

End Model.

(** * What subregion name retrieval is to compute

    The description of the operation, to compare [retrieve] with: the
    name is resolved against the canonical names; its entry is the first
    one met with that key when the tier is searched depth first; the keys
    of a nested entry, or the name itself for a terminal entry, are the
    initial result; a name of the initial result that is in the
    non-subregion list is kept, any other is expanded in turn. *)

Section Expansion.

Context (W : env) (canonical : list string) (tier_ : list (string * tier))
        (non_subregions : list string).

Definition resolve_name (query : string) : option string :=
  fst <$> extractOne W query canonical 50.

Fixpoint entry_in (name : string) (v : tier) : option tier :=
  match v with
  | Terminal => None
  | Nested items =>
      (fix go (l : list (string * tier)) : option tier :=
         match l with
         | [] => None
         | (k, v') :: rest =>
             if bool_decide (name = k) then Some v'
             else match entry_in name v' with
                  | Some e => Some e
                  | None => go rest
                  end
         end) items
  end.

Definition tier_entry (name : string) : option tier := entry_in name (Nested tier_).

Definition entry_result (name : string) (entry : option tier) : option (list string) :=
  match entry with
  | Some (Nested items) => Some (map fst items)
  | Some Terminal => Some [name]
  | None => None
  end.

Definition initial_result (query : string) : option (list string) :=
  name ← resolve_name query; entry_result name (tier_entry name).

(** [expansion query x]: the terminal name [x] belongs to the expansion
    of [query]. *)
Inductive expansion : string → string → Prop :=
  | expansion_kept (query : string) (first : list string) (x : string) :
      initial_result query = Some first →
      x ∈ first → x ∈ non_subregions →
      expansion query x
  | expansion_further (query : string) (first : list string) (y x : string) :
      initial_result query = Some first →
      y ∈ first → y ∉ non_subregions →
      expansion y x →
      expansion query x.

(** [expandable d query]: the expansion of [query] ends, with at most [d]
    calls nested in one another. *)
Inductive expandable : nat → string → Prop :=
  | expandable_intro (d : nat) (query : string) (first : list string) :
      initial_result query = Some first →
      (∀ y, y ∈ first → y ∉ non_subregions → expandable d y) →
      expandable (S d) query.

End Expansion.

(** Python iterates over a set in an order of its own: all the items,
    each once. *)
Definition set_iter_ok (W : env) : Prop :=
  ∀ X : gset string, set_iter W X ≡ₚ elements X.

(** * The region-subregion tier builder

    [compile_region_subregion_tier] and [collect_region_subregion_tier].
    A dict is kept as the list of its items, in the order in which the
    keys were first set. *)

Module Builder.

Section Builder.

Context (W : env).

(** [d[k] = v]: a key that is there keeps its place, a new key comes
    last. *)
Fixpoint dict_set {A} (k : string) (v : A) (d : list (string * A)) : list (string * A) :=
  match d with
  | [] => [(k, v)]
  | (k', v') :: d' =>
      if bool_decide (k = k') then (k, v) :: d' else (k', v') :: dict_set k v d'
  end.

(** [d.pop(k)] for a key that is there. *)
Fixpoint dict_pop {A} (k : string) (d : list (string * A)) : list (string * A) :=
  match d with
  | [] => []
  | (k', v') :: d' => if bool_decide (k = k') then d' else (k', v') :: dict_pop k d'
  end.

(** [dict(zip(keys, vals))] *)
Definition dict_of_zip {A} (keys : list string) (vals : list A) : list (string * A) :=
  fold_left (λ d kv, dict_set kv.1 kv.2 d) (zip keys vals) [].

(** A dict of tables seen as a tier: a table, a set of names and [None]
    are all values that are not dicts. *)
Definition not_dicts {A} (d : list (string * A)) : list (string * tier) :=
  map (λ kv, (kv.1, Terminal)) d.

(** Modelled from the spec: [update_nested_dict] is missing from the
    sources; it merges the update into the dict, in place, and returns the
    dict.  It is called with one key and a value that is not a dict, which
    it stores under the key. *)
Definition update_nested_dict (source_dict : list (string * tier)) (k : string) (v : tier)
  : list (string * tier) :=
  dict_set k v source_dict.

(** Lines 255-263: [region_subregion_tiers] and [non_subregions_list]
    after the first loop.  The loop updates [sub_reg_tbls] itself, whose
    values, tables or sets of names, are never dicts at that point. *)
Definition classify (sub_reg_tbls : list (string * option table))
  : list (string * tier) * list string :=
  fold_left (λ acc kv,
               match kv.2 with
               | Some v => (update_nested_dict (not_dicts sub_reg_tbls) kv.1 Terminal, acc.2)
               | None => (acc.1, acc.2 ++ [kv.1])
               end)
            sub_reg_tbls (not_dicts sub_reg_tbls, []).

(** [subregion_table.Subregion] on a value of [having_subregions]. *)
Definition table_of (v : option table) : M table :=
  match v with
  | Some t => mret t
  | None => raise AttributeError "'NoneType' object has no attribute 'Subregion'"
  end.

(** [compile_region_subregion_tier(sub_reg_tbls)], when Python's
    recursion limit leaves room for [depth] calls, this one included.
    The [for] loop pops every key of [having_subregions] from its copy, so
    that the [while] loop around it runs the [for] loop once. *)
Fixpoint compile_region_subregion_tier (depth : nat) (sub_reg_tbls : list (string * option table))
  : M (list (string * tier) * list string) :=
  match depth with
  | O => raise RecursionError "maximum recursion depth exceeded"
  | S depth' =>
      let '(region_subregion_tiers, non_subregions_list) := classify sub_reg_tbls in
      let having_subregions := fold_left (λ d x, dict_pop x d) non_subregions_list sub_reg_tbls in
      foldM (λ acc item,
               subregion_table ← table_of item.2;
               tables ← mapM (get_subregion_table W) (map SubregionURL subregion_table);
               let sub_subregion_tables := dict_of_zip (map Subregion subregion_table) tables in
               r ← compile_region_subregion_tier depth' sub_subregion_tables;
               mret (dict_set item.1 (Nested r.1) acc.1, acc.2 ++ r.2))
            (region_subregion_tiers, non_subregions_list) having_subregions
  end.

(** [fetch_continents_subregion_tables(update)]: what it returns is
    loaded from a pickle that holds a dict of tables, a value the files
    modelled here do not hold; the collector is given the function. *)
Context (fetch_continents_subregion_tables : bool → M (option (list (string * option table)))).

Definition tier_prompt : string :=
  "To compile a region-subregion tier? (Note that it may take a few minutes.) ".

(** [sub_reg_tbls.items()] on what the fetch returned. *)
Definition items_of (subregion_tables : option (list (string * option table)))
  : M (list (string * option table)) :=
  match subregion_tables with
  | Some d => mret d
  | None => raise AttributeError "'NoneType' object has no attribute 'items'"
  end.

(** Lines 290-294: the body of the [try]. *)
Definition compile_and_save : M unit :=
  subregion_tables ← fetch_continents_subregion_tables true;
  sub_reg_tbls ← items_of subregion_tables;
  r ← compile_region_subregion_tier (S (recursion_limit W)) sub_reg_tbls;
  save_pickle W (VTier r.1) (cd_dat W "GeoFabrik-region-subregion-tier.pickle");;
  save_json W (VTier r.1) (cd_dat W "GeoFabrik-region-subregion-tier.json");;
  save_pickle W (VNames r.2) (cd_dat W "GeoFabrik-non-subregion-list.pickle").

Definition collect_region_subregion_tier (confirmation_required : bool) : M unit :=
  ok ← confirmed W tier_prompt confirmation_required;
  if ok : bool then
    try_except compile_and_save [Exception] (λ e, print (failed_to_get e))
  else
    print "The information collection process was not activated. The existing local copy will be loaded instead.".

End Builder.

End Builder.

(** The keys of a tier, at any depth, whose value is not a dict. *)
Fixpoint terminal_keys (v : tier) : list string :=
  match v with
  | Terminal => []
  | Nested items =>
      (fix go (l : list (string * tier)) : list string :=
         match l with
         | [] => []
         | (k, v') :: rest =>
             match v' with
             | Terminal => [k]
             | Nested _ => terminal_keys v'
             end ++ go rest
         end) items
  end.

(** All the keys of a tier, at any depth. *)
Fixpoint tier_keys (v : tier) : list string :=
  match v with
  | Terminal => []
  | Nested items =>
      (fix go (l : list (string * tier)) : list string :=
         match l with
         | [] => []
         | (k, v') :: rest => k :: tier_keys v' ++ go rest
         end) items
  end.

(** The keys of a dict whose value is [None], and the items whose value
    is not. *)
Definition none_keys {A} (d : list (string * option A)) : list string :=
  omap (λ kv, match kv.2 with None => Some kv.1 | Some _ => None end) d.
Definition some_items {A} (d : list (string * option A)) : list (string * option A) :=
  List.filter (λ kv, bool_decide (is_Some kv.2)) d.

(** * Notions used to state further properties *)

(** The names and URLs accumulated by the crawl go in pairs, each pair
    read from the home page or from a row of a table collected so far, and
    the tables still to visit are among those collected. *)
Definition aligned (home_pairs : list (string * string)) (frontier : list table)
    (acc : crawl_acc) : Prop :=
  length acc.1.1 = length acc.1.2
  ∧ (∀ n u, (n, u) ∈ zip acc.1.1 acc.1.2 →
       (n, u) ∈ home_pairs
       ∨ ∃ t r, t ∈ acc.2 ∧ r ∈ t ∧ Subregion r = n ∧ SubregionURL r = u)
  ∧ ∀ t, t ∈ frontier → t ∈ acc.2.

(** The prompt and the lines of [download_subregion_osm_file]. *)
Definition to_download (osm_file_format subregion_name_ : string) : string :=
  Py.nl +:+ "To download " +:+ osm_file_format +:+ " data for " +:+ subregion_name_.

Definition done_line (op osm_filename subregion_name_ : string) : string :=
  Py.nl +:+ op +:+ " " +:+ Py.dq +:+ osm_filename +:+ Py.dq +:+ " for "
    +:+ Py.dq +:+ subregion_name_ +:+ Py.dq +:+ " ... Done.".

Definition check_out_line (path_to_file : string) : string :=
  "Check out: " +:+ Py.dq +:+ path_to_file +:+ Py.dq +:+ ".".

Definition failed_to_download (osm_filename : string) (e : exn) : string :=
  Py.nl +:+ "Failed to download " +:+ Py.dq +:+ osm_filename +:+ Py.dq
    +:+ ". " +:+ exn_str e +:+ ".".

(** The state once the operator has agreed to a download, if asked. *)
Definition agreed (download_confirmation_required : bool)
    (osm_file_format subregion_name_ : string) (s1 : state) : state :=
  if download_confirmation_required
  then log (Prompt (to_download osm_file_format subregion_name_)) s1
  else s1.

Definition is_sleep (e : event) : bool :=
  match e with
  | Sleep _ => true
  | _ => false
  end.

(** A computation that, from any state, only adds to the trace, and only
    events accepted by [P]. *)
Definition emits (P : event → Prop) {A} (m : M A) : Prop :=
  ∀ s, ∃ evs, trace (m s).2 = trace s ++ evs ∧ Forall P evs.

(** * A small site, for the examples

    A home page with one continent, whose page lists Malta (no further
    page) and Great Britain (whose page lists England and Scotland). *)

Module Site.

Definition root : string := "http://download.geofabrik.de/".

Definition fmt_cells : cell * cell * cell :=
  (Some "[.osm.pbf]", Some "[.shp.zip]", Some "[.osm.bz2]").

Definition europe_table : raw_table :=
  Raw5 [("Great Britain", Some "[.osm.pbf]", Some "(1.1 GB)", Some "[.shp.zip]", Some "[.osm.bz2]");
        ("Malta", Some "[.osm.pbf]", Some "(5.7 MB)", Some "[.shp.zip]", Some "[.osm.bz2]")].

Definition great_britain_table : raw_table :=
  Raw4 [("England", Some "[.osm.pbf]", None, Some "[.osm.bz2]");
        ("Scotland", Some "[.osm.pbf]", Some "[.shp.zip]", Some "[.osm.bz2]")].

Definition home_table : raw_table :=
  Raw5 [("Europe", Some "[.osm.pbf]", Some "(22.4 GB)", None, None)].

Definition link (text href : string) : anchor := Anchor text (Some href).

Definition home_soup : soup :=
  Soup [link "Europe" "europe.html"; link "[.osm.pbf]" "europe-latest.osm.pbf"]
       []
       [Some (link "Europe" "europe.html")].

Definition europe_soup : soup :=
  Soup [link "Great Britain" "europe/great-britain.html";
        link "[.osm.pbf]" "europe/great-britain-latest.osm.pbf";
        link "[.shp.zip]" "europe/great-britain-latest-free.shp.zip";
        link "[.osm.bz2]" "europe/great-britain-latest.osm.bz2";
        link "Malta" "europe/malta.html";
        link "[.osm.pbf]" "europe/malta-latest.osm.pbf";
        link "[.shp.zip]" "europe/malta-latest-free.shp.zip";
        link "[.osm.bz2]" "europe/malta-latest.osm.bz2"]
       [] [].

(** The page of Great Britain: England is offered in two formats only,
    and the subregion links are given by map overlays. *)
Definition great_britain_soup : soup :=
  Soup [link "[.osm.pbf]" "europe/great-britain/england-latest.osm.pbf";
        link "[.osm.bz2]" "europe/great-britain/england-latest.osm.bz2";
        link "[.osm.pbf]" "europe/great-britain/scotland-latest.osm.pbf";
        link "[.shp.zip]" "europe/great-britain/scotland-latest-free.shp.zip";
        link "[.osm.bz2]" "europe/great-britain/scotland-latest.osm.bz2"]
       ["loadkml('europe/great-britain/england.kml')";
        "loadkml('europe/great-britain/scotland.kml')"]
       [].

Definition no_tables_found : exn := Exn ValueError "No tables found".
Definition not_found : exn := Exn HTTPError "HTTP Error 404: Not Found".

Definition pages : string → exn + raw_table := λ url,
  if bool_decide (url = root) then inr home_table
  else if bool_decide (url = root +:+ "europe.html") then inr europe_table
  else if bool_decide (url = root +:+ "europe/great-britain.html") then inr great_britain_table
  else inl no_tables_found.

Definition soups : string → exn + soup := λ url,
  if bool_decide (url = root) then inr home_soup
  else if bool_decide (url = root +:+ "europe.html") then inr europe_soup
  else if bool_decide (url = root +:+ "europe/great-britain.html") then inr great_britain_soup
  else inl not_found.

(** A scorer that only tells names equal up to case from the others. *)
Definition same_up_to_case (query choice : string) : nat :=
  if bool_decide (Py.lower query = Py.lower choice) then 100%nat else 0%nat.

(** An environment over given pages: links are relative to the root,
    pandas rejects every list of the wrong length, the disk never fails,
    the operator always agrees. *)
Definition world (read_html : string → exn + raw_table) (get : string → exn + soup)
    (scorer : string → string → nat) : env :=
  {| read_html_subregions := read_html;
     read_html_files := λ _, inl no_tables_found;
     requests_get := get;
     remote_file := λ url, inr ("content of " +:+ url);
     urljoin := λ _ href, root +:+ href;
     urlparse_path := λ url, String.substring 28 (String.length url - 28) url;
     format_size := λ _, "0 bytes";
     loc_setitem_mismatch := λ _ _ _, SetitemRaises;
     WRatio := scorer;
     set_iter := elements;
     data_root := "/data";
     abspath := λ d, d;
     write_error := λ _, None;
     remove_error := λ _, None;
     operator := λ _, true;
     crawl_bound := 8;
     recursion_limit := 64;
     collect_region_subregion_tier := λ s, (Ret tt, s) |}.

Definition W0 : env := world pages soups same_up_to_case.

(** The same site when no page offers a subregion table. *)
Definition W_no_tables : env := world (λ _, inl no_tables_found) soups same_up_to_case.

(** The site when it cannot be reached. *)
Definition unreachable : exn := Exn OSError "Max retries exceeded".
Definition W_offline : env :=
  world (λ _, inl unreachable) (λ _, inl unreachable) same_up_to_case.

Definition empty_disk : state := State ∅ ∅ [].

Definition malta_pbf : string := "/data/Geofabrik/Europe/malta-latest.osm.pbf".
Definition disk_with_malta : state := State {[ malta_pbf := VBlob "osm" ]} ∅ [].

(** The names the crawl of the small site collects, and a disk that
    holds them. *)
Definition names : list string :=
  ["Europe"; "Great Britain"; "Malta"; "England"; "Greater London"; "Scotland"; "Kent"].
Definition disk_with_names : state :=
  State {[ "/data/GeoFabrik-subregion-name-list.pickle" := VNames names ]} ∅ [].

(** A downloads catalogue of two rows, and a disk that holds it with
    the name list. *)
Definition greater_london_pbf : string :=
  root +:+ "europe/great-britain/england/greater-london-latest.osm.pbf".
Definition catalogue : table :=
  [Row "Malta" (root +:+ "europe/malta.html")
       (Some (root +:+ "europe/malta-latest.osm.pbf")) (Some "5.7 MB")
       (Some (root +:+ "europe/malta-latest-free.shp.zip"))
       (Some (root +:+ "europe/malta-latest.osm.bz2"));
   Row "Greater London" (root +:+ "europe/great-britain/england/greater-london.html")
       (Some greater_london_pbf) (Some "81 MB") None None].
Definition disk_with_catalogue : state :=
  State {[ "/data/GeoFabrik-subregion-name-list.pickle" := VNames names;
           "/data/GeoFabrik-subregion-downloads-catalogue.pickle" := VTable catalogue ]}
        ∅ [].

(** The same disk once the file of Malta has been downloaded. *)
Definition disk_with_download : state :=
  set_files (insert malta_pbf (VBlob "osm")) disk_with_catalogue.

(** A tier in which Greater London and Kent are terminal under England,
    itself under Great Britain, with the list of the terminal names, and
    a disk that holds both with the name list. *)
Definition tier_of_europe : list (string * tier) :=
  [("Europe",
    Nested [("Great Britain",
             Nested [("England", Nested [("Greater London", Terminal); ("Kent", Terminal)]);
                     ("Scotland", Terminal)]);
            ("Malta", Terminal)])].
Definition non_subregions : list string := ["Greater London"; "Kent"; "Scotland"; "Malta"].
Definition disk_with_tier : state :=
  State {[ "/data/GeoFabrik-subregion-name-list.pickle" := VNames names;
           "/data/GeoFabrik-non-subregion-list.pickle" := VNames non_subregions;
           "/data/GeoFabrik-region-subregion-tier.pickle" := VTier tier_of_europe ]}
        ∅ [].

(** A non-subregion list in which the districts of a region listed under
    two continents come twice. *)
Definition listed_twice : list string :=
  ["Central Federal District"; "Crimean Federal District"; "Central Federal District"].
Definition disk_listed_twice : state :=
  State {[ "/data/GeoFabrik-non-subregion-list.pickle" := VNames listed_twice ]} ∅ [].

End Site.

(** * Further cases, for the examples *)

Module Cases.

(** The small site with a file listing, a file server and an operator
    of one's choice. *)
Definition altered (listing : string → exn + list file_row)
    (remote : string → exn + string) (answer : string → bool) : env :=
  {| read_html_subregions := read_html_subregions Site.W0;
     read_html_files := listing;
     requests_get := requests_get Site.W0;
     remote_file := remote;
     urljoin := urljoin Site.W0;
     urlparse_path := urlparse_path Site.W0;
     format_size := format_size Site.W0;
     loc_setitem_mismatch := loc_setitem_mismatch Site.W0;
     WRatio := WRatio Site.W0;
     set_iter := set_iter Site.W0;
     data_root := data_root Site.W0;
     abspath := abspath Site.W0;
     write_error := write_error Site.W0;
     remove_error := remove_error Site.W0;
     operator := answer;
     crawl_bound := crawl_bound Site.W0;
     recursion_limit := recursion_limit Site.W0;
     collect_region_subregion_tier := collect_region_subregion_tier Site.W0 |}.

(** A directory with three files, listed oldest first but for the last. *)
Definition listing : list file_row :=
  [FileRow "malta-190101.osm.pbf" 5976883 20190101;
   FileRow "malta-latest.osm.pbf" 5980112 20190103;
   FileRow "malta-190102.osm.pbf" 5977324 20190102].
Definition W_listing : env :=
  altered (λ _, inr listing) (remote_file Site.W0) (operator Site.W0).

(** A site whose file listings cannot be reached. *)
Definition W_no_listing : env :=
  altered (λ _, inl Site.unreachable) (remote_file Site.W0) (operator Site.W0).

(** An operator who declines, and a site that serves no file. *)
Definition W_declining : env :=
  altered (read_html_files Site.W0) (remote_file Site.W0) (λ _, false).
Definition W_no_transfer : env :=
  altered (read_html_files Site.W0) (λ _, inl Site.unreachable) (operator Site.W0).

(** The table of the page of Europe, and the tables of the continents. *)
Definition europe : table :=
  [Row "Great Britain" (Site.root +:+ "europe/great-britain.html")
       (Some (Site.root +:+ "europe/great-britain-latest.osm.pbf")) (Some "1.1 GB")
       (Some (Site.root +:+ "europe/great-britain-latest-free.shp.zip"))
       (Some (Site.root +:+ "europe/great-britain-latest.osm.bz2"));
   Row "Malta" (Site.root +:+ "europe/malta.html")
       (Some (Site.root +:+ "europe/malta-latest.osm.pbf")) (Some "5.7 MB")
       (Some (Site.root +:+ "europe/malta-latest-free.shp.zip"))
       (Some (Site.root +:+ "europe/malta-latest.osm.bz2"))].
Definition continents : list (string * option table) :=
  [("Europe", Some europe); ("Antarctica", None)].

(** A fetch that finds the tables of the continents. *)
Definition loaded_continents : bool → M (option (list (string * option table))) :=
  λ _, mret (Some continents).

(** The rows of the page of Great Britain, once the format columns are
    filled. *)
Definition great_britain_rows : list trow :=
  [TRow "England" (Some (Site.root +:+ "europe/great-britain/england-latest.osm.pbf")) None
        None (Some (Site.root +:+ "europe/great-britain/england-latest.osm.bz2"));
   TRow "Scotland" (Some (Site.root +:+ "europe/great-britain/scotland-latest.osm.pbf")) None
        (Some (Site.root +:+ "europe/great-britain/scotland-latest-free.shp.zip"))
        (Some (Site.root +:+ "europe/great-britain/scotland-latest.osm.bz2"))].

(** A site whose every page lists one subregion, whose page is the page
    itself. *)
Definition loop_url : string := Site.root +:+ "loop.html".
Definition loop_table : table :=
  [Row "Loop" loop_url (Some (Site.root +:+ "loop-latest.osm.pbf")) (Some "1 MB") None None].
Definition W_loop : env :=
  Site.world (λ _, inr (Raw5 [("Loop", Some "[.osm.pbf]", Some "(1 MB)", None, None)]))
             (λ _, inr (Soup [Site.link "Loop" "loop.html";
                              Site.link "[.osm.pbf]" "loop-latest.osm.pbf"] [] []))
             Site.same_up_to_case.

(** A pandas that accepts a list of one value, or of as many values as
    there are rows, when the mask selects no cell, and changes nothing
    then; it rejects every other list of the wrong length. *)
Definition empty_selection_ignored (selected given rows : nat) : setitem_mismatch :=
  if bool_decide (selected = 0%nat)
     && (bool_decide (given = 1%nat) || bool_decide (given = rows))
  then SetitemIgnored else SetitemRaises.

(** The page of Malta, were it to list two islands, neither of them
    offered as shapefiles, and to link the shapefiles of Malta itself. *)
Definition malta_url : string := Site.root +:+ "europe/malta.html".
Definition islands_table : raw_table :=
  Raw4 [("Gozo", Some "[.osm.pbf]", None, Some "[.osm.bz2]");
        ("Comino", Some "[.osm.pbf]", None, Some "[.osm.bz2]")].
Definition islands_soup : soup :=
  Soup [Site.link "[.shp.zip]" "europe/malta-latest-free.shp.zip";
        Site.link "Gozo" "europe/malta/gozo.html";
        Site.link "[.osm.pbf]" "europe/malta/gozo-latest.osm.pbf";
        Site.link "[.osm.bz2]" "europe/malta/gozo-latest.osm.bz2";
        Site.link "Comino" "europe/malta/comino.html";
        Site.link "[.osm.pbf]" "europe/malta/comino-latest.osm.pbf";
        Site.link "[.osm.bz2]" "europe/malta/comino-latest.osm.bz2"]
       [] [].
Definition islands : table :=
  [Row "Gozo" (Site.root +:+ "europe/malta/gozo.html")
       (Some (Site.root +:+ "europe/malta/gozo-latest.osm.pbf")) None None
       (Some (Site.root +:+ "europe/malta/gozo-latest.osm.bz2"));
   Row "Comino" (Site.root +:+ "europe/malta/comino.html")
       (Some (Site.root +:+ "europe/malta/comino-latest.osm.pbf")) None None
       (Some (Site.root +:+ "europe/malta/comino-latest.osm.bz2"))].

(** The small site with that page, read with that pandas. *)
Definition W_lenient : env :=
  {| read_html_subregions := λ url,
       if bool_decide (url = malta_url) then inr islands_table
       else read_html_subregions Site.W0 url;
     read_html_files := read_html_files Site.W0;
     requests_get := λ url,
       if bool_decide (url = malta_url) then inr islands_soup else requests_get Site.W0 url;
     remote_file := remote_file Site.W0;
     urljoin := urljoin Site.W0;
     urlparse_path := urlparse_path Site.W0;
     format_size := format_size Site.W0;
     loc_setitem_mismatch := empty_selection_ignored;
     WRatio := WRatio Site.W0;
     set_iter := set_iter Site.W0;
     data_root := data_root Site.W0;
     abspath := abspath Site.W0;
     write_error := write_error Site.W0;
     remove_error := remove_error Site.W0;
     operator := operator Site.W0;
     crawl_bound := crawl_bound Site.W0;
     recursion_limit := recursion_limit Site.W0;
     collect_region_subregion_tier := collect_region_subregion_tier Site.W0 |}.

(** What the crawl of the small site accumulates. *)
Definition crawled : crawl_acc :=
  Eval vm_compute in
    match (crawl_site Site.W0 Site.empty_disk).1 with
    | Ret acc => acc
    | _ => ([], [], [])
    end.

(** A disk whose tier has no entry for most of the names of the list, and
    a disk whose non-subregion list misses one terminal name of the
    tier. *)
Definition disk_with_partial_tier : state :=
  State {[ "/data/GeoFabrik-subregion-name-list.pickle" := VNames Site.names;
           "/data/GeoFabrik-non-subregion-list.pickle" := VNames ["Malta"];
           "/data/GeoFabrik-region-subregion-tier.pickle" :=
             VTier [("Europe", Nested [("Malta", Terminal)])] ]}
        ∅ [].
Definition disk_unlisted_terminal : state :=
  State {[ "/data/GeoFabrik-subregion-name-list.pickle" := VNames Site.names;
           "/data/GeoFabrik-non-subregion-list.pickle" :=
             VNames ["Greater London"; "Scotland"; "Malta"];
           "/data/GeoFabrik-region-subregion-tier.pickle" := VTier Site.tier_of_europe ]}
        ∅ [].

End Cases.

(** * Properties *)

(** ** Strings *)

Lemma app_cons (c : ascii) (s1 s2 : string) : String c s1 +:+ s2 = String c (s1 +:+ s2).
Proof. reflexivity. Qed.

Lemma app_empty_l (s : string) : "" +:+ s = s.
Proof. reflexivity. Qed.

Lemma app_empty_r (s : string) : s +:+ "" = s.
Proof. induction s as [|c s IH]; [done|]. by rewrite app_cons, IH. Qed.

Lemma app_assoc_s (s1 s2 s3 : string) : (s1 +:+ s2) +:+ s3 = s1 +:+ (s2 +:+ s3).
Proof. induction s1 as [|c s1 IH]; [done|]. by rewrite !app_cons, IH. Qed.

Lemma rev_app_spec (s1 s2 : string) :
  String.rev_app s1 s2 = String.rev s1 +:+ s2.
Proof.
  unfold String.rev. revert s2.
  induction s1 as [|c s1 IH]; intros s2; simpl; [done|].
  rewrite (IH (String c s2)), (IH (String c "")).
  by rewrite app_assoc_s.
Qed.

Lemma rev_cons (c : ascii) (s : string) : String.rev (String c s) = String.rev s +:+ String c "".
Proof. unfold String.rev at 1. simpl. apply rev_app_spec. Qed.

Lemma rev_append (s1 s2 : string) :
  String.rev (s1 +:+ s2) = String.rev s2 +:+ String.rev s1.
Proof.
  induction s1 as [|c s1 IH].
  - rewrite app_empty_l. unfold String.rev at 3. simpl. by rewrite app_empty_r.
  - by rewrite app_cons, !rev_cons, IH, app_assoc_s.
Qed.

Lemma endswith_rev_append (r x : string) : Py.endswith_rev r (r +:+ x) = true.
Proof.
  induction r as [|c r IH]; [done|]. rewrite app_cons. simpl.
  destruct (ascii_dec c c); [done|congruence].
Qed.

(** A string that is some prefix followed by the suffix ends with it. *)
Lemma endswith_append (p suffix : string) : Py.endswith (p +:+ suffix) suffix = true.
Proof. unfold Py.endswith. rewrite rev_append. apply endswith_rev_append. Qed.

Lemma rev_involutive_s (s : string) : String.rev (String.rev s) = s.
Proof.
  induction s as [|c s IH]; [done|].
  rewrite rev_cons, rev_append, IH. done.
Qed.

Lemma endswith_rev_inv (r rs : string) :
  Py.endswith_rev r rs = true → ∃ x, rs = r +:+ x.
Proof.
  revert rs. induction r as [|c r IH]; intros rs H.
  - by exists rs.
  - destruct rs as [|b rs]; simpl in H; [done|].
    destruct (ascii_dec c b) as [->|]; [|done].
    destruct (IH _ H) as [x ->]. by exists x.
Qed.

(** [endswith] decides [ends_with]. *)
Lemma endswith_spec (s suffix : string) :
  Py.endswith s suffix = true ↔ Py.ends_with s suffix.
Proof.
  split.
  - intros H. apply endswith_rev_inv in H as [x Hx].
    exists (String.rev x).
    rewrite <- (rev_involutive_s s), Hx, rev_append, rev_involutive_s. done.
  - intros [p ->]. apply endswith_append.
Qed.

Example endswith_ex :
  Py.endswith "europe/great-britain-latest.osm.pbf" ".osm.pbf" = true
  ∧ Py.endswith "europe/great-britain.html" ".osm.pbf" = false.
Proof. split; reflexivity. Qed.

Example checked_out_ex :
  checked_out "https://download.geofabrik.de/europe/great-britain.html"
  = "Checked out " +:+ Py.dq +:+ "Great-Britain" +:+ Py.dq +:+ ".".
Proof. reflexivity. Qed.

Example kml_to_html_ex :
  kml_to_html "loadkml('europe/albania.kml')" = "europe/albania.html".
Proof. reflexivity. Qed.

Example os_path_split_ex :
  Py.os_path_split "/data/Geofabrik/Europe/malta-latest.osm.pbf"
  = ("/data/Geofabrik/Europe", "malta-latest.osm.pbf").
Proof. reflexivity. Qed.

Example dict_fromkeys_ex : Py.dict_fromkeys ["b"; "a"; "b"; "c"; "a"] = ["b"; "a"; "c"].
Proof. reflexivity. Qed.

(** ** [dict.fromkeys] *)

Lemma elem_of_fromkeys_go {A} `{EqDecision A} (seen l : list A) (x : A) :
  x ∈ Py.fromkeys_go seen l ↔ x ∈ l ∧ x ∉ seen.
Proof.
  revert seen. induction l as [|y l IH]; intros seen; simpl.
  - set_solver.
  - destruct (decide (y ∈ seen)) as [Hy|Hy].
    + rewrite IH. set_solver.
    + rewrite !elem_of_cons, IH, not_elem_of_cons.
      destruct (decide (x = y)) as [->|]; naive_solver.
Qed.

Lemma NoDup_fromkeys_go {A} `{EqDecision A} (seen l : list A) :
  NoDup (Py.fromkeys_go seen l).
Proof.
  revert seen. induction l as [|y l IH]; intros seen; simpl.
  - constructor.
  - destruct (decide (y ∈ seen)); [apply IH|].
    constructor; [|apply IH]. rewrite elem_of_fromkeys_go. set_solver.
Qed.

Lemma fromkeys_go_NoDup_id {A} `{EqDecision A} (seen l : list A) :
  NoDup l → (∀ x, x ∈ l → x ∉ seen) → Py.fromkeys_go seen l = l.
Proof.
  revert seen. induction l as [|y l IH]; intros seen Hnd Hseen; simpl; [done|].
  apply NoDup_cons in Hnd as [Hy Hnd].
  destruct (decide (y ∈ seen)) as [Hin|_]; [exfalso; apply (Hseen y); set_solver|].
  f_equal. apply IH; [done|]. intros x Hx. specialize (Hseen x). set_solver.
Qed.

Lemma fromkeys_go_sublist {A} `{EqDecision A} (seen l : list A) :
  sublist (Py.fromkeys_go seen l) l.
Proof.
  revert seen. induction l as [|y l IH]; intros seen; simpl; [done|].
  destruct (decide (y ∈ seen)); [by apply sublist_cons|by apply sublist_skip].
Qed.

(** The result has every item of the list, and each of them once. *)
Lemma elem_of_dict_fromkeys {A} `{EqDecision A} (l : list A) (x : A) :
  x ∈ Py.dict_fromkeys l ↔ x ∈ l.
Proof. unfold Py.dict_fromkeys. rewrite elem_of_fromkeys_go. set_solver. Qed.

Lemma NoDup_dict_fromkeys {A} `{EqDecision A} (l : list A) : NoDup (Py.dict_fromkeys l).
Proof. apply NoDup_fromkeys_go. Qed.

(** The items are kept in the order of the list. *)
Lemma dict_fromkeys_sublist {A} `{EqDecision A} (l : list A) : sublist (Py.dict_fromkeys l) l.
Proof. apply fromkeys_go_sublist. Qed.

(** A list without repeated items is returned as it is, and only such a list. *)
Lemma dict_fromkeys_id {A} `{EqDecision A} (l : list A) :
  Py.dict_fromkeys l = l ↔ NoDup l.
Proof.
  split.
  - intros <-. apply NoDup_dict_fromkeys.
  - intros Hnd. apply fromkeys_go_NoDup_id; [done|]. set_solver.
Qed.

(** An item is kept where it stands first: what follows a prefix is
    filtered by what the prefix holds. *)
Lemma fromkeys_go_ext {A} `{EqDecision A} (seen seen' l : list A) :
  (∀ x, x ∈ seen ↔ x ∈ seen') → Py.fromkeys_go seen l = Py.fromkeys_go seen' l.
Proof.
  revert seen seen'. induction l as [|y l IH]; intros seen seen' Heq; simpl; [done|].
  destruct (decide (y ∈ seen)) as [Hy|Hy], (decide (y ∈ seen')) as [Hy'|Hy'];
    try (exfalso; set_solver).
  - by apply IH.
  - f_equal. apply IH. set_solver.
Qed.

Lemma fromkeys_go_app {A} `{EqDecision A} (seen l1 l2 : list A) :
  Py.fromkeys_go seen (l1 ++ l2)
  = Py.fromkeys_go seen l1 ++ Py.fromkeys_go (l1 ++ seen) l2.
Proof.
  revert seen. induction l1 as [|y l1 IH]; intros seen; simpl; [done|].
  destruct (decide (y ∈ seen)) as [Hy|Hy].
  - rewrite IH. f_equal. apply fromkeys_go_ext. set_solver.
  - simpl. rewrite IH. do 2 f_equal. apply fromkeys_go_ext. set_solver.
Qed.

Lemma dict_fromkeys_app {A} `{EqDecision A} (l1 l2 : list A) :
  Py.dict_fromkeys (l1 ++ l2)
  = Py.dict_fromkeys l1 ++ List.filter (λ x, bool_decide (x ∉ l1)) (Py.dict_fromkeys l2).
Proof.
  assert (∀ seen seen', (∀ x, x ∈ seen' ↔ x ∈ l1 ∨ x ∈ seen) →
           Py.fromkeys_go seen' l2
           = List.filter (λ x, bool_decide (x ∉ l1)) (Py.fromkeys_go seen l2)) as Hgen.
  { induction l2 as [|y l2 IH]; intros seen seen' Hs; simpl; [done|].
    destruct (decide (y ∈ seen')) as [Hy|Hy], (decide (y ∈ seen)) as [Hy'|Hy'].
    - by apply IH.
    - simpl. rewrite bool_decide_eq_false_2 by (apply Hs in Hy; naive_solver).
      apply IH. intros x. rewrite elem_of_cons, Hs.
      destruct (decide (x = y)) as [->|]; [apply Hs in Hy|]; naive_solver.
    - exfalso. apply Hy, Hs. by right.
    - simpl. rewrite bool_decide_eq_true_2 by (intros ?; apply Hy, Hs; by left).
      f_equal. apply IH. intros x. rewrite !elem_of_cons, Hs. naive_solver. }
  unfold Py.dict_fromkeys. rewrite fromkeys_go_app, app_nil_r. f_equal.
  apply Hgen. intros x. rewrite elem_of_nil. naive_solver.
Qed.

(** ** [settings.py] *)

(** C8. With [reset] false the four options are set to YES, YES, NO and
    2000; with [reset] true to NO, YES, NO and 100; and the default preset
    followed by the reset preset leaves the four at the reset values.
    This holds whatever the options were before. *)
Theorem gdal_configurations_presets (cfg : gmap string string) :
  gdal_options (gdal_configurations false cfg)
    = [Some "YES"; Some "YES"; Some "NO"; Some "2000"]
  ∧ gdal_options (gdal_configurations true cfg)
    = [Some "NO"; Some "YES"; Some "NO"; Some "100"]
  ∧ gdal_options (gdal_configurations true (gdal_configurations false cfg))
    = [Some "NO"; Some "YES"; Some "NO"; Some "100"].
Proof.
  unfold gdal_options, gdal_configurations, SetConfigOption; simpl.
  repeat split; repeat f_equal; by simplify_map_eq.
Qed.

(** No option other than the four is touched. *)
Lemma gdal_configurations_frame (reset : bool) (cfg : gmap string string) (key : string) :
  key ∉ ["OGR_INTERLEAVED_READING"; "USE_CUSTOM_INDEXING"; "COMPRESS_NODES"; "MAX_TMPFILE_SIZE"] →
  gdal_configurations reset cfg !! key = cfg !! key.
Proof.
  intros Hk. unfold gdal_configurations, SetConfigOption.
  destruct reset; simpl; rewrite !lookup_insert_ne; try done;
    intros <-; apply Hk; set_solver.
Qed.

(** ** Running the monad *)

Lemma run_bind {A B} (m : M A) (f : A → M B) (s : state) :
  (m ≫= f) s = match m s with
               | (Ret a, s') => f a s'
               | (Raise e, s') => (Raise e, s')
               | (Diverge, s') => (Diverge, s')
               end.
Proof. reflexivity. Qed.

Lemma run_bind_ret {A B} (m : M A) (f : A → M B) (s s' : state) (a : A) :
  m s = (Ret a, s') → (m ≫= f) s = f a s'.
Proof. intros H. by rewrite run_bind, H. Qed.

Lemma run_bind_raise {A B} (m : M A) (f : A → M B) (s s' : state) (e : exn) :
  m s = (Raise e, s') → (m ≫= f) s = (Raise e, s').
Proof. intros H. by rewrite run_bind, H. Qed.

Lemma run_try_ret {A} (m : M A) ks (h : exn → M A) (s s' : state) (a : A) :
  m s = (Ret a, s') → try_except m ks h s = (Ret a, s').
Proof. intros H. unfold try_except. by rewrite H. Qed.

Lemma run_try_raise {A} (m : M A) ks (h : exn → M A) (s s' : state) (e : exn) :
  m s = (Raise e, s') →
  try_except m ks h s = if handled_by ks e then h e s' else (Raise e, s').
Proof. intros H. unfold try_except. by rewrite H. Qed.

(** ** The page parsers *)

Lemma is_file_url_suffix (pre suffix : string) :
  suffix ∈ [".osm.pbf"; ".shp.zip"; ".osm.bz2"] → is_file_url (pre +:+ suffix) = true.
Proof.
  intros Hin. unfold is_file_url.
  pose proof (endswith_append pre suffix) as He.
  repeat (apply elem_of_cons in Hin as [-> | Hin]; [rewrite He; by rewrite ?orb_true_r|]).
  by apply elem_of_nil in Hin.
Qed.

Lemma printed_log_Print (line : string) (s : state) :
  printed (log (Print line) s) = printed s ++ [line].
Proof. unfold printed, log; simpl. by rewrite omap_app. Qed.

Lemma network_requests_log_Print (line : string) (s : state) :
  network_requests (log (Print line) s) = network_requests s.
Proof.
  unfold network_requests, log; simpl.
  rewrite List.filter_app; simpl. by rewrite app_nil_r.
Qed.

(** C4. For a URL ending in one of the three file suffixes, both parsers
    print the diagnostic and return no result, and the only thing they do
    is print: no network request is added to those made before. *)
Theorem file_url_rejected_without_request (W : env) (pre suffix : string) (s : state) :
  suffix ∈ [".osm.pbf"; ".shp.zip"; ".osm.bz2"] →
  get_raw_directory_table W (pre +:+ suffix) s = (Ret None, log (Print invalid_input_url) s)
  ∧ get_subregion_table W (pre +:+ suffix) s = (Ret None, log (Print invalid_input_url) s)
  ∧ network_requests (log (Print invalid_input_url) s) = network_requests s
  ∧ printed (log (Print invalid_input_url) s) = printed s ++ [invalid_input_url].
Proof.
  intros Hin. apply (is_file_url_suffix pre) in Hin.
  unfold get_raw_directory_table, get_subregion_table. rewrite Hin.
  repeat split; auto using network_requests_log_Print, printed_log_Print.
Qed.

Lemma file_url_rejected_witness :
  get_raw_directory_table Site.W0 "http://download.geofabrik.de/europe/malta-latest.osm.pbf"
      Site.empty_disk
    = (Ret None, log (Print invalid_input_url) Site.empty_disk)
  ∧ get_subregion_table Site.W0 "http://download.geofabrik.de/europe/malta-latest.osm.pbf"
      Site.empty_disk
    = (Ret None, log (Print invalid_input_url) Site.empty_disk)
  ∧ network_requests (log (Print invalid_input_url) Site.empty_disk) = []
  ∧ printed (log (Print invalid_input_url) Site.empty_disk) = [invalid_input_url].
Proof.
  apply (file_url_rejected_without_request Site.W0
           "http://download.geofabrik.de/europe/malta-latest" ".osm.pbf" Site.empty_disk).
  set_solver.
Defined.

Lemma get_set_format (ft ft' : file_type) (c : cell) (r : trow) :
  get_format ft (set_format ft' c r) = if decide (ft = ft') then c else get_format ft r.
Proof. by destruct ft, ft', r. Qed.
(** Writing URLs into the non-missing cells of one column leaves every
    column with as many non-missing cells as before. *)
Lemma count_notnull_fill (ft ft' : file_type) (t : list trow) (urls : list string) :
  count_notnull ft (fill_notnull ft' t urls) = count_notnull ft t.
Proof.
  unfold count_notnull. revert urls.
  induction t as [|r t IH]; intros urls; simpl; [done|].
  destruct (get_format ft' r) as [x|] eqn:Hr; [destruct urls as [|u urls]|]; simpl;
    rewrite ?get_set_format.
  - destruct (bool_decide _); simpl; by rewrite IH.
  - destruct (decide (ft = ft')) as [->|]; rewrite ?Hr; simpl; [by rewrite IH|].
    destruct (bool_decide _); simpl; by rewrite IH.
  - destruct (bool_decide _); simpl; by rewrite IH.
Qed.

Lemma count_notnull_clean_size (ft : file_type) (t : list trow) :
  count_notnull ft (map clean_size t) = count_notnull ft t.
Proof.
  unfold count_notnull. induction t as [|r t IH]; simpl; [done|].
  replace (get_format ft (clean_size r)) with (get_format ft r) by (by destruct ft, r).
  destruct (bool_decide _); simpl; by rewrite IH.
Qed.

Lemma printed_log (e : event) (s : state) :
  printed (log e s) = printed s ++ printed_of e.
Proof. unfold printed, log; simpl. rewrite omap_app. by destruct e. Qed.

(** When the list is as long as the selection, the non-missing cells of
    the column are, in order, the URLs of the list; the missing cells stay
    missing and the names are untouched. *)
Lemma fill_notnull_positional (ft : file_type) (t : list trow) (urls : list string) :
  length urls = count_notnull ft t →
  omap (get_format ft) (fill_notnull ft t urls) = urls
  ∧ map t_Subregion (fill_notnull ft t urls) = map t_Subregion t
  ∧ map (λ r, bool_decide (is_Some (get_format ft r))) (fill_notnull ft t urls)
    = map (λ r, bool_decide (is_Some (get_format ft r))) t.
Proof.
  unfold count_notnull. revert urls.
  induction t as [|r t IH]; intros urls Hlen; cbn [fill_notnull List.filter].
  - by destruct urls.
  - cbn [List.filter] in Hlen.
    destruct (get_format ft r) as [x|] eqn:Hr; cbn in Hlen.
    + destruct urls as [|u urls]; [done|]. injection Hlen as Hlen.
      destruct (IH urls Hlen) as (Hcells & Hnames & Hmask).
      cbn [omap list_omap map]. rewrite get_set_format.
      destruct (decide (ft = ft)); [|done]. cbn.
      rewrite Hr. cbn. split; [by f_equal|]. split; [|by f_equal].
      f_equal; [by destruct ft, r|done].
    + destruct (IH urls Hlen) as (Hcells & Hnames & Hmask).
      cbn [omap list_omap map]. rewrite Hr. cbn. split; [done|]. split; by f_equal.
Qed.

(** The masked assignment changes one column only, and only cells that
    are not missing: names, sizes and the other columns are untouched,
    and every column keeps its missing cells.  When the list is as long
    as the selection, the non-missing cells of the column are the list. *)
Lemma fill_notnull_other (ft ft' : file_type) (t : list trow) (urls : list string) :
  ft ≠ ft' → map (get_format ft) (fill_notnull ft' t urls) = map (get_format ft) t.
Proof.
  intros Hne. revert urls. induction t as [|r t IH]; intros urls; cbn [fill_notnull map]; [done|].
  destruct (get_format ft' r), urls; cbn [map]; rewrite ?get_set_format, ?IH;
    try done. by rewrite decide_False.
Qed.

Lemma fill_notnull_size (ft : file_type) (t : list trow) (urls : list string) :
  map t_pbf_Size (fill_notnull ft t urls) = map t_pbf_Size t.
Proof.
  revert urls. induction t as [|r t IH]; intros urls; cbn [fill_notnull map]; [done|].
  destruct (get_format ft r), urls; cbn [map]; rewrite ?IH; try done.
  by destruct ft, r.
Qed.

Lemma fill_notnull_names (ft : file_type) (t : list trow) (urls : list string) :
  map t_Subregion (fill_notnull ft t urls) = map t_Subregion t.
Proof.
  revert urls. induction t as [|r t IH]; intros urls; cbn [fill_notnull map]; [done|].
  destruct (get_format ft r), urls; cbn [map]; rewrite ?IH; try done.
  by destruct ft, r.
Qed.

Lemma fill_notnull_mask (ft ft' : file_type) (t : list trow) (urls : list string) :
  map (λ r, bool_decide (is_Some (get_format ft r))) (fill_notnull ft' t urls)
  = map (λ r, bool_decide (is_Some (get_format ft r))) t.
Proof.
  revert urls. induction t as [|r t IH]; intros urls; cbn [fill_notnull map]; [done|].
  destruct (get_format ft' r) as [x|] eqn:Hr; [destruct urls as [|u urls]|];
    cbn [map]; rewrite ?IH; try done.
  f_equal. rewrite get_set_format. destruct (decide (ft = ft')) as [->|]; [|done].
  rewrite Hr. by rewrite !bool_decide_eq_true_2.
Qed.

Lemma fill_all_spec (ft : file_type) (t : list trow) (u : string) :
  map t_Subregion (fill_all ft t u) = map t_Subregion t
  ∧ map t_pbf_Size (fill_all ft t u) = map t_pbf_Size t
  ∧ (∀ ft', ft' ≠ ft → map (get_format ft') (fill_all ft t u) = map (get_format ft') t)
  ∧ ∀ ft', map (λ r, bool_decide (is_Some (get_format ft' r))) (fill_all ft t u)
           = map (λ r, bool_decide (is_Some (get_format ft' r))) t.
Proof.
  unfold fill_all. induction t as [|r t (IH1 & IH2 & IH3 & IH4)]; [done|].
  cbn [map]. rewrite IH1, IH2.
  destruct (bool_decide (is_Some (get_format ft r))) eqn:Hr.
  - repeat split.
    + f_equal. by destruct ft, r.
    + f_equal. by destruct ft, r.
    + intros ft' Hne. rewrite (IH3 ft' Hne), get_set_format. by rewrite decide_False.
    + intros ft'. rewrite IH4, get_set_format. destruct (decide (ft' = ft)) as [->|]; [|done].
      rewrite Hr. by rewrite bool_decide_eq_true_2.
  - repeat split; [intros ft' Hne; by rewrite (IH3 ft' Hne)|intros ft'; by rewrite IH4].
Qed.

Lemma count_notnull_mask (ft : file_type) (t t' : list trow) :
  map (λ r, bool_decide (is_Some (get_format ft r))) t'
  = map (λ r, bool_decide (is_Some (get_format ft r))) t →
  count_notnull ft t' = count_notnull ft t.
Proof.
  unfold count_notnull. revert t. induction t' as [|r' t' IH]; intros [|r t]; cbn [map]; try done.
  intros [= Hr Ht]. cbn [List.filter]. rewrite Hr. specialize (IH t Ht).
  case (bool_decide (is_Some (get_format ft r))); cbn [length]; by rewrite IH.
Qed.

Lemma run_loc_notnull_assign (W : env) (ft : file_type) (t : list trow) (urls : list string)
    (s : state) (t' : list trow) (s' : state) :
  loc_notnull_assign W ft t urls s = (Ret t', s') →
  s' = s
  ∧ map t_Subregion t' = map t_Subregion t
  ∧ map t_pbf_Size t' = map t_pbf_Size t
  ∧ (∀ ft', ft' ≠ ft → map (get_format ft') t' = map (get_format ft') t)
  ∧ (∀ ft', map (λ r, bool_decide (is_Some (get_format ft' r))) t'
            = map (λ r, bool_decide (is_Some (get_format ft' r))) t)
  ∧ (length urls = count_notnull ft t → omap (get_format ft) t' = urls).
Proof.
  unfold loc_notnull_assign. destruct (decide _) as [Hlen|Hne].
  - intros [= <- <-]. split; [done|]. split; [apply fill_notnull_names|].
    split; [apply fill_notnull_size|]. split; [intros ft' ?; by apply fill_notnull_other|].
    split; [intros ft'; apply fill_notnull_mask|].
    intros _. by destruct (fill_notnull_positional ft t urls Hlen) as [? _].
  - destruct (loc_setitem_mismatch W _ _ _); [done| |].
    + intros [= <- <-]. by repeat split.
    + destruct urls as [|u [|??]]; [done| |done]. intros [= <- <-].
      destruct (fill_all_spec ft t u) as (? & ? & ? & ?). by repeat split.
Qed.

(** It returns or raises [ValueError], with the state as it was. *)
Lemma loc_notnull_assign_cases (W : env) (ft : file_type) (t : list trow) (urls : list string)
    (s : state) :
  (∃ t', loc_notnull_assign W ft t urls s = (Ret t', s))
  ∨ ∃ msg, loc_notnull_assign W ft t urls s = (Raise (Exn ValueError msg), s).
Proof.
  unfold loc_notnull_assign. destruct (decide _); [left; by eexists|].
  destruct (loc_setitem_mismatch W _ _ _); [right; by eexists|left; by eexists|].
  destruct urls as [|u [|??]]; [right|left|right]; by eexists.
Qed.

Lemma loc_notnull_assign_rejected (W : env) (ft : file_type) (t : list trow)
    (urls : list string) (s : state) :
  length urls ≠ count_notnull ft t →
  loc_setitem_mismatch W (count_notnull ft t) (length urls) (length t) = SetitemRaises →
  ∃ msg, loc_notnull_assign W ft t urls s = (Raise (Exn ValueError msg), s).
Proof.
  intros Hne Hrej. unfold loc_notnull_assign. rewrite decide_False by done. rewrite Hrej.
  by eexists.
Qed.

(** The loop over the three formats raises [ValueError] when, for one of
    the formats still to come, the anchors found are not as many as the
    non-missing cells of its column and pandas rejects the assignment. *)
Lemma assign_formats_mismatch (W : env) (url : string) (sp : soup) (fts : list file_type)
    (ft : file_type) (t : list trow) (s : state) :
  ft ∈ fts →
  length (find_all_a_href sp ("[" +:+ ext ft +:+ "]")) ≠ count_notnull ft t →
  loc_setitem_mismatch W (count_notnull ft t)
    (length (find_all_a_href sp ("[" +:+ ext ft +:+ "]"))) (length t) = SetitemRaises →
  ∃ msg, foldM (λ t file_type,
                  loc_notnull_assign W file_type t
                    (map (urljoin W url) (find_all_a_href sp ("[" +:+ ext file_type +:+ "]"))))
               t fts s
         = (Raise (Exn ValueError msg), s).
Proof.
  revert t. induction fts as [|ft0 fts IH]; intros t Hin Hne Hrej.
  { by apply elem_of_nil in Hin. }
  cbn [foldM]. rewrite run_bind.
  destruct (loc_notnull_assign_cases W ft0 t
              (map (urljoin W url) (find_all_a_href sp ("[" +:+ ext ft0 +:+ "]"))) s)
    as [[t1 Hrun]|[msg Hrun]]; rewrite Hrun; [|by eexists].
  apply elem_of_cons in Hin as [->|Hin].
  - destruct (loc_notnull_assign_rejected W ft0 t
                (map (urljoin W url) (find_all_a_href sp ("[" +:+ ext ft0 +:+ "]"))) s)
      as [msg Hmsg]; [by rewrite length_map|by rewrite length_map|].
    by rewrite Hmsg in Hrun.
  - apply run_loc_notnull_assign in Hrun as (_ & Hnames & _ & _ & Hmask & _).
    assert (length t1 = length t) as Hlen
      by (by rewrite <- (length_map t_Subregion t1), Hnames, length_map).
    apply IH; [done|..]; by rewrite (count_notnull_mask ft t t1 (Hmask ft)), ?Hlen.
Qed.

Lemma parse_mismatch_raises (W : env) (url : string) (s : state)
    (raw : raw_table) (t : list trow) (sp : soup) (ft : file_type) :
  read_html_subregions W url = inr raw →
  canonical_columns raw = Some t →
  requests_get W url = inr sp →
  length (find_all_a_href sp ("[" +:+ ext ft +:+ "]")) ≠ count_notnull ft t →
  loc_setitem_mismatch W (count_notnull ft t)
    (length (find_all_a_href sp ("[" +:+ ext ft +:+ "]"))) (length t) = SetitemRaises →
  ∃ msg, parse_subregion_page W url s
         = (Raise (Exn ValueError msg), log (HttpGet url) (log (ReadHtml url) s)).
Proof.
  intros Hraw Hcols Hsoup Hne Hrej.
  destruct (assign_formats_mismatch W url sp file_types ft (map clean_size t)
              (log (HttpGet url) (log (ReadHtml url) s))) as [msg Hmsg].
  { destruct ft; set_solver. }
  { by rewrite count_notnull_clean_size. }
  { by rewrite count_notnull_clean_size, length_map. }
  exists msg. unfold parse_subregion_page.
  rewrite run_bind; cbn [emit]. rewrite run_bind, Hraw; cbn [call mret M_ret].
  rewrite run_bind. unfold with_canonical_columns. rewrite Hcols; cbn [mret M_ret].
  rewrite run_bind; cbn [emit]. rewrite run_bind, Hsoup; cbn [call mret M_ret].
  rewrite run_bind. unfold assign_format_urls. by rewrite Hmsg.
Qed.



(** C10 as stated fails: not every list of the wrong length is rejected.
    On the page below the column of the shapefiles has no cell to fill
    and the page has one link of that format; a pandas that leaves an
    empty selection alone raises nothing, and the page is parsed like any
    other: the table is returned and no Checked out line is printed. *)
Lemma count_mismatch_accepted :
  read_html_subregions Cases.W_lenient Cases.malta_url = inr Cases.islands_table
  ∧ requests_get Cases.W_lenient Cases.malta_url = inr Cases.islands_soup
  ∧ length (find_all_a_href Cases.islands_soup ("[" +:+ ext ShpZip +:+ "]")) = 1%nat
  ∧ (∀ t, canonical_columns Cases.islands_table = Some t → count_notnull ShpZip t = 0%nat)
  ∧ get_subregion_table Cases.W_lenient Cases.malta_url Site.empty_disk
    = (Ret (Some Cases.islands),
       log (HttpGet Cases.malta_url) (log (ReadHtml Cases.malta_url) Site.empty_disk)).
Proof.
  split; [reflexivity|]. split; [reflexivity|]. split; [reflexivity|].
  split; [by intros t [= <-]|]. by vm_compute.
Qed.

(** ** Removing a downloaded file *)

Lemma has_osm_suffix_spec (path : string) :
  has_osm_suffix path = true
  ↔ ∃ suffix, suffix ∈ [".osm.pbf"; ".shp.zip"; ".osm.bz2"] ∧ Py.ends_with path suffix.
Proof.
  unfold has_osm_suffix. rewrite existsb_exists. split.
  - intros (x & Hin & Hx). exists x. split; [by apply list_elem_of_In|by apply endswith_spec].
  - intros (x & Hin & Hx). exists x. split; [by apply list_elem_of_In|by apply endswith_spec].
Qed.

Lemma run_isfile (path : string) (s : state) :
  os_path_isfile path s = (Ret (bool_decide (is_Some (files s !! path))), s).
Proof. reflexivity. Qed.

(** C6. A path that ends in none of the three suffixes makes the
    function raise [AssertionError] with the disk and the console as they
    were.  For a path with one of the suffixes: when no file is there, the
    notice is printed that the file, named by the last component of the
    path, does not exist at the directory, the rest of the path, and
    nothing is raised; when the file is there it is deleted and the
    confirmation printed, naming the file, and if the deletion fails the
    message of the error is printed, the file stays and nothing is
    raised. *)
Theorem remove_subregion_osm_file_cases (W : env) (path : string) (s : state) :
  ((¬ ∃ suffix, suffix ∈ [".osm.pbf"; ".shp.zip"; ".osm.bz2"] ∧ Py.ends_with path suffix) →
     remove_subregion_osm_file W path s
     = (Raise (Exn AssertionError "'subregion_file_path' is not valid."), s))
  ∧ ((∃ suffix, suffix ∈ [".osm.pbf"; ".shp.zip"; ".osm.bz2"] ∧ Py.ends_with path suffix) →
     (files s !! path = None →
        remove_subregion_osm_file W path s
        = (Ret tt,
           log (Print (Py.dq +:+ (Py.os_path_split path).2 +:+ Py.dq +:+ " does not exist at "
                         +:+ Py.dq +:+ (Py.os_path_split path).1 +:+ Py.dq +:+ "." +:+ Py.nl))
               s))
     ∧ (is_Some (files s !! path) → remove_error W path = None →
        remove_subregion_osm_file W path s
        = (Ret tt,
           log (Print (Py.dq +:+ (Py.os_path_split path).2 +:+ Py.dq
                         +:+ " has been removed from local disk." +:+ Py.nl))
               (set_files (delete path) s)))
     ∧ (is_Some (files s !! path) → ∀ k msg, remove_error W path = Some (Exn k msg) →
        remove_subregion_osm_file W path s = (Ret tt, log (Print msg) s))).
Proof.
  rewrite <- has_osm_suffix_spec. unfold remove_subregion_osm_file. split.
  - intros H. apply not_true_is_false in H. by rewrite H.
  - intros ->. cbn [negb]. rewrite run_bind, run_isfile.
    split; [|split].
    + intros ->. rewrite bool_decide_eq_false_2 by (by intros [??]).
      unfold does_not_exist. by destruct (Py.os_path_split path).
    + intros Hf Hr. rewrite bool_decide_eq_true_2 by done.
      unfold try_except, os_remove. rewrite run_bind, Hr. done.
    + intros Hf k msg Hr. rewrite bool_decide_eq_true_2 by done.
      unfold try_except, os_remove. rewrite run_bind, Hr. by destruct k.
Qed.

Lemma remove_subregion_osm_file_witness :
  remove_subregion_osm_file Site.W0 "/data/notes.txt" Site.disk_with_malta
  = (Raise (Exn AssertionError "'subregion_file_path' is not valid."), Site.disk_with_malta)
  ∧ remove_subregion_osm_file Site.W0 Site.malta_pbf Site.empty_disk
    = (Ret tt,
       log (Print (Py.dq +:+ "malta-latest.osm.pbf" +:+ Py.dq +:+ " does not exist at "
                     +:+ Py.dq +:+ "/data/Geofabrik/Europe" +:+ Py.dq +:+ "." +:+ Py.nl))
           Site.empty_disk)
  ∧ remove_subregion_osm_file Site.W0 Site.malta_pbf Site.disk_with_malta
    = (Ret tt,
       log (Print (Py.dq +:+ "malta-latest.osm.pbf" +:+ Py.dq
                     +:+ " has been removed from local disk." +:+ Py.nl))
           (set_files (delete Site.malta_pbf) Site.disk_with_malta)).
Proof.
  split; [|split].
  - apply (remove_subregion_osm_file_cases Site.W0 "/data/notes.txt" Site.disk_with_malta).
    rewrite <- has_osm_suffix_spec. by vm_compute.
  - apply (remove_subregion_osm_file_cases Site.W0 Site.malta_pbf Site.empty_disk).
    + rewrite <- has_osm_suffix_spec. by vm_compute.
    + reflexivity.
  - apply (remove_subregion_osm_file_cases Site.W0 Site.malta_pbf Site.disk_with_malta).
    + rewrite <- has_osm_suffix_spec. by vm_compute.
    + vm_compute. by eexists.
    + reflexivity.
Defined.

Ltac mstep := rewrite run_bind; cbn [mret M_ret].

(** ** The cache layer *)

Lemma run_load_pickle (path : string) (s : state) (v : value) :
  files s !! path = Some v → pickled v →
  load_pickle path s = (Ret v, s).
Proof.
  intros Hv Hp. unfold load_pickle. rewrite run_bind. cbn [get_state].
  rewrite Hv. by destruct v.
Qed.

(** A catalogue whose pickle is on disk is loaded from it: nothing is
    collected, printed or written. *)
Lemma fetch_catalogue_present (W : env) (available : list string) (collect : M unit)
    (name : string) (s : state) (v : value) :
  name ∈ available →
  files s !! pickle_of W name = Some v → pickled v →
  fetch_catalogue W available collect name ".pickle" false s = (Ret (Some v), s).
Proof.
  unfold pickle_of. intros Hin Hv Hp. unfold fetch_catalogue.
  rewrite (bool_decide_eq_true_2 (name ∈ available)) by done.
  rewrite (bool_decide_eq_true_2 (".pickle" ∈ _)) by set_solver.
  rewrite (bool_decide_eq_true_2 (".pickle" = _)) by done.
  do 3 mstep. rewrite run_isfile.
  rewrite bool_decide_eq_true_2 by (by rewrite Hv).
  cbn [negb orb]. mstep.
  erewrite run_try_ret; [done|].
  rewrite run_bind. by rewrite (run_load_pickle _ _ _ Hv Hp).
Qed.

(** What a fetch returns, when it returns a value, is what the pickle
    holds afterwards. *)
Lemma fetch_catalogue_Some (W : env) (available : list string) (collect : M unit)
    (name : string) (update : bool) (s s' : state) (v : value) :
  fetch_catalogue W available collect name ".pickle" update s = (Ret (Some v), s') →
  files s' !! pickle_of W name = Some v ∧ pickled v.
Proof.
  unfold fetch_catalogue, pickle_of.
  destruct (bool_decide (name ∈ available)); [|done].
  rewrite (bool_decide_eq_true_2 (".pickle" ∈ _)) by set_solver.
  rewrite (bool_decide_eq_true_2 (".pickle" = _)) by done.
  do 3 mstep. rewrite run_isfile. rewrite run_bind.
  set (c := if _ : bool then collect else mret ()).
  destruct (c s) as [[[]| |] s1]; [|done..].
  unfold try_except. rewrite run_bind.
  unfold load_pickle. rewrite run_bind. cbn [get_state].
  destruct (files s1 !! cd_dat W (name +:+ ".pickle")) as [v'|] eqn:Hv; cbn.
  - destruct v'; cbn; intros [= <- <-]; done.
  - intros [=].
Qed.

(** ** Subregion name retrieval without arguments *)

(** C2 as amended.  With the pickle of the non-subregion list on disk,
    a call without arguments returns that list with repeated names
    dropped: every name of the list once, in the order of first
    occurrence; it is the list itself exactly when no name is repeated in
    it.  Nothing is printed or written. *)
Theorem retrieve_without_arguments (W : env) (s : state) (names : list string) :
  files s !! pickle_of W "GeoFabrik-non-subregion-list" = Some (VNames names) →
  retrieve_subregion_names_from W [] s = (Ret (Py.dict_fromkeys names), s)
  ∧ NoDup (Py.dict_fromkeys names)
  ∧ (∀ x, x ∈ Py.dict_fromkeys names ↔ x ∈ names)
  ∧ sublist (Py.dict_fromkeys names) names
  ∧ (Py.dict_fromkeys names = names ↔ NoDup names).
Proof.
  intros Hv. split; [|by auto using NoDup_dict_fromkeys, elem_of_dict_fromkeys,
                        dict_fromkeys_sublist, dict_fromkeys_id].
  unfold retrieve_subregion_names_from. cbn [retrieve]. rewrite run_bind.
  unfold fetch_region_subregion_tier.
  rewrite (fetch_catalogue_present W _ _ "GeoFabrik-non-subregion-list" s (VNames names));
    [|set_solver|done|done].
  by mstep.
Qed.

Lemma retrieve_without_arguments_witness :
  retrieve_subregion_names_from Site.W0 [] Site.disk_listed_twice
    = (Ret ["Central Federal District"; "Crimean Federal District"], Site.disk_listed_twice)
  ∧ NoDup (Py.dict_fromkeys Site.listed_twice)
  ∧ (∀ x, x ∈ Py.dict_fromkeys Site.listed_twice ↔ x ∈ Site.listed_twice)
  ∧ sublist (Py.dict_fromkeys Site.listed_twice) Site.listed_twice
  ∧ (Py.dict_fromkeys Site.listed_twice = Site.listed_twice ↔ NoDup Site.listed_twice).
Proof.
  apply (retrieve_without_arguments Site.W0 Site.disk_listed_twice Site.listed_twice).
  reflexivity.
Defined.

(** C2 as stated fails: the persisted list below holds a name twice, and
    the call returns it once. *)
Lemma retrieve_without_arguments_drops_repeats :
  files Site.disk_listed_twice !! pickle_of Site.W0 "GeoFabrik-non-subregion-list"
    = Some (VNames ["Central Federal District"; "Crimean Federal District";
                    "Central Federal District"])
  ∧ retrieve_subregion_names_from Site.W0 [] Site.disk_listed_twice
    = (Ret ["Central Federal District"; "Crimean Federal District"], Site.disk_listed_twice).
Proof. split; reflexivity. Qed.

(** ** Name resolution *)

Lemma max_by_score_le (best : string * nat) (l : list (string * nat)) :
  (∀ x, x ∈ l → x.2 ≤ best.2) → max_by_score best l = best.
Proof.
  revert best. induction l as [|x l IH]; intros best Hle; simpl; [done|].
  assert (x.2 ≤ best.2) as Hx by (apply Hle; set_solver).
  destruct (Nat.ltb_spec best.2 x.2); [lia|].
  apply IH. intros y Hy. apply Hle. set_solver.
Qed.

Lemma max_by_score_app (best : string * nat) (l1 l2 : list (string * nat)) :
  max_by_score best (l1 ++ l2) = max_by_score (max_by_score best l1) l2.
Proof. revert best. induction l1 as [|x l1 IH]; intros best; simpl; [done|apply IH]. Qed.

(** The pair returned is the candidate kept so far or one of the list,
    and none scores higher. *)
Lemma max_by_score_max (best : string * nat) (l : list (string * nat)) :
  max_by_score best l ∈ best :: l
  ∧ ∀ x, x ∈ best :: l → x.2 ≤ (max_by_score best l).2.
Proof.
  revert best. induction l as [|x l IH]; intros best; simpl.
  - split; [set_solver|]. intros y Hy. apply list_elem_of_singleton in Hy as ->. lia.
  - destruct (IH (if (best.2 <? x.2)%nat then x else best)) as [Hin Hmax].
    split.
    + destruct (best.2 <? x.2)%nat; set_solver.
    + intros y Hy.
      assert (best.2 ≤ (max_by_score (if (best.2 <? x.2)%nat then x else best) l).2
              ∧ x.2 ≤ (max_by_score (if (best.2 <? x.2)%nat then x else best) l).2) as [??].
      { destruct (Nat.ltb_spec best.2 x.2) as [Hlt|Hge].
        - pose proof (Hmax x ltac:(set_solver)). lia.
        - pose proof (Hmax best ltac:(set_solver)). lia. }
      apply elem_of_cons in Hy as [->|Hy]; [done|].
      apply elem_of_cons in Hy as [->|Hy]; [done|].
      apply Hmax. set_solver.
Qed.

Lemma elem_of_extractWithoutOrder (W : env) (query : string) (choices : list string)
    (cutoff : nat) (r : string * nat) :
  r ∈ extractWithoutOrder W query choices cutoff
  ↔ r.1 ∈ choices ∧ r.2 = WRatio W query r.1 ∧ cutoff ≤ r.2.
Proof.
  unfold extractWithoutOrder. rewrite list_elem_of_omap. split.
  - intros (c & Hc & Hr). destruct (Nat.leb_spec cutoff (WRatio W query c)); [|done].
    injection Hr as <-. done.
  - intros (Hc & Hs & Hcut). exists r.1. split; [done|].
    rewrite <- Hs. destruct (Nat.leb_spec cutoff r.2); [|lia]. by destruct r.
Qed.

(** What [extractOne] returns is a choice, with its score, that reaches
    the cutoff and that no choice beats. *)
Lemma extractOne_Some (W : env) (query : string) (choices : list string) (cutoff : nat)
    (name : string) (score : nat) :
  extractOne W query choices cutoff = Some (name, score) →
  name ∈ choices ∧ score = WRatio W query name ∧ cutoff ≤ score
  ∧ ∀ c, c ∈ choices → WRatio W query c ≤ score.
Proof.
  unfold extractOne.
  destruct (extractWithoutOrder W query choices cutoff) as [|x l] eqn:He; [done|].
  intros [= Hr]. destruct (max_by_score_max x l) as [Hin Hmax]. rewrite Hr in Hin, Hmax.
  rewrite <- He in Hin, Hmax.
  apply elem_of_extractWithoutOrder in Hin as (Hc & Hs & Hcut). simpl in *.
  repeat split; try done.
  intros c Hc'. destruct (Nat.le_gt_cases cutoff (WRatio W query c)) as [Hle|Hgt]; [|lia].
  apply (Hmax (c, WRatio W query c)). apply elem_of_extractWithoutOrder. done.
Qed.

(** It returns a choice as soon as one reaches the cutoff. *)
Lemma extractOne_is_Some (W : env) (query : string) (choices : list string) (cutoff : nat)
    (c : string) :
  c ∈ choices → cutoff ≤ WRatio W query c →
  is_Some (extractOne W query choices cutoff).
Proof.
  intros Hc Hcut. unfold extractOne.
  destruct (extractWithoutOrder W query choices cutoff) as [|x l] eqn:He; [|done].
  assert ((c, WRatio W query c) ∈ extractWithoutOrder W query choices cutoff) as Hin
    by (by apply elem_of_extractWithoutOrder).
  rewrite He in Hin. by apply elem_of_nil in Hin.
Qed.

(** Of several choices with the highest score the first is returned. *)
Lemma extractOne_first (W : env) (query : string) (before after : list string)
    (name : string) (cutoff : nat) :
  cutoff ≤ WRatio W query name →
  (∀ c, c ∈ before → WRatio W query c < WRatio W query name) →
  (∀ c, c ∈ after → WRatio W query c ≤ WRatio W query name) →
  extractOne W query (before ++ name :: after) cutoff = Some (name, WRatio W query name).
Proof.
  intros Hcut Hbefore Hafter. unfold extractOne, extractWithoutOrder.
  rewrite omap_app. cbn [omap list_omap].
  destruct (Nat.leb_spec cutoff (WRatio W query name)) as [_|]; [|lia].
  fold (extractWithoutOrder W query before cutoff).
  fold (extractWithoutOrder W query after cutoff).
  assert (∀ x, x ∈ extractWithoutOrder W query before cutoff → x.2 < WRatio W query name) as Hb.
  { intros x (Hx & -> & _)%elem_of_extractWithoutOrder. by apply Hbefore. }
  assert (∀ x, x ∈ extractWithoutOrder W query after cutoff → x.2 ≤ WRatio W query name) as Ha.
  { intros x (Hx & -> & _)%elem_of_extractWithoutOrder. by apply Hafter. }
  destruct (extractWithoutOrder W query before cutoff) as [|x l]; simpl.
  - f_equal. by apply max_by_score_le.
  - f_equal. rewrite max_by_score_app. simpl.
    destruct (max_by_score_max x l) as [Hin _].
    pose proof (Hb _ Hin) as Hlt.
    destruct (Nat.ltb_spec (max_by_score x l).2 (WRatio W query name)); [|lia].
    by apply max_by_score_le.
Qed.

Lemma run_regulate (W : env) (s : state) (names : list string) (query : string) :
  files s !! pickle_of W "GeoFabrik-subregion-name-list" = Some (VNames names) →
  regulate_input_subregion_name W query s
  = match extractOne W query names 50 with
    | None => (Raise (Exn TypeError "cannot unpack non-iterable NoneType object"), s)
    | Some (name, _) => (Ret name, s)
    end.
Proof.
  intros Hv. unfold regulate_input_subregion_name, fetch_subregion_info_catalogue.
  rewrite run_bind.
  rewrite (fetch_catalogue_present W _ _ "GeoFabrik-subregion-name-list" s (VNames names));
    [|set_solver|done|done].
  cbn [choices_of]. mstep.
  by destruct (extractOne W query names 50) as [[??]|].
Qed.

(** C7 as amended.  With the name list on disk: a name of the list is
    returned unchanged when its score against itself is at least 50, is
    higher than the score of every name listed before it, and is not
    beaten by a name listed after it; and any input that some name
    matches with a score of at least 50 is resolved, without an error, to
    a name of the list that no other name beats. *)
Theorem regulate_input_subregion_name_best_match (W : env) (s : state) (names : list string) :
  files s !! pickle_of W "GeoFabrik-subregion-name-list" = Some (VNames names) →
  (∀ before name after,
     names = before ++ name :: after →
     50 ≤ WRatio W name name →
     (∀ c, c ∈ before → WRatio W name c < WRatio W name name) →
     (∀ c, c ∈ after → WRatio W name c ≤ WRatio W name name) →
     regulate_input_subregion_name W name s = (Ret name, s))
  ∧ (∀ query c,
       c ∈ names → 50 ≤ WRatio W query c →
       ∃ name, regulate_input_subregion_name W query s = (Ret name, s)
               ∧ name ∈ names
               ∧ 50 ≤ WRatio W query name
               ∧ ∀ c', c' ∈ names → WRatio W query c' ≤ WRatio W query name).
Proof.
  intros Hv. split.
  - intros before name after -> Hself Hbefore Hafter.
    rewrite (run_regulate _ _ _ _ Hv).
    by rewrite (extractOne_first W name before after name 50).
  - intros query c Hc Hcut. rewrite (run_regulate _ _ _ _ Hv).
    destruct (extractOne_is_Some W query names 50 c Hc Hcut) as [[name score] Hr].
    rewrite Hr. exists name.
    apply extractOne_Some in Hr as (Hin & -> & Hge & Hmax). done.
Qed.

Lemma regulate_input_subregion_name_witness :
  regulate_input_subregion_name Site.W0 "Greater London" Site.disk_with_names
    = (Ret "Greater London", Site.disk_with_names)
  ∧ ∃ name, regulate_input_subregion_name Site.W0 "greater LONDON" Site.disk_with_names
            = (Ret name, Site.disk_with_names)
            ∧ name ∈ Site.names
            ∧ 50 ≤ WRatio Site.W0 "greater LONDON" name
            ∧ ∀ c', c' ∈ Site.names → WRatio Site.W0 "greater LONDON" c' ≤ WRatio Site.W0 "greater LONDON" name.
Proof.
  destruct (regulate_input_subregion_name_best_match Site.W0 Site.disk_with_names Site.names
              eq_refl) as [Hcanonical Hvariant].
  split.
  - apply (Hcanonical ["Europe"; "Great Britain"; "Malta"; "England"] "Greater London"
             ["Scotland"; "Kent"]).
    + reflexivity.
    + vm_compute. lia.
    + intros c Hc. repeat (apply elem_of_cons in Hc as [->|Hc]; [vm_compute; lia|]).
      by apply elem_of_nil in Hc.
    + intros c Hc. repeat (apply elem_of_cons in Hc as [->|Hc]; [vm_compute; lia|]).
      by apply elem_of_nil in Hc.
  - apply (Hvariant "greater LONDON" "Greater London").
    + set_solver.
    + vm_compute. lia.
Defined.

(** C7 as stated fails.  The second name of the list below differs from
    the first by case only; for every scorer that ignores case, as the
    scorer of the library does, resolving the second name does not return
    it: the first name scores the same and comes first. *)
Lemma regulate_input_subregion_name_not_idempotent :
  ∃ names name,
    name ∈ names
    ∧ ∀ W s,
        (∀ q c, WRatio W q c = WRatio W (Py.lower q) (Py.lower c)) →
        files s !! pickle_of W "GeoFabrik-subregion-name-list" = Some (VNames names) →
        regulate_input_subregion_name W name s ≠ (Ret name, s).
Proof.
  exists ["guinea-bissau"; "Guinea-Bissau"], "Guinea-Bissau". split; [set_solver|].
  intros W s Hcase Hv. rewrite (run_regulate _ _ _ _ Hv).
  unfold extractOne, extractWithoutOrder. cbn [omap list_omap].
  rewrite (Hcase "Guinea-Bissau" "guinea-bissau"), (Hcase "Guinea-Bissau" "Guinea-Bissau").
  change (Py.lower "Guinea-Bissau") with "guinea-bissau".
  change (Py.lower "guinea-bissau") with "guinea-bissau".
  destruct (50 <=? WRatio W "guinea-bissau" "guinea-bissau")%nat; [|done].
  cbn [max_by_score snd]. rewrite Nat.ltb_irrefl. intros [=].
Qed.

(** ** The default path of a download *)

(** A name that was resolved comes from the name list on disk. *)
Lemma regulate_Ret (W : env) (query : string) (s s1 : state) (name : string) :
  regulate_input_subregion_name W query s = (Ret name, s1) →
  ∃ names, files s1 !! pickle_of W "GeoFabrik-subregion-name-list" = Some (VNames names)
           ∧ name ∈ names ∧ 50 ≤ WRatio W query name.
Proof.
  unfold regulate_input_subregion_name, fetch_subregion_info_catalogue. rewrite run_bind.
  destruct (fetch_catalogue W _ _ "GeoFabrik-subregion-name-list" ".pickle" false s)
    as [[cat| |] s'] eqn:Hfetch; [|done..].
  destruct cat as [v|].
  - apply fetch_catalogue_Some in Hfetch as [Hv _].
    destruct v; cbn [choices_of]; try (by rewrite run_bind).
    mstep. destruct (extractOne W query names 50) as [[n sc]|] eqn:He; [|done].
    intros [= -> ->]. apply extractOne_Some in He as (Hin & -> & Hcut & _).
    by exists names.
  - cbn [choices_of]. mstep. done.
Qed.

Lemma get_subregion_download_url_Ret (W : env) (subregion_name osm_file_format : string)
    (update : bool) (s s1 : state) (name : string) (download_url : loc_result) :
  get_subregion_download_url W subregion_name osm_file_format update s
    = (Ret (name, download_url), s1) →
  ∃ names, files s1 !! pickle_of W "GeoFabrik-subregion-name-list" = Some (VNames names)
           ∧ name ∈ names.
Proof.
  unfold get_subregion_download_url.
  destruct (parse_format osm_file_format) as [ft|]; [|done].
  rewrite run_bind.
  destruct (fetch_subregion_info_catalogue W _ _ update s) as [[[[]|]| |] s'];
    try done.
  rewrite run_bind.
  destruct (regulate_input_subregion_name W subregion_name s') as [[n| |] s''] eqn:Hreg;
    [|done..].
  apply regulate_Ret in Hreg as (names & Hv & Hin & _).
  rewrite run_bind. unfold loc.
  destruct (List.filter _ t) as [|r [|r' rs]]; [done|..];
    cbn [mret M_ret]; intros [= <- <- <-]; by exists names.
Qed.

(** Without a cutoff every query finds a match in a list that is not
    empty. *)
Lemma extractOne_no_cutoff (W : env) (query : string) (choices : list string) :
  choices ≠ [] →
  ∃ name score, extractOne W query choices 0 = Some (name, score) ∧ name ∈ choices.
Proof.
  intros Hne. destruct choices as [|c choices]; [done|].
  destruct (extractOne_is_Some W query (c :: choices) 0 c) as [[name score] Hr];
    [set_solver|lia|].
  exists name, score. split; [done|]. by apply extractOne_Some in Hr as [? _].
Qed.

Lemma match_segments (W : env) (names segments_in : list string) (s : state) :
  names ≠ [] →
  ∃ segments,
    mapM (λ x, match extractOne W x names 0 with
               | None => raise TypeError "'NoneType' object is not subscriptable"
               | Some best => mret best.1
               end) segments_in s = (Ret segments, s)
    ∧ Forall2 (λ x seg, ∃ score, extractOne W x names 0 = Some (seg, score)) segments_in segments
    ∧ Forall (λ seg, seg ∈ names) segments.
Proof.
  intros Hne. induction segments_in as [|x xs (segs & Hrun & Hall & Hin)].
  - exists []. by repeat constructor.
  - destruct (extractOne_no_cutoff W x names Hne) as (name & score & He & Hname).
    exists (name :: segs). cbn [mapM]. rewrite run_bind, He. cbn [mret M_ret fst].
    rewrite run_bind, Hrun. repeat split; [|by constructor].
    constructor; [by exists score|done].
Qed.

(** C9.  Whenever the download URL of the subregion resolves (to a
    string), the default path is computed without an error: each segment
    of the URL path but the last is matched, with no cutoff, to a name of
    the name list, whatever it scores, and the directory is made of these
    names. *)
Theorem default_path_segments_always_match (W : env) (subregion_name osm_file_format : string)
    (mkdir update : bool) (s s1 : state) (name url : string) :
  get_subregion_download_url W subregion_name osm_file_format update s
    = (Ret (name, Scalar (Some url)), s1) →
  ∃ names segments s2,
    files s1 !! pickle_of W "GeoFabrik-subregion-name-list" = Some (VNames names)
    ∧ get_default_path_to_osm_file W subregion_name osm_file_format mkdir update s
      = (Ret (Py.last_item (Py.split "/" (Py.lstrip "/" (urlparse_path W url))),
              Py.os_path_join (cd_dat_geofabrik W segments)
                (Py.last_item (Py.split "/" (Py.lstrip "/" (urlparse_path W url))))),
         s2)
    ∧ Forall2 (λ x seg, ∃ score, extractOne W x names 0 = Some (seg, score))
              (Py.but_last (Py.split "/" (Py.lstrip "/" (urlparse_path W url)))) segments
    ∧ Forall (λ seg, seg ∈ names) segments
    ∧ files s2 = files s1.
Proof.
  intros Hurl.
  destruct (get_subregion_download_url_Ret _ _ _ _ _ _ _ _ Hurl) as (names & Hv & Hin).
  assert (names ≠ []) as Hne by (intros ->; by apply elem_of_nil in Hin).
  destruct (match_segments W names
              (Py.but_last (Py.split "/" (Py.lstrip "/" (urlparse_path W url)))) s1 Hne)
    as (segments & Hrun & Hall & Hnames).
  exists names, segments.
  unfold get_default_path_to_osm_file. rewrite run_bind, Hurl. cbn [snd as_str]. mstep.
  unfold fetch_subregion_info_catalogue. rewrite run_bind.
  rewrite (fetch_catalogue_present W _ _ "GeoFabrik-subregion-name-list" s1 (VNames names));
    [|set_solver|done|done].
  cbn [choices_of]. mstep. rewrite run_bind, Hrun.
  rewrite run_bind.
  destruct (os_path_exists (cd_dat_geofabrik W segments) s1) as [o s'] eqn:Hex.
  injection Hex as <- <-.
  destruct (negb _ && mkdir); rewrite run_bind; cbn [os_makedirs modify mret M_ret];
    eexists; (split; [done|]); (split; [reflexivity|]); done.
Qed.


Lemma default_path_witness :
  ∃ names segments s2,
    files Site.disk_with_catalogue !! pickle_of Site.W0 "GeoFabrik-subregion-name-list"
      = Some (VNames names)
    ∧ get_default_path_to_osm_file Site.W0 "greater london" ".osm.pbf" true false
        Site.disk_with_catalogue
      = (Ret (Py.last_item (Py.split "/" (Py.lstrip "/" (urlparse_path Site.W0 Site.greater_london_pbf))),
              Py.os_path_join (cd_dat_geofabrik Site.W0 segments)
                (Py.last_item (Py.split "/" (Py.lstrip "/" (urlparse_path Site.W0 Site.greater_london_pbf))))),
         s2)
    ∧ Forall2 (λ x seg, ∃ score, extractOne Site.W0 x names 0 = Some (seg, score))
              (Py.but_last (Py.split "/" (Py.lstrip "/" (urlparse_path Site.W0 Site.greater_london_pbf))))
              segments
    ∧ Forall (λ seg, seg ∈ names) segments
    ∧ files s2 = files Site.disk_with_catalogue.
Proof.
  apply (default_path_segments_always_match Site.W0 "greater london" ".osm.pbf" true false
           Site.disk_with_catalogue Site.disk_with_catalogue "Greater London"
           Site.greater_london_pbf).
  reflexivity.
Defined.

(** On the small site the scorer gives 0 to the segment great-britain
    against every name, and the segment still gets a directory, the first
    name of the list, while resolving it as a subregion name, with the
    cutoff of 50, fails. *)
Example default_path_of_greater_london :
  (get_default_path_to_osm_file Site.W0 "greater london" ".osm.pbf" true false
     Site.disk_with_catalogue).1
  = Ret ("greater-london-latest.osm.pbf",
         "/data/Geofabrik/Europe/Europe/England/greater-london-latest.osm.pbf")
  ∧ Forall (λ c, WRatio Site.W0 "great-britain" c = 0) Site.names
  ∧ (regulate_input_subregion_name Site.W0 "great-britain" Site.disk_with_catalogue).1
    = Raise (Exn TypeError "cannot unpack non-iterable NoneType object").
Proof. split; [reflexivity|]. split; [repeat constructor|reflexivity]. Qed.

(** ** What a computation may write and request *)

Lemma frame_refl (writable : string → Prop) (s : state) : frame writable s s.
Proof. split; [done|]. exists []. by rewrite app_nil_r. Qed.

Lemma frame_trans (writable : string → Prop) (s1 s2 s3 : state) :
  frame writable s1 s2 → frame writable s2 s3 → frame writable s1 s3.
Proof.
  intros [Hf1 (evs1 & Ht1 & He1)] [Hf2 (evs2 & Ht2 & He2)]. split.
  - intros p Hp. by rewrite Hf2, Hf1.
  - exists (evs1 ++ evs2). rewrite Ht2, Ht1, app_assoc. split; [done|].
    by apply Forall_app.
Qed.

Lemma frame_mono (writable writable' : string → Prop) (s s' : state) :
  (∀ p, writable p → writable' p) → frame writable s s' → frame writable' s s'.
Proof. intros Hsub [Hf He]. split; [|done]. intros p Hp. apply Hf. naive_solver. Qed.

(** Nothing writable: the files are the same. *)
Lemma frame_nothing_files (s s' : state) : frame (λ _, False) s s' → files s' = files s.
Proof. intros [Hf _]. apply map_eq. intros p. apply Hf. tauto. Qed.

Lemma frame_no_download (writable : string → Prop) (s s' : state) :
  frame writable s s' →
  List.filter is_download (trace s') = List.filter is_download (trace s).
Proof.
  intros [_ (evs & -> & He)]. rewrite List.filter_app.
  replace (List.filter is_download evs) with (@nil event); [by rewrite app_nil_r|].
  induction He as [|e evs He _ IH]; [done|]. simpl. by rewrite He.
Qed.

Section Respects.

Context (writable : string → Prop).

Lemma respects_ret {A} (a : A) : respects writable (mret a).
Proof. intros s. apply frame_refl. Qed.

Lemma respects_raise {A} (k : exn_class) (msg : string) : respects writable (@raise A k msg).
Proof. intros s. apply frame_refl. Qed.

Lemma respects_reraise {A} (e : exn) : respects writable (@reraise A e).
Proof. intros s. apply frame_refl. Qed.

Lemma respects_diverge {A} : respects writable (@diverge A).
Proof. intros s. apply frame_refl. Qed.

Lemma respects_get_state : respects writable get_state.
Proof. intros s. apply frame_refl. Qed.

Lemma respects_call {A} (r : exn + A) : respects writable (call r).
Proof. intros s. destruct r; apply frame_refl. Qed.

Lemma respects_emit (e : event) : is_download e = false → respects writable (emit e).
Proof. intros He s. split; [done|]. exists [e]. split; [done|]. by constructor. Qed.

Lemma respects_print (line : string) : respects writable (print line).
Proof. by apply respects_emit. Qed.

Lemma respects_set_dirs (f : gset string → gset string) :
  respects writable (modify (set_dirs f)).
Proof. intros s. split; [done|]. exists []. by rewrite app_nil_r. Qed.

Lemma respects_bind {A B} (m : M A) (f : A → M B) :
  respects writable m → (∀ a, respects writable (f a)) → respects writable (m ≫= f).
Proof.
  intros Hm Hf s. rewrite run_bind. specialize (Hm s).
  destruct (m s) as [[a|e|] s']; [|done..].
  eapply frame_trans; [exact Hm|apply Hf].
Qed.

Lemma respects_try {A} (m : M A) (ks : list exn_class) (h : exn → M A) :
  respects writable m → (∀ e, respects writable (h e)) → respects writable (try_except m ks h).
Proof.
  intros Hm Hh s. unfold try_except. specialize (Hm s).
  destruct (m s) as [[a|e|] s']; [done| |done].
  destruct (handled_by ks e); [|done].
  eapply frame_trans; [exact Hm|apply Hh].
Qed.

Lemma respects_mapM {A B} (f : A → M B) (l : list A) :
  (∀ a, respects writable (f a)) → respects writable (mapM f l).
Proof.
  intros Hf. induction l as [|x l IH]; cbn [mapM]; [apply respects_ret|].
  apply respects_bind; [done|]. intros y.
  apply respects_bind; [done|]. intros ys. apply respects_ret.
Qed.

Lemma respects_foldM {A B} (f : B → A → M B) (b : B) (l : list A) :
  (∀ b a, respects writable (f b a)) → respects writable (foldM f b l).
Proof.
  intros Hf. revert b. induction l as [|x l IH]; intros b; cbn [foldM];
    [apply respects_ret|].
  apply respects_bind; [done|]. intros b'. apply IH.
Qed.

End Respects.

Create HintDb frame.

#[export] Hint Resolve respects_ret respects_raise respects_reraise respects_diverge
  respects_get_state respects_call respects_print respects_set_dirs : frame.
#[export] Hint Extern 1 (respects _ (emit _)) => apply respects_emit; reflexivity : frame.

(** One step through the structure of a computation. *)
Ltac frame_step :=
  lazymatch goal with
  | |- respects _ (mbind _ _) => apply respects_bind; [|intros ?]
  | |- respects _ (try_except _ _ _) => apply respects_try; [|intros ?]
  | |- respects _ (mapM _ _) => apply respects_mapM; intros ?
  | |- respects _ (foldM _ _ _) => apply respects_foldM; intros ? ?
  | |- respects _ (match ?x with _ => _ end) => destruct x
  | |- respects _ _ => solve [auto with frame]
  end.
Ltac frame_auto := repeat frame_step.

Section RespectsModel.

Context (W : env) (writable : string → Prop).

Lemma respects_get_subregion_table (url : string) :
  respects writable (get_subregion_table W url).
Proof.
  unfold get_subregion_table, parse_subregion_page, with_canonical_columns,
    assign_format_urls, loc_notnull_assign, subregion_page_urls, subscript_href,
    assign_SubregionURL.
  frame_auto.
Qed.

Lemma respects_crawl (rounds : nat) (tables : list table) (acc : crawl_acc) :
  respects writable (crawl W rounds tables acc).
Proof.
  revert tables acc. induction rounds as [|rounds IH]; intros tables acc;
    destruct tables as [|t tables]; cbn [crawl]; auto with frame.
  apply respects_bind; [|intros st; apply IH].
  apply respects_foldM. intros [next [[names urls] tbls]] tbl. unfold crawl_table.
  apply respects_bind; [|intros ?; auto with frame].
  apply respects_mapM. intros url. apply respects_get_subregion_table.
Qed.

Lemma respects_crawl_site : respects writable (crawl_site W).
Proof.
  unfold crawl_site, td_a_text, subscript_href.
  pose proof respects_get_subregion_table. pose proof respects_crawl.
  frame_auto.
Qed.

End RespectsModel.

(** ** The collector *)

Lemma confirmed_files (W : env) (prompt : string) (required : bool) (s s0 : state)
    (o : outcome bool) :
  confirmed W prompt required s = (o, s0) → files s0 = files s.
Proof.
  unfold confirmed. destruct required.
  - rewrite run_bind. cbn [emit mret M_ret]. by intros [= <- <-].
  - cbn [mret M_ret]. by intros [= <- <-].
Qed.

(** C3 as amended.  In a run that goes ahead, every error raised by the
    crawl or by the construction and saving of the catalogues is caught
    and reported by the diagnostic; and when the error is raised during
    the crawl, that is before the first catalogue is saved, no file
    differs from what it was before the run. *)
Theorem collect_failure_reported (W : env) (confirmation_required : bool) (s s0 : state) :
  confirmed W collect_prompt confirmation_required s = (Ret true, s0) →
  (∀ e s1, crawl_and_save W s0 = (Raise e, s1) →
     collect_subregion_info_catalogue W confirmation_required s
     = (Ret tt, log (Print (failed_to_get e)) s1))
  ∧ (∀ e s1, crawl_site W s0 = (Raise e, s1) →
       collect_subregion_info_catalogue W confirmation_required s
       = (Ret tt, log (Print (failed_to_get e)) s1)
       ∧ files (log (Print (failed_to_get e)) s1) = files s).
Proof.
  intros Hconfirmed.
  assert (∀ e s1, crawl_and_save W s0 = (Raise e, s1) →
            collect_subregion_info_catalogue W confirmation_required s
            = (Ret tt, log (Print (failed_to_get e)) s1)) as Hreported.
  { intros e s1 Hrun. unfold collect_subregion_info_catalogue.
    rewrite run_bind, Hconfirmed. by rewrite (run_try_raise _ _ _ _ _ _ Hrun). }
  split; [done|]. intros e s1 Hcrawl. split.
  - apply Hreported. unfold crawl_and_save. by rewrite run_bind, Hcrawl.
  - cbn [log files].
    pose proof (respects_crawl_site W (λ _, False) s0) as Hframe.
    rewrite Hcrawl in Hframe. apply frame_nothing_files in Hframe. cbn [snd] in Hframe.
    rewrite Hframe. unfold confirmed in Hconfirmed.
    by apply confirmed_files in Hconfirmed as ->.
Qed.

Lemma collect_failure_witness :
  (∀ e s1, crawl_and_save Site.W_offline Site.empty_disk = (Raise e, s1) →
     collect_subregion_info_catalogue Site.W_offline false Site.empty_disk
     = (Ret tt, log (Print (failed_to_get e)) s1))
  ∧ (∀ e s1, crawl_site Site.W_offline Site.empty_disk = (Raise e, s1) →
       collect_subregion_info_catalogue Site.W_offline false Site.empty_disk
       = (Ret tt, log (Print (failed_to_get e)) s1)
       ∧ files (log (Print (failed_to_get e)) s1) = files Site.empty_disk).
Proof.
  apply (collect_failure_reported Site.W_offline false Site.empty_disk Site.empty_disk).
  reflexivity.
Defined.

(** On the site that cannot be reached the crawl does raise, so the
    second part of the theorem applies there. *)
Example collect_offline :
  crawl_site Site.W_offline Site.empty_disk
    = (Raise Site.unreachable, log (HttpGet home_url) Site.empty_disk)
  ∧ collect_subregion_info_catalogue Site.W_offline false Site.empty_disk
    = (Ret tt, log (Print (failed_to_get Site.unreachable))
                 (log (HttpGet home_url) Site.empty_disk)).
Proof. split; reflexivity. Qed.

(** C3 as stated fails.  On a site whose home page lists a continent but
    whose pages offer no subregion table, the crawl ends, the name list
    and the name-to-URL dictionary are saved, and only then does the
    construction of the downloads catalogue raise: the diagnostic is
    printed, and three files that were not on disk before the run are
    there after it. *)
Lemma collect_failure_after_saving :
  ∃ e s1,
    crawl_and_save Site.W_no_tables Site.empty_disk = (Raise e, s1)
    ∧ collect_subregion_info_catalogue Site.W_no_tables false Site.empty_disk
      = (Ret tt, log (Print (failed_to_get e)) s1)
    ∧ files Site.empty_disk !! "/data/GeoFabrik-subregion-name-list.pickle" = None
    ∧ files (log (Print (failed_to_get e)) s1) !! "/data/GeoFabrik-subregion-name-list.pickle"
      = Some (VNames ["Europe"])
    ∧ files (log (Print (failed_to_get e)) s1) !! "/data/GeoFabrik-subregion-name-url-dictionary.pickle"
      = Some (VUrlIndex {[ "Europe" := "http://download.geofabrik.de/europe.html" ]})
    ∧ files (log (Print (failed_to_get e)) s1) !! "/data/GeoFabrik-subregion-name-url-dictionary.json"
      = Some (VJson (VUrlIndex {[ "Europe" := "http://download.geofabrik.de/europe.html" ]}))
    ∧ files (log (Print (failed_to_get e)) s1) !! "/data/GeoFabrik-subregion-downloads-catalogue.pickle"
      = None.
Proof.
  eexists (Exn ValueError "All objects passed were None"), _.
  split; [vm_compute; reflexivity|]. repeat split.
Qed.

(** ** Downloading *)

Section RespectsFetch.

Context (W : env).

Lemma respects_save_pickle (writable : string → Prop) (data : value) (path : string) :
  writable path → respects writable (save_pickle W data path).
Proof.
  intros Hw s. unfold save_pickle. destruct (write_error W path); [apply frame_refl|].
  split; [|exists []; by rewrite app_nil_r].
  intros p Hp. cbn. rewrite lookup_insert_ne; [done|]. by intros ->.
Qed.

Lemma respects_save_json (writable : string → Prop) (data : value) (path : string) :
  writable path → respects writable (save_json W data path).
Proof.
  intros Hw s. unfold save_json. destruct (write_error W path); [apply frame_refl|].
  split; [|exists []; by rewrite app_nil_r].
  intros p Hp. cbn. rewrite lookup_insert_ne; [done|]. by intros ->.
Qed.

(** The collector writes its five files and nothing else, and requests no
    download. *)
Lemma respects_collect (confirmation_required : bool) :
  respects (λ p, p ∈ catalogue_files W)
           (collect_subregion_info_catalogue W confirmation_required).
Proof.
  unfold collect_subregion_info_catalogue, confirmed, crawl_and_save, save_catalogues,
    pd_concat, to_json_by_Subregion.
  pose proof (respects_crawl_site W (λ p, p ∈ catalogue_files W)).
  pose proof (respects_get_subregion_table W (λ p, p ∈ catalogue_files W)).
  assert (∀ v name, name ∈ ["GeoFabrik-subregion-name-list.pickle";
                            "GeoFabrik-subregion-name-url-dictionary.pickle";
                            "GeoFabrik-subregion-downloads-catalogue.pickle"] →
            respects (λ p, p ∈ catalogue_files W) (save_pickle W v (cd_dat W name))) as Hp.
  { intros v name Hn. apply respects_save_pickle. unfold catalogue_files. set_solver. }
  assert (∀ v name, name ∈ ["GeoFabrik-subregion-name-url-dictionary.json";
                            "GeoFabrik-subregion-downloads-catalogue.json"] →
            respects (λ p, p ∈ catalogue_files W) (save_json W v (cd_dat W name))) as Hj.
  { intros v name Hn. apply respects_save_json. unfold catalogue_files. set_solver. }
  repeat first [ apply Hp; set_solver | apply Hj; set_solver | frame_step ].
Qed.

Lemma respects_fetch (name file_format : string) (update : bool) :
  respects (λ p, p ∈ catalogue_files W)
           (fetch_subregion_info_catalogue W name file_format update).
Proof.
  unfold fetch_subregion_info_catalogue, fetch_catalogue, os_path_isfile, load_pickle, load_json.
  pose proof respects_collect. frame_auto.
Qed.

Lemma respects_regulate (subregion_name : string) :
  respects (λ p, p ∈ catalogue_files W) (regulate_input_subregion_name W subregion_name).
Proof.
  unfold regulate_input_subregion_name, choices_of.
  pose proof respects_fetch. frame_auto.
Qed.

Lemma respects_get_subregion_download_url (subregion_name osm_file_format : string)
    (update : bool) :
  respects (λ p, p ∈ catalogue_files W)
           (get_subregion_download_url W subregion_name osm_file_format update).
Proof.
  unfold get_subregion_download_url, loc.
  pose proof respects_fetch. pose proof respects_regulate. frame_auto.
Qed.

Lemma respects_resolve_target (sub_reg_name osm_file_format : string)
    (download_dir : option string) :
  respects (λ p, p ∈ catalogue_files W)
           (resolve_target W sub_reg_name osm_file_format download_dir).
Proof.
  unfold resolve_target, get_default_path_to_osm_file, get_default_osm_filename,
    regulate_input_data_dir, as_str, choices_of, os_path_exists, os_makedirs.
  pose proof respects_fetch. pose proof respects_get_subregion_download_url.
  frame_auto.
Qed.

End RespectsFetch.

(** The name that [resolve_target] returns is the one the lookup of the
    download URL resolves, and the URL is the one it finds. *)
Lemma resolve_target_name (W : env) (sub_reg_name osm_file_format : string)
    (download_dir : option string) (s s1 : state)
    (subregion_name_ : string) (download_url : loc_result) (osm_filename path_to_file : string) :
  resolve_target W sub_reg_name osm_file_format download_dir s
    = (Ret (subregion_name_, download_url, osm_filename, path_to_file), s1) →
  ∃ s0, get_subregion_download_url W sub_reg_name osm_file_format false s
        = (Ret (subregion_name_, download_url), s0).
Proof.
  unfold resolve_target. rewrite run_bind.
  destruct (get_subregion_download_url W sub_reg_name osm_file_format false s)
    as [[[n u]|e|] s0]; [|done..].
  intros H. exists s0. revert H. destruct download_dir as [[|c d]|].
  - rewrite run_bind. destruct (get_default_path_to_osm_file W n _ _ _ s0) as [[p|e|] s2];
      [|done..]. cbn [mret M_ret]. by intros [= -> -> _ _ _].
  - rewrite run_bind. destruct (regulate_input_data_dir W _ s0) as [[r|e|] s2]; [|done..].
    rewrite run_bind. destruct (get_default_osm_filename W n _ _ s2) as [[f|e|] s3]; [|done..].
    cbn [mret M_ret]. by intros [= -> -> _ _ _].
  - rewrite run_bind. destruct (get_default_path_to_osm_file W n _ _ _ s0) as [[p|e|] s2];
      [|done..]. cbn [mret M_ret]. by intros [= -> -> _ _ _].
Qed.

(** C5.  When the target file of a requested subregion is on disk once
    its name, URL and path are resolved, and [update] is false, nothing
    more happens than the notice being printed if [verbose] is true: the
    line says that the file, by its name, is already available for the
    subregion, by the name it was resolved to, at the path of the target.
    The files are those found at that moment.  Over the whole request no
    download is requested, and no file other than the five catalogue files
    (which resolving may collect anew) differs from what it was before. *)
Theorem existing_file_is_not_downloaded (W : env) (osm_file_format : string)
    (download_dir : option string) (confirmation_required verbose : bool)
    (sub_reg_name : string) (s s1 : state)
    (subregion_name_ : string) (download_url : loc_result) (osm_filename path_to_file : string) :
  resolve_target W sub_reg_name osm_file_format download_dir s
    = (Ret (subregion_name_, download_url, osm_filename, path_to_file), s1) →
  is_Some (files s1 !! path_to_file) →
  ∃ s0 s2,
    get_subregion_download_url W sub_reg_name osm_file_format false s
      = (Ret (subregion_name_, download_url), s0)
    ∧ download_one W osm_file_format download_dir false confirmation_required verbose
                   sub_reg_name s = (Ret tt, s2)
    ∧ download_subregion_osm_file W [sub_reg_name] osm_file_format download_dir false
        confirmation_required verbose s = (Ret tt, s2)
    ∧ s2 = (if verbose
            then log (Print (Py.nl +:+ Py.dq +:+ osm_filename +:+ Py.dq
                               +:+ " is already available for "
                               +:+ Py.dq +:+ subregion_name_ +:+ Py.dq +:+ " at: " +:+ Py.nl
                               +:+ Py.dq +:+ path_to_file +:+ Py.dq +:+ "." +:+ Py.nl)) s1
            else s1)
    ∧ files s2 = files s1
    ∧ List.filter is_download (trace s2) = List.filter is_download (trace s)
    ∧ (path_to_file ∉ catalogue_files W → files s2 !! path_to_file = files s !! path_to_file).
Proof.
  intros Hresolve Hfile.
  destruct (resolve_target_name _ _ _ _ _ _ _ _ _ _ Hresolve) as [s0 Hname].
  exists s0.
  pose proof (respects_resolve_target W sub_reg_name osm_file_format download_dir s) as Hframe.
  rewrite Hresolve in Hframe. cbn [snd] in Hframe.
  unfold download_one. rewrite run_bind, Hresolve.
  rewrite run_bind, run_isfile. rewrite bool_decide_eq_true_2 by done. cbn [negb andb].
  unfold download_subregion_osm_file. cbn [foldM]. rewrite run_bind.
  unfold download_one. rewrite run_bind, Hresolve.
  rewrite run_bind, run_isfile. rewrite bool_decide_eq_true_2 by done. cbn [negb andb].
  destruct verbose; eexists; (split; [exact Hname|]); (split; [reflexivity|]);
    (split; [reflexivity|]); (split; [reflexivity|]).
  - split; [done|]. split.
    + rewrite <- (frame_no_download _ _ _ Hframe). unfold log; cbn [trace].
      rewrite List.filter_app. cbn. by rewrite app_nil_r.
    + intros Hp. cbn [log files]. by apply Hframe.
  - split; [done|]. split.
    + by rewrite <- (frame_no_download _ _ _ Hframe).
    + intros Hp. by apply Hframe.
Qed.

Lemma existing_file_witness :
  ∃ s0 s2,
    get_subregion_download_url Site.W0 "malta" ".osm.pbf" false Site.disk_with_download
      = (Ret ("Malta", Scalar (Some "http://download.geofabrik.de/europe/malta-latest.osm.pbf")),
         s0)
    ∧ download_one Site.W0 ".osm.pbf" None false true true "malta" Site.disk_with_download
      = (Ret tt, s2)
    ∧ download_subregion_osm_file Site.W0 ["malta"] ".osm.pbf" None false true true
        Site.disk_with_download = (Ret tt, s2)
    ∧ s2 = log (Print (Py.nl +:+ Py.dq +:+ "malta-latest.osm.pbf" +:+ Py.dq
                         +:+ " is already available for "
                         +:+ Py.dq +:+ "Malta" +:+ Py.dq +:+ " at: " +:+ Py.nl
                         +:+ Py.dq +:+ "/data/Geofabrik/Europe/malta-latest.osm.pbf" +:+ Py.dq
                         +:+ "." +:+ Py.nl))
               (resolve_target Site.W0 "malta" ".osm.pbf" None Site.disk_with_download).2
    ∧ files s2 = files (resolve_target Site.W0 "malta" ".osm.pbf" None Site.disk_with_download).2
    ∧ List.filter is_download (trace s2) = List.filter is_download (trace Site.disk_with_download)
    ∧ ("/data/Geofabrik/Europe/malta-latest.osm.pbf" ∉ catalogue_files Site.W0 →
       files s2 !! "/data/Geofabrik/Europe/malta-latest.osm.pbf"
       = files Site.disk_with_download !! "/data/Geofabrik/Europe/malta-latest.osm.pbf").
Proof.
  apply (existing_file_is_not_downloaded Site.W0 ".osm.pbf" None true true "malta"
           Site.disk_with_download _ "Malta"
           (Scalar (Some "http://download.geofabrik.de/europe/malta-latest.osm.pbf"))
           "malta-latest.osm.pbf" "/data/Geofabrik/Europe/malta-latest.osm.pbf").
  - vm_compute. reflexivity.
  - vm_compute. by eexists.
Defined.

(** The whole call on the small site: the notice is all that is added
    to the trace, and the file is as it was. *)
Example download_existing_malta :
  let r := download_subregion_osm_file Site.W0 ["malta"] ".osm.pbf" None false true true
             Site.disk_with_download in
  r.1 = Ret tt
  ∧ trace r.2 = [Print (Py.nl +:+ Py.dq +:+ "malta-latest.osm.pbf" +:+ Py.dq
                          +:+ " is already available for "
                          +:+ Py.dq +:+ "Malta" +:+ Py.dq +:+ " at: " +:+ Py.nl
                          +:+ Py.dq +:+ "/data/Geofabrik/Europe/malta-latest.osm.pbf"
                          +:+ Py.dq +:+ "." +:+ Py.nl)]
  ∧ files r.2 = files Site.disk_with_download.
Proof. vm_compute. done. Qed.

(** The loop runs its body on each name in turn. *)
Lemma download_subregion_osm_file_cons (W : env) (name : string) (names : list string)
    (osm_file_format : string) (download_dir : option string)
    (update confirmation_required verbose : bool) (s : state) :
  download_subregion_osm_file W (name :: names) osm_file_format download_dir update
    confirmation_required verbose s
  = (download_one W osm_file_format download_dir update confirmation_required verbose name;;
     download_subregion_osm_file W names osm_file_format download_dir update
       confirmation_required verbose) s.
Proof.
  unfold download_subregion_osm_file. cbn [foldM]. rewrite !run_bind.
  by destruct (download_one W _ _ _ _ _ name s) as [[[]|e|] s1].
Qed.

Lemma download_other_path (W : env) (url path p : string) (s : state) :
  p ≠ path → files (download W url path s).2 !! p = files s !! p.
Proof.
  intros Hp. unfold download. rewrite run_bind. cbn [emit]. rewrite run_bind.
  destruct (remote_file W url) as [e|content]; cbn [call reraise mret M_ret]; [done|].
  rewrite run_bind. unfold modify. cbn [snd set_files set_dirs files log].
  by rewrite lookup_insert_ne.
Qed.

(** With [update] false, one request leaves every file that was on disk,
    the catalogue files apart, as it was. *)
Lemma download_one_keeps_files (W : env) (osm_file_format : string)
    (download_dir : option string) (confirmation_required verbose : bool)
    (sub_reg_name : string) (s : state) (p : string) (v : value) :
  p ∉ catalogue_files W →
  files s !! p = Some v →
  files (download_one W osm_file_format download_dir false confirmation_required verbose
           sub_reg_name s).2 !! p = Some v.
Proof.
  intros Hp Hv.
  pose proof (respects_resolve_target W sub_reg_name osm_file_format download_dir s) as [Hf _].
  specialize (Hf p Hp). unfold download_one. rewrite run_bind.
  destruct (resolve_target W sub_reg_name osm_file_format download_dir s)
    as [[[[[name url] fname] path]|e|] s1]; cbn [snd] in *; [|by rewrite Hf..].
  rewrite run_bind, run_isfile.
  destruct (bool_decide (is_Some (files s1 !! path))) eqn:Hfile; cbn [negb andb].
  { destruct verbose; cbn; by rewrite Hf. }
  apply bool_decide_eq_false in Hfile.
  assert (p ≠ path) as Hne.
  { intros ->. apply Hfile. rewrite Hf, Hv. by eexists. }
  rewrite run_bind. unfold confirmed.
  destruct confirmation_required.
  - rewrite run_bind. cbn [emit mret M_ret].
    destruct (operator W _); [|cbn; by rewrite Hf].
    rewrite run_bind, run_isfile. unfold try_except. rewrite run_bind.
    destruct url as [[u|]|]; cbn [as_str mret M_ret raise handled_by existsb exn_class_of
                                    issubclass orb]; try (cbn; by rewrite Hf).
    rewrite run_bind.
    pose proof (download_other_path W u path p (log (Prompt (Py.nl +:+ "To download " +:+ osm_file_format +:+ " data for " +:+ name)) s1) Hne) as Hd.
    destruct (download W u path _) as [[[]|e|] s2]; cbn [snd log files] in Hd;
      repeat (rewrite run_bind; cbn [print emit]); cbn; by rewrite Hd, Hf.
  - cbn [mret M_ret]. rewrite run_bind, run_isfile. unfold try_except. rewrite run_bind.
    destruct url as [[u|]|]; cbn [as_str mret M_ret raise handled_by existsb exn_class_of
                                    issubclass orb]; try (cbn; by rewrite Hf).
    rewrite run_bind.
    pose proof (download_other_path W u path p s1 Hne) as Hd.
    destruct (download W u path _) as [[[]|e|] s2]; cbn [snd log files] in Hd;
      repeat (rewrite run_bind; cbn [print emit]); cbn; by rewrite Hd, Hf.
Qed.

(** So does the whole call, whatever the names. *)
Lemma download_keeps_files (W : env) (names : list string) (osm_file_format : string)
    (download_dir : option string) (confirmation_required verbose : bool)
    (s : state) (p : string) (v : value) :
  p ∉ catalogue_files W →
  files s !! p = Some v →
  files (download_subregion_osm_file W names osm_file_format download_dir false
           confirmation_required verbose s).2 !! p = Some v.
Proof.
  intros Hp. revert s. induction names as [|name names IH]; intros s Hv; [done|].
  rewrite download_subregion_osm_file_cons, run_bind.
  pose proof (download_one_keeps_files W osm_file_format download_dir confirmation_required
                verbose name s p v Hp Hv) as Hone.
  destruct (download_one W _ _ _ _ _ name s) as [[[]|e|] s1]; cbn [snd] in Hone; [|done..].
  by apply IH.
Qed.

(** ** Subregion name retrieval *)

(** Induction over a tier and the items of its nested dicts. *)
Lemma tier_items_ind (P : tier → Prop) (Q : list (string * tier) → Prop) :
  P Terminal →
  (∀ items, Q items → P (Nested items)) →
  Q [] →
  (∀ k v rest, P v → Q rest → Q ((k, v) :: rest)) →
  ∀ v, P v.
Proof.
  intros HT HN Hnil Hcons.
  fix IH 1. intros [|items]; [exact HT|].
  apply HN. induction items as [|[k v] rest IHrest]; [exact Hnil|].
  apply Hcons; [apply IH|exact IHrest].
Qed.

(** The first list the generator yields is the result of the first entry
    met with the name as key. *)
Lemma find_in_head (name : string) (v : tier) :
  head (find_in name v) = entry_result name (entry_in name v).
Proof.
  induction v as [|items IH| |k v rest IHv IHrest] using tier_items_ind
    with (Q := λ items, head (find_in name (Nested items))
                        = entry_result name (entry_in name (Nested items))).
  - done.
  - exact IH.
  - done.
  - cbn [find_in entry_in] in *.
    destruct (bool_decide (name = k)).
    + by destruct v.
    + destruct (entry_in name v) as [e|].
      * destruct (find_in name v) as [|x l]; [by destruct e|]. rewrite <- IHv. done.
      * destruct (find_in name v) as [|x l]; [|done]. exact IHrest.
Qed.

Lemma find_subregions_head (tier_ : list (string * tier)) (name : string) :
  head (find_subregions name tier_) = entry_result name (tier_entry tier_ name).
Proof. apply find_in_head. Qed.

Section Retrieve.

Context (W : env) (s : state) (canonical non_subregions : list string)
        (tier_ : list (string * tier)).

Hypothesis Hcanonical :
  files s !! pickle_of W "GeoFabrik-subregion-name-list" = Some (VNames canonical).
Hypothesis Hnon :
  files s !! pickle_of W "GeoFabrik-non-subregion-list" = Some (VNames non_subregions).
Hypothesis Htier :
  files s !! pickle_of W "GeoFabrik-region-subregion-tier" = Some (VTier tier_).
Hypothesis Hset : set_iter_ok W.

Local Abbreviation initial := (initial_result W canonical tier_).
Local Abbreviation expands := (expansion W canonical tier_ non_subregions).

Lemma run_first_of (res : list string) (region : string) :
  ∃ o, first_of W (Some (VTier tier_)) res region s = (o, s)
       ∧ match initial region with
         | Some first => o = Ret (res ++ first)
         | None => ∀ r, o ≠ Ret r
         end.
Proof.
  unfold first_of. rewrite run_bind, (run_regulate _ _ _ _ Hcanonical).
  unfold initial_result, resolve_name.
  destruct (extractOne W region canonical 50) as [[name score]|];
    cbn [fmap option_fmap option_map mbind option_bind fst]; [|by eexists].
  rewrite run_bind. cbn [as_tier mret M_ret].
  rewrite <- (find_subregions_head tier_ name).
  destruct (find_subregions name tier_) as [|first rest]; by eexists.
Qed.

Lemma run_first_loop (names acc : list string) :
  ∃ o, foldM (first_of W (Some (VTier tier_))) acc names s = (o, s)
       ∧ ∀ res, o = Ret res
                ↔ ∃ firsts, Forall2 (λ q first, initial q = Some first) names firsts
                            ∧ res = acc ++ concat firsts.
Proof.
  revert acc. induction names as [|q names IH]; intros acc.
  - exists (Ret acc). split; [done|]. intros res. split.
    + intros [= <-]. exists []. split; [constructor|by rewrite app_nil_r].
    + intros (firsts & Hall & ->). apply Forall2_nil_inv_l in Hall as ->.
      by rewrite app_nil_r.
  - cbn [foldM]. rewrite run_bind.
    destruct (run_first_of acc q) as (o & -> & Ho).
    destruct (initial q) as [first|] eqn:Hq.
    + subst o. destruct (IH (acc ++ first)) as (o' & -> & Ho'). exists o'.
      split; [done|]. intros res. rewrite Ho'. split.
      * intros (firsts & Hall & ->). exists (first :: firsts).
        split; [by constructor|]. by rewrite <- app_assoc.
      * intros (firsts & Hall & ->).
        apply Forall2_cons_inv_l in Hall as (first' & firsts' & Hq' & Hall & ->).
        rewrite Hq in Hq'. injection Hq' as <-.
        exists firsts'. split; [done|]. by rewrite <- app_assoc.
    + destruct o as [r| |]; [by destruct (Ho r)| |].
      * eexists. split; [done|]. intros res. split; [done|].
        intros (firsts & Hall & _).
        apply Forall2_cons_inv_l in Hall as (first' & firsts' & Hq' & _).
        by rewrite Hq in Hq'.
      * eexists. split; [done|]. intros res. split; [done|].
        intros (firsts & Hall & _).
        apply Forall2_cons_inv_l in Hall as (first' & firsts' & Hq' & _).
        by rewrite Hq in Hq'.
Qed.

Lemma run_not_in_list (res : list string) :
  not_in_list res (Some (VNames non_subregions)) s
  = (Ret (List.filter (λ x, bool_decide (x ∉ non_subregions)) res), s).
Proof. by destruct res. Qed.

(** The call unfolded once, the catalogues being on disk. *)
Lemma run_retrieve (depth : nat) (q : string) (names : list string) :
  retrieve W (S depth) (q :: names) s
  = (result ← (res ← foldM (first_of W (Some (VTier tier_))) [] (q :: names);
               check_list ← not_in_list res (Some (VNames non_subregions));
               match check_list with
               | [] => mret res
               | _ :: _ =>
                   foldM (expand_with (retrieve W depth))
                         (set_iter W (list_to_set res ∖ list_to_set check_list)) check_list
               end);
     mret (Py.dict_fromkeys result)) s.
Proof.
  cbn [retrieve]. unfold fetch_region_subregion_tier.
  rewrite run_bind.
  rewrite (fetch_catalogue_present W _ _ "GeoFabrik-non-subregion-list" s
             (VNames non_subregions)); [|set_solver|done|done].
  rewrite run_bind, run_bind.
  rewrite (fetch_catalogue_present W _ _ "GeoFabrik-region-subregion-tier" s (VTier tier_));
    [|set_solver|done|done].
  by rewrite !run_bind.
Qed.

(** The names of [res] are those of the initial results. *)
Lemma elem_of_initial_results (names : list string) (firsts : list (list string)) (x : string) :
  Forall2 (λ q first, initial q = Some first) names firsts →
  x ∈ concat firsts ↔ ∃ q first, q ∈ names ∧ initial q = Some first ∧ x ∈ first.
Proof.
  intros Hall. induction Hall as [|q first names firsts Hq Hall IH]; cbn [concat].
  - split; [by intros ?%elem_of_nil|]. by intros (? & ? & ?%elem_of_nil & _).
  - rewrite elem_of_app, IH. split.
    + intros [Hx|(q' & first' & Hq' & Hf & Hx)].
      * exists q, first. split; [by left|done].
      * exists q', first'. split; [by right|done].
    + intros (q' & first' & Hq' & Hf & Hx).
      apply elem_of_cons in Hq' as [->|Hq'].
      * left. rewrite Hq in Hf. by injection Hf as ->.
      * right. by exists q', first'.
Qed.

Lemma expansion_terminal (q x : string) : expands q x → x ∈ non_subregions.
Proof. induction 1; done. Qed.

(** The second loop, when each nested call returns the expansion of its
    name and leaves the state as it is. *)
Lemma run_expand_loop (depth : nat) (check_list init result : list string) (s' : state) :
  (∀ y sub s1, retrieve W depth [y] s = (Ret sub, s1) →
               s1 = s ∧ ∀ x, x ∈ sub ↔ expands y x) →
  foldM (expand_with (retrieve W depth)) init check_list s = (Ret result, s') →
  s' = s ∧ ∀ x, x ∈ result ↔ x ∈ init ∨ ∃ y, y ∈ check_list ∧ expands y x.
Proof.
  intros Hrec. revert init. induction check_list as [|y check_list IH]; intros init.
  - cbn [foldM mret M_ret]. intros [= <- <-]. split; [done|].
    intros x. split; [by left|]. by intros [?|(? & ?%elem_of_nil & _)].
  - cbn [foldM]. rewrite run_bind. unfold expand_with at 1. rewrite run_bind.
    destruct (retrieve W depth [y] s) as [[sub|e|] s1] eqn:Hy; [|done..].
    destruct (Hrec _ _ _ Hy) as [-> Hsub]. cbn [mret M_ret].
    intros Hrun. destruct (IH _ Hrun) as [-> Hres]. split; [done|].
    intros x. rewrite Hres, elem_of_app, Hsub. split.
    + intros [[?|?]|(y' & Hy' & Hx)]; [by left|right; exists y; split; [by left|done]|].
      right. exists y'. split; [by right|done].
    + intros [?|(y' & Hy' & Hx)]; [by left; left|].
      apply elem_of_cons in Hy' as [->|Hy']; [by left; right|].
      right. by exists y'.
Qed.

Lemma elem_of_List_filter {A} (f : A → bool) (l : list A) (x : A) :
  x ∈ List.filter f l ↔ x ∈ l ∧ f x = true.
Proof. rewrite !list_elem_of_In. apply filter_In. Qed.

Lemma elem_of_set_iter (X : gset string) (x : string) : x ∈ set_iter W X ↔ x ∈ X.
Proof. rewrite (Hset X). apply elem_of_elements. Qed.

(** Whenever the call returns, it has left the state as it was and the
    list it returns holds, each once, the terminal names of the
    expansions of its arguments. *)
Lemma retrieve_sound (depth : nat) (names result : list string) (s' : state) :
  names ≠ [] →
  retrieve W depth names s = (Ret result, s') →
  s' = s
  ∧ NoDup result
  ∧ (∀ x, x ∈ result ↔ ∃ q, q ∈ names ∧ expands q x)
  ∧ (∀ firsts, Forall2 (λ q first, initial q = Some first) names firsts →
               (∀ x, x ∈ concat firsts → x ∈ non_subregions) →
               result = Py.dict_fromkeys (concat firsts)).
Proof.
  revert names result s'. induction depth as [|depth IH]; intros names result s' Hne; [done|].
  destruct names as [|q names]; [done|]. clear Hne.
  rewrite run_retrieve, run_bind, run_bind.
  destruct (run_first_loop (q :: names) []) as (o & -> & Ho).
  destruct o as [res| |]; [|done..].
  destruct (proj1 (Ho res) eq_refl) as (firsts & Hall & Hres). cbn [app] in Hres. subst res.
  rewrite run_bind, run_not_in_list.
  assert (∀ x, x ∈ List.filter (λ x, bool_decide (x ∉ non_subregions)) (concat firsts)
               ↔ x ∈ concat firsts ∧ x ∉ non_subregions) as Hcheck.
  { intros x. rewrite elem_of_List_filter. by rewrite bool_decide_eq_true. }
  generalize dependent (List.filter (λ x, bool_decide (x ∉ non_subregions)) (concat firsts)).
  intros check_list Hcheck.
  pose proof (λ x, elem_of_initial_results _ _ x Hall) as Hres.
  destruct check_list as [|y rest].
  - cbn [mret M_ret]. intros [= <- <-].
    assert (∀ x, x ∈ concat firsts → x ∈ non_subregions) as Hterminal.
    { intros x Hx. destruct (decide (x ∈ non_subregions)) as [|Hn]; [done|].
      pose proof (proj2 (Hcheck x) (conj Hx Hn)) as Hnil. by apply elem_of_nil in Hnil. }
    split; [done|]. split; [apply NoDup_dict_fromkeys|]. split.
    + intros x. rewrite elem_of_dict_fromkeys. split.
      * intros Hx. destruct (proj1 (Hres x) Hx) as (q' & first & Hq' & Hf & Hxf).
        exists q'. split; [done|]. eapply expansion_kept; eauto.
      * intros (q' & Hq' & Hexp). inversion Hexp as [? first ? Hf Hxf Hx|? first y ? Hf Hyf Hy Hexp']; subst.
        -- apply Hres. by exists q', first.
        -- exfalso. apply Hy, Hterminal, Hres. by exists q', first.
    + intros firsts' Hall' _. f_equal. f_equal.
      clear -Hall Hall'. revert firsts' Hall'.
      induction Hall as [|???? Hq _ IH']; intros firsts' Hall'.
      * by apply Forall2_nil_inv_l in Hall' as ->.
      * apply Forall2_cons_inv_l in Hall' as (f' & fs' & Hq' & Hall' & ->).
        rewrite Hq in Hq'. injection Hq' as <-. f_equal. by apply IH'.
  - destruct (foldM _ _ (y :: rest) s) as [[raw|e|] s2] eqn:Hloop; [|done..].
    cbn [mret M_ret]. intros [= <- <-].
    apply run_expand_loop in Hloop as [-> Hraw].
    2:{ intros y' sub s1 Hy'. destruct (IH [y'] sub s1 ltac:(done) Hy') as (-> & _ & Hsub & _).
        split; [done|]. intros x. rewrite Hsub. split.
        - by intros (? & ->%list_elem_of_singleton & ?).
        - intros ?. exists y'. split; [by apply list_elem_of_singleton|done]. }
    split; [done|]. split; [apply NoDup_dict_fromkeys|]. split.
    + intros x. rewrite elem_of_dict_fromkeys, Hraw, elem_of_set_iter.
      rewrite elem_of_difference, !elem_of_list_to_set. split.
      * intros [[Hx Hnc]|(y' & Hy' & Hexp)].
        -- destruct (proj1 (Hres x) Hx) as (q' & first & Hq' & Hf & Hxf).
           exists q'. split; [done|]. eapply expansion_kept; eauto.
           destruct (decide (x ∈ non_subregions)) as [|Hn]; [done|].
           exfalso. apply Hnc, Hcheck. done.
        -- apply Hcheck in Hy' as [Hy' Hn].
           destruct (proj1 (Hres y') Hy') as (q' & first & Hq' & Hf & Hyf).
           exists q'. split; [done|]. eapply expansion_further; eauto.
      * intros (q' & Hq' & Hexp). inversion Hexp as [? first ? Hf Hxf Hx|? first y' ? Hf Hyf Hy Hexp']; subst.
        -- left. split; [apply Hres; by exists q', first|].
           intros [_ Hn]%Hcheck. done.
        -- right. exists y'. split; [|done]. apply Hcheck. split; [|done].
           apply Hres. by exists q', first.
    + intros firsts' Hall' Hterminal. exfalso.
      assert (firsts' = firsts) as ->.
      { clear -Hall Hall'. revert firsts' Hall'.
        induction Hall as [|???? Hq _ IH']; intros firsts' Hall'.
        - by apply Forall2_nil_inv_l in Hall' as ->.
        - apply Forall2_cons_inv_l in Hall' as (f' & fs' & Hq' & Hall' & ->).
          rewrite Hq in Hq'. injection Hq' as <-. f_equal. by apply IH'. }
      assert (y ∈ y :: rest) as Hy by (by left).
      apply Hcheck in Hy as [Hy Hn]. by apply Hn, Hterminal.
Qed.

Lemma run_expand_loop_total (depth : nat) (check_list init : list string) :
  (∀ y, y ∈ check_list → ∃ sub, retrieve W depth [y] s = (Ret sub, s)) →
  ∃ result, foldM (expand_with (retrieve W depth)) init check_list s = (Ret result, s).
Proof.
  revert init. induction check_list as [|y check_list IH]; intros init Hrec.
  - by exists init.
  - cbn [foldM]. rewrite run_bind. unfold expand_with at 1. rewrite run_bind.
    destruct (Hrec y ltac:(by left)) as [sub ->]. cbn [mret M_ret].
    apply IH. intros y' Hy'. apply Hrec. by right.
Qed.

(** The call returns when the expansion of each argument ends within
    the depth of recursion there is room for. *)
Lemma retrieve_total (depth : nat) (names : list string) :
  names ≠ [] →
  (∀ q, q ∈ names → expandable W canonical tier_ non_subregions depth q) →
  ∃ result, retrieve W depth names s = (Ret result, s).
Proof.
  revert names. induction depth as [|depth IH]; intros names Hne Hexp.
  { destruct names as [|q names]; [done|]. by pose proof (Hexp q ltac:(by left)) as Hq; inversion Hq. }
  destruct names as [|q names]; [done|]. clear Hne.
  assert (∃ firsts, Forall2 (λ q first, initial q = Some first) (q :: names) firsts)
    as [firsts Hall].
  { clear -Hexp. induction (q :: names) as [|q' l IHl]; [by exists []|].
    destruct IHl as [firsts Hall]; [intros ??; apply Hexp; by right|].
    pose proof (Hexp q' ltac:(by left)) as Hq. inversion Hq as [? ? first Hf _]; subst.
    exists (first :: firsts). by constructor. }
  rewrite run_retrieve, run_bind, run_bind.
  destruct (run_first_loop (q :: names) []) as (o & -> & Ho).
  rewrite (proj2 (Ho (concat firsts))) by (by exists firsts).
  rewrite run_bind, run_not_in_list.
  pose proof (λ x, elem_of_initial_results _ _ x Hall) as Hres.
  assert (∀ x, x ∈ List.filter (λ x, bool_decide (x ∉ non_subregions)) (concat firsts)
               ↔ x ∈ concat firsts ∧ x ∉ non_subregions) as Hcheck.
  { intros x. rewrite elem_of_List_filter. by rewrite bool_decide_eq_true. }
  generalize dependent (List.filter (λ x, bool_decide (x ∉ non_subregions)) (concat firsts)).
  intros check_list Hcheck.
  destruct check_list as [|y rest]; [by eexists|].
  destruct (run_expand_loop_total depth (y :: rest)
              (set_iter W (list_to_set (concat firsts) ∖ list_to_set (y :: rest))))
    as [raw ->]; [|by eexists].
  intros y' Hy'. apply IH; [done|].
  intros ? ->%list_elem_of_singleton.
  apply Hcheck in Hy' as [Hy' Hn].
  destruct (proj1 (Hres y') Hy') as (q' & first & Hq' & Hf & Hyf).
  pose proof (Hexp q' Hq') as Hq. inversion Hq as [? ? first' Hf' Hsub]; subst.
  rewrite Hf in Hf'. injection Hf' as <-. by apply Hsub.
Qed.

End Retrieve.


Lemma set_iter_ok_W0 : set_iter_ok Site.W0.
Proof. intros X. reflexivity. Qed.


(** On the small site: Great Britain expands to Scotland, kept, and to
    England, expanded in turn to its two terminal names; the expansion
    ends within two nested calls. *)
Example retrieve_great_britain :
  retrieve_subregion_names_from Site.W0 ["great britain"] Site.disk_with_tier
    = (Ret ["Scotland"; "Greater London"; "Kent"], Site.disk_with_tier)
  ∧ expandable Site.W0 Site.names Site.tier_of_europe Site.non_subregions 2 "great britain".
Proof.
  split; [by vm_compute|].
  apply (expandable_intro _ _ _ _ 1 "great britain" ["England"; "Scotland"]); [by vm_compute|].
  intros y Hy Hn.
  apply elem_of_cons in Hy as [->|Hy].
  - apply (expandable_intro _ _ _ _ 0 "England" ["Greater London"; "Kent"]); [by vm_compute|].
    intros z Hz Hnz. exfalso. apply Hnz. unfold Site.non_subregions. set_solver.
  - exfalso. apply Hn. unfold Site.non_subregions. set_solver.
Qed.

(** * Further properties

    Properties of the functions of [download_GeoFabrik.py] and
    [settings.py] besides those above, each read off the code. *)

(** ** The raw directory index *)

Lemma insert_by_date_perm (r : dir_row) (l : list dir_row) : insert_by_date r l ≡ₚ r :: l.
Proof.
  induction l as [|r' l IH]; cbn [insert_by_date]; [done|].
  destruct (d_Date r' <? d_Date r)%N; [done|].
  rewrite IH. apply Permutation_swap.
Qed.

Lemma sort_by_date_desc_perm (l : list dir_row) : sort_by_date_desc l ≡ₚ l.
Proof.
  unfold sort_by_date_desc. induction l as [|r l IH]; cbn [foldr]; [done|].
  by rewrite insert_by_date_perm, IH.
Qed.

Lemma insert_by_date_sorted (r : dir_row) (l : list dir_row) :
  StronglySorted (λ a b, (d_Date b ≤ d_Date a)%N) l →
  StronglySorted (λ a b, (d_Date b ≤ d_Date a)%N) (insert_by_date r l).
Proof.
  induction 1 as [|r' l Hl IH Hall]; cbn [insert_by_date].
  - repeat constructor.
  - destruct (N.ltb_spec (d_Date r') (d_Date r)) as [Hlt|Hge].
    + constructor; [by constructor|]. constructor; [lia|].
      eapply Forall_impl; [exact Hall|]. cbn. intros; lia.
    + constructor; [done|]. rewrite insert_by_date_perm. by constructor.
Qed.

Lemma sort_by_date_desc_sorted (l : list dir_row) :
  StronglySorted (λ a b, (d_Date b ≤ d_Date a)%N) (sort_by_date_desc l).
Proof.
  unfold sort_by_date_desc. induction l as [|r l IH]; cbn [foldr]; [constructor|].
  by apply insert_by_date_sorted.
Qed.

(** X1. A page whose file listing is read: one row per listed file, with
    the size formatted and the file name joined onto the page URL, the
    rows ordered from the newest to the oldest; the listing is the only
    request made. *)
Theorem raw_directory_table_newest_first (W : env) (url : string) (s : state)
    (raw : list file_row) :
  is_file_url url = false →
  read_html_files W url = inr raw →
  ∃ t, get_raw_directory_table W url s = (Ret (Some t), log (ReadHtml url) s)
       ∧ t ≡ₚ map (λ r, DirRow (File r) (format_size W (Size r)) (Date r)
                                (urljoin W url (File r))) raw
       ∧ StronglySorted (λ a b, (d_Date b ≤ d_Date a)%N) t.
Proof.
  intros Hurl Hraw. eexists. split; [|split].
  - unfold get_raw_directory_table. rewrite Hurl.
    erewrite run_try_ret; [reflexivity|].
    rewrite run_bind; cbn [emit]. rewrite run_bind, Hraw. reflexivity.
  - apply sort_by_date_desc_perm.
  - apply sort_by_date_desc_sorted.
Qed.

Lemma raw_directory_table_witness :
  ∃ t, get_raw_directory_table Cases.W_listing (Site.root +:+ "europe/") Site.empty_disk
       = (Ret (Some t), log (ReadHtml (Site.root +:+ "europe/")) Site.empty_disk)
       ∧ t ≡ₚ map (λ r, DirRow (File r) (format_size Cases.W_listing (Size r)) (Date r)
                                (urljoin Cases.W_listing (Site.root +:+ "europe/") (File r)))
                  Cases.listing
       ∧ StronglySorted (λ a b, (d_Date b ≤ d_Date a)%N) t.
Proof.
  apply (raw_directory_table_newest_first Cases.W_listing (Site.root +:+ "europe/")
           Site.empty_disk Cases.listing); reflexivity.
Defined.

(** The three files of the directory, the newest first. *)
Example raw_directory_table_ex :
  (get_raw_directory_table Cases.W_listing (Site.root +:+ "europe/") Site.empty_disk).1
  = Ret (Some [DirRow "malta-latest.osm.pbf" "0 bytes" 20190103
                      (Site.root +:+ "malta-latest.osm.pbf");
               DirRow "malta-190102.osm.pbf" "0 bytes" 20190102
                      (Site.root +:+ "malta-190102.osm.pbf");
               DirRow "malta-190101.osm.pbf" "0 bytes" 20190101
                      (Site.root +:+ "malta-190101.osm.pbf")]).
Proof. reflexivity. Qed.

(** X2. A page whose file listing cannot be read: an HTTP error, a
    [TypeError] or a [ValueError] gives no result, and the notice about
    the home page is printed only when the path of the URL has at most one
    character; any other error, a refused connection for one, is not
    caught. *)
Theorem raw_directory_table_errors (W : env) (url : string) (s : state) (e : exn) :
  is_file_url url = false →
  read_html_files W url = inl e →
  (exn_class_of e ∈ [HTTPError; TypeError; ValueError] →
     get_raw_directory_table W url s
     = (Ret None,
        if (String.length (urlparse_path W url) <=? 1)%nat
        then log (Print "The home page does not have a raw directory index.")
                 (log (ReadHtml url) s)
        else log (ReadHtml url) s))
  ∧ (exn_class_of e ∉ [HTTPError; TypeError; ValueError] →
       get_raw_directory_table W url s = (Raise e, log (ReadHtml url) s)).
Proof.
  intros Hurl Hraw.
  assert (emit (ReadHtml url) ≫= (λ _ : (),
            call (read_html_files W url) ≫= λ raw,
              mret (Some (sort_by_date_desc
                (map (λ r, DirRow (File r) (format_size W (Size r)) (Date r)
                                  (urljoin W url (File r))) raw)))) 
          = λ s, (Raise e, log (ReadHtml url) s)) as Hbody.
  { by rewrite Hraw. }
  unfold get_raw_directory_table. rewrite Hurl.
  split; intros Hk.
  - erewrite run_try_raise; [|by rewrite Hbody].
    replace (handled_by _ e) with true.
    + rewrite run_bind. by destruct (_ <=? 1)%nat.
    + unfold handled_by. destruct e as [k msg]; cbn in *.
      repeat (apply elem_of_cons in Hk as [->|Hk]; [done|]). by apply elem_of_nil in Hk.
  - erewrite run_try_raise; [|by rewrite Hbody].
    replace (handled_by _ e) with false; [done|].
    unfold handled_by. destruct e as [[] msg]; cbn in *; try done; exfalso; apply Hk; set_solver.
Qed.

Lemma raw_directory_table_errors_witness :
  get_raw_directory_table Site.W0 (Site.root +:+ "europe.html") Site.empty_disk
  = (Ret None, log (ReadHtml (Site.root +:+ "europe.html")) Site.empty_disk)
  ∧ get_raw_directory_table Cases.W_no_listing (Site.root +:+ "europe.html") Site.empty_disk
    = (Raise Site.unreachable, log (ReadHtml (Site.root +:+ "europe.html")) Site.empty_disk).
Proof.
  split.
  - apply (raw_directory_table_errors Site.W0 (Site.root +:+ "europe.html") Site.empty_disk
             Site.no_tables_found); [reflexivity|reflexivity|]. cbn. set_solver.
  - apply (raw_directory_table_errors Cases.W_no_listing (Site.root +:+ "europe.html")
             Site.empty_disk Site.unreachable); [reflexivity|reflexivity|]. cbn. set_solver.
Defined.

(** ** The subregion table of a page *)

Lemma omap_via_map {A A' B} (f : A → option B) (g : A' → option B) (l : list A) (l' : list A') :
  map f l = map g l' → omap f l = omap g l'.
Proof.
  revert l'. induction l as [|x l IH]; intros [|y l']; cbn [map]; try done.
  intros [= Hxy Hl]. cbn [omap list_omap]. rewrite Hxy. by rewrite (IH l').
Qed.

(** The three assignments together, when they all go through: names and
    sizes are untouched and the cells that were missing stay missing;
    a format column whose links are as many as its non-missing cells
    holds in these cells the links of its format, in page order. *)
Lemma assign_format_urls_Ret (W : env) (url : string) (sp : soup) (t t' : list trow)
    (s s' : state) :
  assign_format_urls W url sp t s = (Ret t', s') →
  s' = s
  ∧ map t_Subregion t' = map t_Subregion t
  ∧ map t_pbf_Size t' = map t_pbf_Size t
  ∧ ∀ ft, map (λ r, bool_decide (is_Some (get_format ft r))) t'
          = map (λ r, bool_decide (is_Some (get_format ft r))) t
          ∧ (length (find_all_a_href sp ("[" +:+ ext ft +:+ "]")) = count_notnull ft t →
             omap (get_format ft) t'
             = map (urljoin W url) (find_all_a_href sp ("[" +:+ ext ft +:+ "]"))).
Proof.
  unfold assign_format_urls, file_types. cbn [foldM].
  rewrite run_bind.
  destruct (loc_notnull_assign W OsmPbf t _ s) as [[t1|e|] s1] eqn:H1; [|done..].
  apply run_loc_notnull_assign in H1 as (-> & Hn1 & Hs1 & Ho1 & Hm1 & Hc1).
  rewrite run_bind.
  destruct (loc_notnull_assign W ShpZip _ _ s) as [[t2|e|] s2] eqn:H2; [|done..].
  apply run_loc_notnull_assign in H2 as (-> & Hn2 & Hs2 & Ho2 & Hm2 & Hc2).
  rewrite run_bind.
  destruct (loc_notnull_assign W OsmBz2 _ _ s) as [[t3|e|] s3] eqn:H3; [|done..].
  apply run_loc_notnull_assign in H3 as (-> & Hn3 & Hs3 & Ho3 & Hm3 & Hc3).
  cbn [mret M_ret]. intros [= <- <-].
  rewrite length_map in Hc1, Hc2, Hc3. cbn [ext] in *.
  split; [done|]. split; [by rewrite Hn3, Hn2, Hn1|].
  split; [by rewrite Hs3, Hs2, Hs1|].
  intros ft. split; [by rewrite Hm3, Hm2, Hm1|].
  destruct ft; cbn [ext]; intros Hlen.
  - rewrite <- (Hc1 Hlen). apply omap_via_map.
    etrans; [by apply (Ho3 OsmPbf)|by apply (Ho2 OsmPbf)].
  - rewrite <- (count_notnull_mask ShpZip t t1 (Hm1 ShpZip)) in Hlen.
    rewrite <- (Hc2 Hlen). apply omap_via_map. by apply (Ho3 ShpZip).
  - rewrite <- (count_notnull_mask OsmBz2 t t1 (Hm1 OsmBz2)) in Hlen.
    rewrite <- (count_notnull_mask OsmBz2 t1 t2 (Hm2 OsmBz2)) in Hlen.
    by apply Hc3.
Qed.

Lemma mapM_pure {A B} (f : A → M B) (l : list A) (s : state) :
  (∀ x s0, (f x s0).2 = s0) → (mapM f l s).2 = s.
Proof.
  intros Hf. revert s. induction l as [|x l IH]; intros s; [done|].
  cbn [mapM]. rewrite run_bind. specialize (Hf x s).
  destruct (f x s) as [[y|e|] s1]; cbn [snd] in *; subst; [|done..].
  rewrite run_bind. specialize (IH s).
  destruct (mapM f l s) as [[ys|e|] s2]; cbn [snd] in *; by subst.
Qed.

Lemma subregion_page_urls_pure (W : env) (url : string) (sp : soup) (t : list trow) (s : state) :
  (subregion_page_urls W url sp t s).2 = s.
Proof.
  unfold subregion_page_urls, try_except.
  pose proof (mapM_pure (λ text, h ← subscript_href (find_a sp text); mret (urljoin W url h))
                (map t_Subregion t) s) as Hp.
  destruct (mapM _ _ s) as [[urls|e|] s1]; cbn [snd] in *.
  - apply Hp. intros x s0. rewrite run_bind. unfold subscript_href.
    by destruct (find_a sp x) as [[? [h|]]|].
  - rewrite Hp.
    + by destruct (handled_by _ e).
    + intros x s0. rewrite run_bind. unfold subscript_href.
      by destruct (find_a sp x) as [[? [h|]]|].
  - apply Hp. intros x s0. rewrite run_bind. unfold subscript_href.
    by destruct (find_a sp x) as [[? [h|]]|].
Qed.

Lemma assign_SubregionURL_Ret (t : list trow) (urls : list string) (s s' : state) (t' : table) :
  assign_SubregionURL t urls s = (Ret t', s') →
  s' = s ∧ map Subregion t' = map t_Subregion t ∧ map SubregionURL t' = urls
  ∧ map osm_pbf_Size t' = map t_pbf_Size t
  ∧ ∀ ft, map (row_format ft) t' = map (get_format ft) t.
Proof.
  unfold assign_SubregionURL. destruct (decide _) as [Hlen|]; [|done].
  cbn [mret M_ret]. intros [= <- <-]. split; [done|].
  revert urls Hlen. induction t as [|r t IH]; intros [|u urls] Hlen; try done.
  injection Hlen as Hlen. destruct (IH urls Hlen) as (H1 & H2 & H3 & H4).
  cbn [zip_with map]. rewrite H1, H2, H3. repeat split; try done.
  intros ft. rewrite H4. by destruct ft.
Qed.



(** On the small site the three columns of the page of Europe have as
    many links as cells, and hold them. *)
Example subregion_table_of_europe :
  get_subregion_table Site.W0 (Site.root +:+ "europe.html") Site.empty_disk
  = (Ret (Some Cases.europe),
     log (HttpGet (Site.root +:+ "europe.html"))
         (log (ReadHtml (Site.root +:+ "europe.html")) Site.empty_disk))
  ∧ omap (row_format ShpZip) Cases.europe
    = [Site.root +:+ "europe/great-britain-latest-free.shp.zip";
       Site.root +:+ "europe/malta-latest-free.shp.zip"].
Proof. split; reflexivity. Qed.

(** X4. When the tables of a page cannot be read, a [ValueError], a
    [TypeError] or a connection error is taken to mean that the page has
    no subregions: the Checked out line is printed and no result is
    returned.  An error of any other class, an HTTP error for one, is not
    caught.  In both cases the links of the page are not requested. *)
Theorem subregion_table_read_failure (W : env) (url : string) (s : state) (e : exn) :
  is_file_url url = false →
  read_html_subregions W url = inl e →
  (exn_class_of e ∈ [ValueError; TypeError; ConnectionRefusedError; ConnectionError] →
     get_subregion_table W url s
     = (Ret None, log (Print (checked_out url)) (log (ReadHtml url) s)))
  ∧ (exn_class_of e ∉ [ValueError; TypeError; ConnectionRefusedError; ConnectionError] →
       get_subregion_table W url s = (Raise e, log (ReadHtml url) s)).
Proof.
  intros Hurl Hraw.
  assert (parse_subregion_page W url s = (Raise e, log (ReadHtml url) s)) as Hparse.
  { unfold parse_subregion_page. rewrite run_bind; cbn [emit]. by rewrite run_bind, Hraw. }
  unfold get_subregion_table. rewrite Hurl, (run_try_raise _ _ _ _ _ _ Hparse).
  split; intros Hk.
  - replace (handled_by _ e) with true; [done|].
    unfold handled_by. destruct e as [k msg]; cbn in *.
    repeat (apply elem_of_cons in Hk as [->|Hk]; [done|]). by apply elem_of_nil in Hk.
  - replace (handled_by _ e) with false; [done|].
    unfold handled_by. destruct e as [[] msg]; cbn in *; try done; exfalso; apply Hk; set_solver.
Qed.

Lemma subregion_table_read_failure_witness :
  get_subregion_table Site.W_no_tables (Site.root +:+ "europe.html") Site.empty_disk
  = (Ret None, log (Print (checked_out (Site.root +:+ "europe.html")))
                   (log (ReadHtml (Site.root +:+ "europe.html")) Site.empty_disk))
  ∧ get_subregion_table Site.W_offline (Site.root +:+ "europe.html") Site.empty_disk
    = (Raise Site.unreachable, log (ReadHtml (Site.root +:+ "europe.html")) Site.empty_disk).
Proof.
  split.
  - apply (subregion_table_read_failure Site.W_no_tables (Site.root +:+ "europe.html")
             Site.empty_disk Site.no_tables_found); [reflexivity|reflexivity|]. cbn. set_solver.
  - apply (subregion_table_read_failure Site.W_offline (Site.root +:+ "europe.html")
             Site.empty_disk Site.unreachable); [reflexivity|reflexivity|]. cbn. set_solver.
Defined.

Lemma run_page_urls_prefix (W : env) (url : string) (sp : soup) (before : list string)
    (rest : list string) (s : state) :
  Forall (λ y, ∃ a h, find_a sp y = Some a ∧ a_href a = Some h) before →
  mapM (λ text, h ← subscript_href (find_a sp text); mret (urljoin W url h)) (before ++ rest) s
  = match mapM (λ text, h ← subscript_href (find_a sp text); mret (urljoin W url h)) rest s with
    | (Ret urls, s') =>
        (Ret (omap (λ y, a ← find_a sp y; urljoin W url <$> a_href a) before ++ urls), s')
    | r => r
    end.
Proof.
  induction 1 as [|y before (a & h & Ha & Hh) _ IH]; cbn [app].
  - by destruct (mapM _ rest s) as [[]].
  - cbn [mapM]. rewrite run_bind. rewrite run_bind. rewrite Ha. cbn [subscript_href].
    rewrite Hh. cbn [mret M_ret]. rewrite run_bind, IH.
    destruct (mapM _ rest s) as [[urls|e|] s']; [|done..].
    cbn [mret M_ret omap list_omap]. rewrite Ha. cbn. rewrite Hh. done.
Qed.

(** X5. The page of each subregion (lines 90-96).  The anchors that bear
    the names of the subregions are looked up in the order of the rows.
    When the first name that does not have an anchor with a link has no
    anchor at all, the pages are taken from the map overlays of the page
    instead, whatever the anchors found before; when it has an anchor
    that lacks the link, [KeyError] is raised and is not caught. *)
Theorem subregion_page_urls_fallback (W : env) (url : string) (sp : soup)
    (t : list trow) (before after : list string) (x : string) (s : state) :
  map t_Subregion t = before ++ x :: after →
  Forall (λ y, ∃ a h, find_a sp y = Some a ∧ a_href a = Some h) before →
  (find_a sp x = None →
     subregion_page_urls W url sp t s
     = (Ret (map (λ o, urljoin W url (kml_to_html o)) (tr_onmouseover sp)), s))
  ∧ (∀ a, find_a sp x = Some a → a_href a = None →
       subregion_page_urls W url sp t s = (Raise (Exn KeyError "'href'"), s)).
Proof.
  intros Hnames Hbefore. unfold subregion_page_urls. rewrite Hnames. split.
  - intros Hx. erewrite run_try_raise.
    2:{ rewrite run_page_urls_prefix by done. cbn [mapM]. rewrite run_bind, run_bind, Hx.
        reflexivity. }
    reflexivity.
  - intros a Hx Ha. erewrite run_try_raise.
    2:{ rewrite run_page_urls_prefix by done. cbn [mapM]. rewrite run_bind, run_bind, Hx.
        cbn [subscript_href]. rewrite Ha. reflexivity. }
    reflexivity.
Qed.

Lemma subregion_page_urls_fallback_witness :
  subregion_page_urls Site.W0 (Site.root +:+ "europe/great-britain.html")
    Site.great_britain_soup Cases.great_britain_rows Site.empty_disk
  = (Ret [Site.root +:+ "europe/great-britain/england.html";
          Site.root +:+ "europe/great-britain/scotland.html"], Site.empty_disk).
Proof.
  apply (subregion_page_urls_fallback Site.W0 (Site.root +:+ "europe/great-britain.html")
           Site.great_britain_soup Cases.great_britain_rows [] ["Scotland"] "England"
           Site.empty_disk); [reflexivity|constructor|reflexivity].
Defined.

(** The error goes through [get_subregion_table] as well. *)
Example key_error_not_caught :
  let sp := Soup [Anchor "Malta" None; Anchor "[.osm.pbf]" (Some "malta-latest.osm.pbf")] [] [] in
  let W := Site.world (λ _, inr (Raw4 [("Malta", Some "[.osm.pbf]", None, None)]))
                      (λ _, inr sp) Site.same_up_to_case in
  (get_subregion_table W (Site.root +:+ "europe.html") Site.empty_disk).1
  = Raise (Exn KeyError "'href'").
Proof. reflexivity. Qed.

(** ** The crawl *)

Lemma mapM_length {A B} (f : A → M B) (l : list A) (s s' : state) (ys : list B) :
  mapM f l s = (Ret ys, s') → length ys = length l.
Proof.
  revert s ys. induction l as [|x l IH]; intros s ys; cbn [mapM].
  - by intros [= <- <-].
  - rewrite run_bind. destruct (f x s) as [[y|e|] s1]; [|done..].
    rewrite run_bind. destruct (mapM f l s1) as [[ys'|e|] s2] eqn:Hl; [|done..].
    cbn [mret M_ret]. intros [= <- <-]. cbn [length]. f_equal. by eapply IH.
Qed.

Lemma dict_zip_fold_Some (l : list (string * string)) (m : gmap string string) (k v : string) :
  fold_left (λ m kv, <[kv.1 := kv.2]> m) l m !! k = Some v →
  (k, v) ∈ l ∨ m !! k = Some v.
Proof.
  revert m. induction l as [|[k' v'] l IH]; intros m; cbn [fold_left fst snd]; [by right|].
  intros [Hin|Hm]%IH; [left; by right|].
  destruct (decide (k' = k)) as [->|Hne].
  - rewrite lookup_insert_eq in Hm. injection Hm as ->. left. by left.
  - rewrite lookup_insert_ne in Hm by done. by right.
Qed.

Lemma dict_zip_fold_is_Some (l : list (string * string)) (m : gmap string string) (k : string) :
  k ∈ map fst l ∨ is_Some (m !! k) →
  is_Some (fold_left (λ m kv, <[kv.1 := kv.2]> m) l m !! k).
Proof.
  revert m. induction l as [|[k' v'] l IH]; intros m; cbn [fold_left fst snd map].
  - intros [?%elem_of_nil|?]; done.
  - intros [[->|Hin]%elem_of_cons|Hm]; apply IH.
    + right. rewrite lookup_insert_eq. by eexists.
    + by left.
    + right. destruct (decide (k' = k)) as [->|Hne].
      * rewrite lookup_insert_eq. by eexists.
      * by rewrite lookup_insert_ne.
Qed.

(** Each entry of the dictionary pairs a name with a URL listed beside
    it. *)
Lemma dict_zip_Some (keys vals : list string) (k v : string) :
  dict_zip keys vals !! k = Some v → (k, v) ∈ zip keys vals.
Proof.
  unfold dict_zip. intros [?|Hm]%dict_zip_fold_Some; [done|].
  by rewrite lookup_empty in Hm.
Qed.

(** When there are as many URLs as names, every name is a key. *)
Lemma dict_zip_is_Some (keys vals : list string) (k : string) :
  length keys = length vals → k ∈ keys → is_Some (dict_zip keys vals !! k).
Proof.
  intros Hlen Hk. unfold dict_zip. apply dict_zip_fold_is_Some. left.
  by rewrite fst_zip by lia.
Qed.

Lemma zip_map_same {A} (f g : A → string) (l : list A) (n u : string) :
  (n, u) ∈ zip (map f l) (map g l) → ∃ r, r ∈ l ∧ f r = n ∧ g r = u.
Proof.
  induction l as [|r l IH]; cbn [map zip zip_with]; [by intros ?%elem_of_nil|].
  intros [[= -> ->]|Hin]%elem_of_cons.
  - exists r. split; [by left|done].
  - destruct (IH Hin) as (r' & ? & ? & ?). exists r'. split; [by right|done].
Qed.

Section Crawl.

Context (W : env) (home_pairs : list (string * string)).

Lemma aligned_crawl_table (next : list table) (acc : crawl_acc) (tbl : table)
    (rest : list table) (s s' : state) (st : list table * crawl_acc) :
  aligned home_pairs (tbl :: rest) acc →
  crawl_table W (next, acc) tbl s = (Ret st, s') →
  aligned home_pairs (rest ++ st.1) st.2.
Proof.
  destruct acc as [[names urls] tables]. intros (Hlen & Hpairs & Hfrontier).
  cbn [fst snd] in *. unfold crawl_table. rewrite run_bind.
  destruct (mapM _ _ s) as [[tables0|e|] s1]; [|done..].
  cbn [mret M_ret]. intros [= <- <-]. split; [|split]; cbn [fst snd].
  - rewrite !length_app, !length_map. lia.
  - intros n u. rewrite zip_with_app by done.
    intros [Hin|Hin]%elem_of_app.
    + destruct (Hpairs n u Hin) as [?|(t & r & Ht & ?)]; [by left|].
      right. exists t, r. split; [|done]. apply elem_of_app. by left.
    + right. apply zip_map_same in Hin as (r & Hr & ? & ?).
      exists tbl, r. split; [|done]. apply elem_of_app. left. apply Hfrontier. by left.
  - intros t [Ht|Ht]%elem_of_app; apply elem_of_app; [left|by right].
    apply Hfrontier. by right.
Qed.

Lemma aligned_round (frontier : list table) (next : list table) (acc : crawl_acc)
    (s s' : state) (st : list table * crawl_acc) :
  aligned home_pairs (frontier ++ next) acc →
  foldM (crawl_table W) (next, acc) frontier s = (Ret st, s') →
  aligned home_pairs st.1 st.2.
Proof.
  revert next acc s. induction frontier as [|tbl rest IH]; intros next acc s Hinv.
  - cbn [foldM mret M_ret]. by intros [= <- <-].
  - cbn [foldM]. rewrite run_bind.
    destruct (crawl_table W (next, acc) tbl s) as [[[next' acc']|e|] s1] eqn:Hstep; [|done..].
    apply (IH next' acc' s1).
    assert (aligned home_pairs (tbl :: rest) acc) as Hinv'.
    { destruct Hinv as (? & ? & Hf). repeat split; try done.
      intros t Ht. apply Hf. change (tbl :: rest) with ([tbl] ++ rest) in Ht.
      cbn. apply elem_of_cons in Ht as [->|Ht]; [by left|right; apply elem_of_app; by left]. }
    exact (aligned_crawl_table next acc tbl rest s s1 (next', acc') Hinv' Hstep).
Qed.

Lemma aligned_crawl (rounds : nat) (frontier : list table) (acc acc' : crawl_acc)
    (s s' : state) :
  aligned home_pairs frontier acc →
  crawl W rounds frontier acc s = (Ret acc', s') →
  aligned home_pairs [] acc'.
Proof.
  revert frontier acc s. induction rounds as [|rounds IH]; intros frontier acc s Hinv;
    destruct frontier as [|tbl rest]; cbn [crawl].
  - cbn [mret M_ret]. by intros [= <- <-].
  - done.
  - cbn [mret M_ret]. by intros [= <- <-].
  - rewrite run_bind.
    destruct (foldM (crawl_table W) ([], acc) (tbl :: rest) s) as [[st|e|] s1] eqn:Hround;
      [|done..].
    apply IH. eapply aligned_round; [|exact Hround]. by rewrite app_nil_r.
Qed.

End Crawl.

Lemma home_pairs_listed (W : env) (tds : list (option anchor)) (names urls : list string)
    (s1 s2 s3 s4 : state) :
  mapM td_a_text tds s1 = (Ret names, s2) →
  mapM (λ td, h ← subscript_href td; mret (urljoin W home_url h)) tds s3 = (Ret urls, s4) →
  ∀ n u, (n, u) ∈ zip names urls →
         ∃ a h, Some a ∈ tds ∧ a_text a = n ∧ a_href a = Some h ∧ u = urljoin W home_url h.
Proof.
  revert names urls s1 s3. induction tds as [|td tds IH]; intros names urls s1 s3; cbn [mapM].
  - intros [= <- <-] _ n u. by intros ?%elem_of_nil.
  - rewrite !run_bind. destruct td as [a|]; [|done]. cbn [td_a_text subscript_href mret M_ret].
    rewrite run_bind.
    destruct (mapM td_a_text tds s1) as [[ns|e|] s1'] eqn:Hn; [|done..].
    cbn [mret M_ret]. intros [= <- <-].
    destruct (a_href a) as [h|] eqn:Hh; [|done]. cbn [mret M_ret]. rewrite !run_bind.
    destruct (mapM _ tds s3) as [[us|e|] s3'] eqn:Hu; [|done..].
    cbn [mret M_ret]. intros [= <- <-] n u [[= -> ->]|Hin]%elem_of_cons.
    + exists a, h. split; [by left|done].
    + destruct (IH _ _ _ _ Hn Hu n u Hin) as (a' & h' & ? & ?).
      exists a', h'. split; [by right|done].
Qed.

(** X6. When the crawl returns, it has as many URLs as names, so that
    every name collected is a key of the name-to-URL dictionary; and the
    dictionary maps a name to a URL that was listed with this very name:
    by a cell of the home page, or by a row of one of the tables
    collected. *)
Theorem crawl_names_and_urls_aligned (W : env) (s s' : state)
    (names urls : list string) (tables : list table) :
  crawl_site W s = (Ret (names, urls, tables), s') →
  length names = length urls
  ∧ (∀ n, n ∈ names → is_Some (dict_zip names urls !! n))
  ∧ ∀ n u, dict_zip names urls !! n = Some u →
      (∃ sp a h, requests_get W home_url = inr sp ∧ Some a ∈ td_subregion sp
                 ∧ a_text a = n ∧ a_href a = Some h ∧ u = urljoin W home_url h)
      ∨ (∃ t r, t ∈ tables ∧ r ∈ t ∧ Subregion r = n ∧ SubregionURL r = u).
Proof.
  unfold crawl_site. rewrite run_bind; cbn [emit]. rewrite run_bind.
  destruct (requests_get W home_url) as [e|sp] eqn:Hsp; [done|]. cbn [call mret M_ret].
  rewrite run_bind.
  destruct (mapM td_a_text (td_subregion sp) _) as [[names0|e|] s1] eqn:Hn; [|done..].
  rewrite run_bind.
  destruct (mapM _ (td_subregion sp) s1) as [[urls0|e|] s2] eqn:Hu; [|done..].
  rewrite run_bind.
  destruct (mapM (get_subregion_table W) urls0 s2) as [[tables0|e|] s3]; [|done..].
  intros Hcrawl.
  apply (aligned_crawl W (zip names0 urls0)) in Hcrawl as (Hlen & Hpairs & _).
  - cbn [fst snd] in *. split; [done|]. split; [intros n; by apply dict_zip_is_Some|].
    intros n u [Hhome|Htable]%dict_zip_Some%Hpairs; [left|by right].
    destruct (home_pairs_listed W _ _ _ _ _ _ _ Hn Hu n u Hhome) as (a & h & ?).
    by exists sp, a, h.
  - split; [|split]; cbn [fst snd].
    + apply mapM_length in Hn, Hu. lia.
    + intros n u ?. by left.
    + done.
Qed.

Lemma crawl_names_and_urls_witness :
  length Cases.crawled.1.1 = length Cases.crawled.1.2
  ∧ (∀ n, n ∈ Cases.crawled.1.1 →
          is_Some (dict_zip Cases.crawled.1.1 Cases.crawled.1.2 !! n))
  ∧ ∀ n u, dict_zip Cases.crawled.1.1 Cases.crawled.1.2 !! n = Some u →
      (∃ sp a h, requests_get Site.W0 home_url = inr sp ∧ Some a ∈ td_subregion sp
                 ∧ a_text a = n ∧ a_href a = Some h ∧ u = urljoin Site.W0 home_url h)
      ∨ (∃ t r, t ∈ Cases.crawled.2 ∧ r ∈ t ∧ Subregion r = n ∧ SubregionURL r = u).
Proof.
  apply (crawl_names_and_urls_aligned Site.W0 Site.empty_disk
           (crawl_site Site.W0 Site.empty_disk).2).
  vm_compute. reflexivity.
Defined.

(** The names collected on the small site, and the page of one of them
    in the dictionary. *)
Example crawl_of_the_small_site :
  Cases.crawled.1.1 = ["Europe"; "Great Britain"; "Malta"; "England"; "Scotland"]
  ∧ dict_zip Cases.crawled.1.1 Cases.crawled.1.2 !! "England"
    = Some (Site.root +:+ "europe/great-britain/england.html").
Proof. split; reflexivity. Qed.

(** ** Paths under the data root *)

Lemma app_inj_l (a x y : string) : a +:+ x = a +:+ y → x = y.
Proof. induction a as [|c a IH]; [done|]. rewrite !app_cons. intros [= H]. by apply IH. Qed.

(** Two file names that do not start with a slash are given two paths. *)
Lemma cd_dat_inj (W : env) (a b : string) :
  String.prefix "/" a = false → String.prefix "/" b = false →
  cd_dat W a = cd_dat W b → a = b.
Proof.
  unfold cd_dat, Py.os_path_join. intros -> ->.
  destruct (data_root W) as [|c r]; [done|].
  destruct (Py.endswith _ "/"); intros H.
  - by apply app_inj_l in H.
  - apply app_inj_l in H. by apply (app_inj_l "/") in H.
Qed.

Ltac other_path :=
  rewrite lookup_insert_ne;
  [|intros Heq; apply cd_dat_inj in Heq; [discriminate Heq|reflexivity|reflexivity]].

Lemma run_save_pickle (W : env) (data : value) (path : string) (s s' : state) :
  save_pickle W data path s = (Ret tt, s') → s' = set_files (insert path data) s.
Proof. unfold save_pickle. destruct (write_error W path); [done|]. by intros [= <-]. Qed.

Lemma run_save_json (W : env) (data : value) (path : string) (s s' : state) :
  save_json W data path s = (Ret tt, s') → s' = set_files (insert path (VJson data)) s.
Proof. unfold save_json. destruct (write_error W path); [done|]. by intros [= <-]. Qed.

Lemma elem_of_concat {A} (x : A) (ls : list (list A)) :
  x ∈ concat ls ↔ ∃ l, x ∈ l ∧ l ∈ ls.
Proof.
  rewrite list_elem_of_In, in_concat. split.
  - intros (l & ? & ?). exists l. by rewrite !list_elem_of_In.
  - intros (l & ? & ?). exists l. by rewrite <- !list_elem_of_In.
Qed.

(** In a table without two rows of the same name, a name selects one
    cell or nothing. *)
Lemma loc_unique (t : table) (name : string) (ft : file_type) (s : state) :
  NoDup (map Subregion t) →
  (loc t name ft s = (Raise (Exn KeyError name), s) ∧ name ∉ map Subregion t)
  ∨ ∃ r, r ∈ t ∧ Subregion r = name ∧ loc t name ft s = (Ret (Scalar (row_format ft r)), s).
Proof.
  intros Hnd. unfold loc.
  destruct (List.filter _ t) as [|r [|r' rs]] eqn:Hf.
  - left. split; [done|]. intros (r & -> & Hr)%list_elem_of_fmap_1.
    assert (r ∈ List.filter (λ r0, bool_decide (Subregion r0 = Subregion r)) t) as Hin.
    { apply elem_of_List_filter. split; [done|]. by apply bool_decide_eq_true. }
    rewrite Hf in Hin. by apply elem_of_nil in Hin.
  - right. exists r.
    assert (r ∈ List.filter (λ r0, bool_decide (Subregion r0 = name)) t) as Hin
      by (rewrite Hf; by left).
    apply elem_of_List_filter in Hin as [Hin Hname]. apply bool_decide_eq_true in Hname.
    done.
  - exfalso.
    assert (NoDup (map Subregion (List.filter (λ r0, bool_decide (Subregion r0 = name)) t)))
      as Hnd'.
    { clear Hf. induction t as [|x t IH]; [constructor|]. cbn [map] in Hnd.
      apply NoDup_cons in Hnd as [Hx Hnd]. cbn [List.filter].
      destruct (bool_decide _); [|by apply IH]. cbn [map]. apply NoDup_cons.
      split; [|by apply IH]. intros (y & Hy & Hin)%list_elem_of_fmap_1.
      apply elem_of_List_filter in Hin as [Hin _]. apply Hx. rewrite Hy.
      by apply (list_elem_of_fmap_2 Subregion). }
    assert (∀ x, x ∈ List.filter (λ r0, bool_decide (Subregion r0 = name)) t →
                 Subregion x = name) as Hall.
    { intros x [_ Hx]%elem_of_List_filter. by apply bool_decide_eq_true in Hx. }
    rewrite Hf in Hnd', Hall. cbn [map] in Hnd'.
    apply NoDup_cons in Hnd' as [Hr _]. apply Hr.
    rewrite (Hall r) by (by left). rewrite <- (Hall r') by (right; by left). by left.
Qed.

(** X7. When the three catalogues are saved without an error, the five
    files hold them: the names, the dictionary built from the names and
    the URLs, and a downloads table in which no two rows are equal and no
    two rows bear the same name, so that a name selects in it one cell or
    none. *)
Theorem saved_catalogues_are_consistent (W : env) (names urls : list string)
    (tables : list table) (s s' : state) :
  save_catalogues W (names, urls, tables) s = (Ret tt, s') →
  ∃ t,
    files s' !! cd_dat W "GeoFabrik-subregion-name-list.pickle" = Some (VNames names)
    ∧ files s' !! cd_dat W "GeoFabrik-subregion-name-url-dictionary.pickle"
      = Some (VUrlIndex (dict_zip names urls))
    ∧ files s' !! cd_dat W "GeoFabrik-subregion-name-url-dictionary.json"
      = Some (VJson (VUrlIndex (dict_zip names urls)))
    ∧ files s' !! cd_dat W "GeoFabrik-subregion-downloads-catalogue.pickle" = Some (VTable t)
    ∧ files s' !! cd_dat W "GeoFabrik-subregion-downloads-catalogue.json"
      = Some (VJson (VTableJson t))
    ∧ NoDup t ∧ NoDup (map Subregion t)
    ∧ (∀ r tbl, tbl ∈ tables → r ∈ tbl → r ∈ t)
    ∧ ∀ name ft s0,
        (loc t name ft s0 = (Raise (Exn KeyError name), s0) ∧ name ∉ map Subregion t)
        ∨ ∃ r, r ∈ t ∧ Subregion r = name
               ∧ loc t name ft s0 = (Ret (Scalar (row_format ft r)), s0).
Proof.
  unfold save_catalogues. rewrite run_bind.
  destruct (save_pickle W _ _ s) as [[[]|e|] s1] eqn:H1; [|done..].
  apply run_save_pickle in H1 as ->. rewrite run_bind.
  destruct (save_pickle W _ _ _) as [[[]|e|] s2] eqn:H2; [|done..].
  apply run_save_pickle in H2 as ->. rewrite run_bind.
  destruct (save_json W _ _ _) as [[[]|e|] s3] eqn:H3; [|done..].
  apply run_save_json in H3 as ->. rewrite run_bind.
  match goal with |- context [get_subregion_table W home_url ?s0] =>
    pose proof (respects_get_subregion_table W (λ _, False) home_url s0) as Hframe;
    destruct (get_subregion_table W home_url s0) as [[home|e|] s4]; [|done..]
  end.
  apply frame_nothing_files in Hframe. cbn [snd] in Hframe.
  rewrite run_bind. unfold pd_concat.
  destruct (omap _ _) as [|t0 ts] eqn:Hts; [by cbn|].
  cbn [mret M_ret]. rewrite run_bind. unfold to_json_by_Subregion.
  destruct (decide (NoDup (map Subregion (drop_duplicates (concat (t0 :: ts))))))
    as [Hnd|]; [|by cbn].
  cbn [mret M_ret]. rewrite run_bind.
  destruct (save_pickle W _ _ s4) as [[[]|e|] s5] eqn:H5; [|done..].
  apply run_save_pickle in H5 as ->.
  intros H6. apply run_save_json in H6 as ->.
  exists (drop_duplicates (concat (t0 :: ts))).
  cbn [set_files files]. rewrite Hframe. cbn [set_files files].
  repeat split.
  - do 4 other_path. by rewrite lookup_insert_eq.
  - do 3 other_path. by rewrite lookup_insert_eq.
  - do 2 other_path. by rewrite lookup_insert_eq.
  - other_path. by rewrite lookup_insert_eq.
  - by rewrite lookup_insert_eq.
  - apply NoDup_dict_fromkeys.
  - done.
  - intros r tbl Htbl Hr. unfold drop_duplicates. apply elem_of_dict_fromkeys.
    rewrite <- Hts. apply elem_of_concat. exists tbl. split; [done|].
    apply list_elem_of_omap. exists (Some tbl). split; [|done].
    apply elem_of_app. left. by apply (list_elem_of_fmap_2 Some).
  - intros name ft s0. by apply loc_unique.
Qed.

Lemma saved_catalogues_witness :
  ∃ t,
    files (save_catalogues Site.W0 Cases.crawled Site.empty_disk).2
      !! cd_dat Site.W0 "GeoFabrik-subregion-name-list.pickle"
    = Some (VNames Cases.crawled.1.1)
    ∧ files (save_catalogues Site.W0 Cases.crawled Site.empty_disk).2
        !! cd_dat Site.W0 "GeoFabrik-subregion-name-url-dictionary.pickle"
      = Some (VUrlIndex (dict_zip Cases.crawled.1.1 Cases.crawled.1.2))
    ∧ files (save_catalogues Site.W0 Cases.crawled Site.empty_disk).2
        !! cd_dat Site.W0 "GeoFabrik-subregion-name-url-dictionary.json"
      = Some (VJson (VUrlIndex (dict_zip Cases.crawled.1.1 Cases.crawled.1.2)))
    ∧ files (save_catalogues Site.W0 Cases.crawled Site.empty_disk).2
        !! cd_dat Site.W0 "GeoFabrik-subregion-downloads-catalogue.pickle"
      = Some (VTable t)
    ∧ files (save_catalogues Site.W0 Cases.crawled Site.empty_disk).2
        !! cd_dat Site.W0 "GeoFabrik-subregion-downloads-catalogue.json"
      = Some (VJson (VTableJson t))
    ∧ NoDup t ∧ NoDup (map Subregion t)
    ∧ (∀ r tbl, tbl ∈ Cases.crawled.2 → r ∈ tbl → r ∈ t)
    ∧ ∀ name ft s0,
        (loc t name ft s0 = (Raise (Exn KeyError name), s0) ∧ name ∉ map Subregion t)
        ∨ ∃ r, r ∈ t ∧ Subregion r = name
               ∧ loc t name ft s0 = (Ret (Scalar (row_format ft r)), s0).
Proof.
  apply (saved_catalogues_are_consistent Site.W0 Cases.crawled.1.1 Cases.crawled.1.2
           Cases.crawled.2 Site.empty_disk).
  vm_compute. reflexivity.
Defined.

(** ** A crawl that does not end *)

Section Cycle.

Context (W : env) (u : string) (t : table).

Hypothesis Hpage : ∀ s, ∃ s', get_subregion_table W u s = (Ret (Some t), s').
Hypothesis Hrows : t ≠ [].
Hypothesis Hlinks : Forall (λ r, SubregionURL r = u) t.

Lemma cycle_pages (urls : list string) (s : state) :
  Forall (λ x, x = u) urls →
  ∃ s', mapM (get_subregion_table W) urls s = (Ret (map (λ _, Some t) urls), s').
Proof.
  intros Hall. revert s. induction Hall as [|x urls -> _ IH]; intros s.
  - by eexists.
  - cbn [mapM]. rewrite run_bind. destruct (Hpage s) as [s1 ->].
    rewrite run_bind. destruct (IH s1) as [s2 ->]. by eexists.
Qed.

Lemma cycle_round (frontier next : list table) (acc : crawl_acc) (s : state) :
  Forall (λ x, x = t) frontier →
  Forall (λ x, x = t) next →
  ∃ next' acc' s',
    foldM (crawl_table W) (next, acc) frontier s = (Ret (next', acc'), s')
    ∧ Forall (λ x, x = t) next'
    ∧ (frontier ≠ [] → next' ≠ []).
Proof.
  intros Hall. revert next acc s. induction Hall as [|x frontier -> _ IH]; intros next acc s Hnext.
  - by exists next, acc, s.
  - cbn [foldM]. rewrite run_bind.
    destruct acc as [[names urls] tables]. unfold crawl_table at 1. rewrite run_bind.
    destruct (cycle_pages (map SubregionURL t) s) as [s1 Hs1].
    { apply Forall_fmap. exact Hlinks. }
    rewrite Hs1. cbn [mret M_ret].
    match goal with |- context [foldM _ (?n, ?a) frontier s1] =>
      destruct (IH n a s1) as (next' & acc' & s' & Hrun & Hall' & Hne)
    end.
    { apply Forall_app. split; [done|].
      clear. induction (map SubregionURL t) as [|? ? IHl]; [constructor|].
      cbn. by constructor. }
    exists next', acc', s'. split; [done|]. split; [done|]. intros _.
    destruct frontier as [|? ?]; [|by apply Hne].
    cbn [foldM mret M_ret] in Hrun. injection Hrun as <- _ _.
    destruct t as [|r t']; [done|]. cbn. by destruct next.
Qed.

Lemma cycle_crawl (rounds : nat) (frontier : list table) (acc : crawl_acc) (s : state) :
  frontier ≠ [] → Forall (λ x, x = t) frontier →
  ∃ s', crawl W rounds frontier acc s = (Diverge, s').
Proof.
  revert frontier acc s. induction rounds as [|rounds IH]; intros frontier acc s Hne Hall;
    destruct frontier as [|x frontier]; try done; cbn [crawl].
  - by eexists.
  - rewrite run_bind.
    destruct (cycle_round (x :: frontier) [] acc s Hall ltac:(constructor))
      as (next' & acc' & s' & -> & Hall' & Hne').
    cbn [fst snd]. apply IH; [by apply Hne'|done].
Qed.

End Cycle.

(** X8. The crawl keeps no record of the pages it has visited.  When a
    page lists, as the page of each of its subregions, itself, a crawl
    that reaches its table never ends: whatever the number of rounds
    followed, tables are left to visit. *)
Theorem crawl_of_a_cycle_never_ends (W : env) (u : string) (t : table) :
  (∀ s, ∃ s', get_subregion_table W u s = (Ret (Some t), s')) →
  t ≠ [] →
  Forall (λ r, SubregionURL r = u) t →
  ∀ rounds acc s, ∃ s', crawl W rounds [t] acc s = (Diverge, s').
Proof.
  intros Hpage Hrows Hlinks rounds acc s.
  apply (cycle_crawl W u t Hpage Hrows Hlinks); [done|]. by repeat constructor.
Qed.

Lemma crawl_of_a_cycle_witness :
  ∃ s', crawl Cases.W_loop 1000 [Cases.loop_table] ([], [], []) Site.empty_disk
        = (Diverge, s').
Proof.
  apply (crawl_of_a_cycle_never_ends Cases.W_loop Cases.loop_url Cases.loop_table).
  - intros s. eexists. reflexivity.
  - discriminate.
  - repeat constructor.
Defined.

(** ** The cache layer, continued *)

Lemma fetch_catalogue_rejects (W : env) (available : list string) (collect : M unit)
    (catalogue_name file_format : string) (update : bool) (s : state) :
  (catalogue_name ∉ available →
     fetch_catalogue W available collect catalogue_name file_format update s
     = (Raise (Exn AssertionError (must_be_one_of "catalogue_name" available)), s))
  ∧ (catalogue_name ∈ available → file_format ∉ [".pickle"; ".json"] →
     fetch_catalogue W available collect catalogue_name file_format update s
     = (Raise (Exn AssertionError (must_be_one_of "file_format" [".pickle"; ".json"])), s)).
Proof.
  unfold fetch_catalogue. split.
  - intros Hn. by rewrite (bool_decide_eq_false_2 (catalogue_name ∈ available)) by done.
  - intros Hn Hf. rewrite (bool_decide_eq_true_2 (catalogue_name ∈ available)) by done.
    by rewrite (bool_decide_eq_false_2 (file_format ∈ _)) by done.
Qed.

(** X9. Both fetches check their arguments before anything else: a
    catalogue name that is not one of theirs, or else a file format that
    is neither of the two, raises [AssertionError] with the message that
    lists the allowed values, and nothing is read, asked or collected. *)
Theorem fetch_rejects_invalid_arguments (W : env) (catalogue_name file_format : string)
    (update : bool) (s : state) :
  (catalogue_name ∉ ["GeoFabrik-subregion-name-list"; "GeoFabrik-subregion-name-url-dictionary";
                     "GeoFabrik-subregion-downloads-catalogue"] →
     fetch_subregion_info_catalogue W catalogue_name file_format update s
     = (Raise (Exn AssertionError
                 (must_be_one_of "catalogue_name"
                    ["GeoFabrik-subregion-name-list"; "GeoFabrik-subregion-name-url-dictionary";
                     "GeoFabrik-subregion-downloads-catalogue"])), s))
  ∧ (catalogue_name ∈ ["GeoFabrik-subregion-name-list"; "GeoFabrik-subregion-name-url-dictionary";
                       "GeoFabrik-subregion-downloads-catalogue"] →
     file_format ∉ [".pickle"; ".json"] →
     fetch_subregion_info_catalogue W catalogue_name file_format update s
     = (Raise (Exn AssertionError (must_be_one_of "file_format" [".pickle"; ".json"])), s))
  ∧ (catalogue_name ∉ ["GeoFabrik-region-subregion-tier"; "GeoFabrik-non-subregion-list"] →
     fetch_region_subregion_tier W catalogue_name file_format update s
     = (Raise (Exn AssertionError
                 (must_be_one_of "catalogue_name"
                    ["GeoFabrik-region-subregion-tier"; "GeoFabrik-non-subregion-list"])), s))
  ∧ (catalogue_name ∈ ["GeoFabrik-region-subregion-tier"; "GeoFabrik-non-subregion-list"] →
     file_format ∉ [".pickle"; ".json"] →
     fetch_region_subregion_tier W catalogue_name file_format update s
     = (Raise (Exn AssertionError (must_be_one_of "file_format" [".pickle"; ".json"])), s)).
Proof.
  unfold fetch_subregion_info_catalogue, fetch_region_subregion_tier.
  repeat split; apply fetch_catalogue_rejects.
Qed.

(** The message for a catalogue that is not one of the three. *)
Example fetch_unknown_catalogue :
  fetch_subregion_info_catalogue Site.W0 "GeoFabrik-region-subregion-tier" ".pickle" true
    Site.empty_disk
  = (Raise (Exn AssertionError
              ("'catalogue_name' must be one of the following: " +:+ Py.nl
                 +:+ "  " +:+ Py.dq +:+ "GeoFabrik-subregion-name-list" +:+ Py.dq +:+ ","
                 +:+ Py.nl
                 +:+ "  " +:+ Py.dq +:+ "GeoFabrik-subregion-name-url-dictionary" +:+ Py.dq
                 +:+ "," +:+ Py.nl
                 +:+ "  " +:+ Py.dq +:+ "GeoFabrik-subregion-downloads-catalogue" +:+ Py.dq
                 +:+ ".")),
     Site.empty_disk).
Proof. reflexivity. Qed.

Lemma run_load_json (path : string) (s : state) (v : value) :
  files s !! path = Some (VJson v) → load_json path s = (Ret v, s).
Proof. intros Hv. unfold load_json. rewrite run_bind. cbn [get_state]. by rewrite Hv. Qed.

Lemma fetch_catalogue_cached_json (W : env) (available : list string) (collect : M unit)
    (catalogue_name : string) (s : state) (v : value) :
  catalogue_name ∈ available →
  files s !! cd_dat W (catalogue_name +:+ ".json") = Some (VJson v) →
  fetch_catalogue W available collect catalogue_name ".json" false s = (Ret (Some v), s).
Proof.
  intros Hin Hv. unfold fetch_catalogue.
  rewrite (bool_decide_eq_true_2 (catalogue_name ∈ available)) by done.
  rewrite (bool_decide_eq_true_2 (".json" ∈ _)) by set_solver.
  rewrite (bool_decide_eq_false_2 (".json" = _)) by done.
  do 3 mstep. rewrite run_isfile.
  rewrite bool_decide_eq_true_2 by (by rewrite Hv).
  cbn [negb orb]. mstep.
  erewrite run_try_ret; [done|].
  rewrite run_bind. by rewrite (run_load_json _ _ _ Hv).
Qed.

(** X10. A catalogue that is on disk in the format asked for is
    returned from there when no update is asked for: the state is left as
    it was, so nothing is asked, requested, printed or written.  It is so
    for both fetches and both formats. *)
Theorem fetch_reads_the_cache (W : env) (catalogue_name : string) (s : state) (v : value) :
  (catalogue_name ∈ ["GeoFabrik-subregion-name-list"; "GeoFabrik-subregion-name-url-dictionary";
                     "GeoFabrik-subregion-downloads-catalogue"] →
     (files s !! cd_dat W (catalogue_name +:+ ".pickle") = Some v → pickled v →
        fetch_subregion_info_catalogue W catalogue_name ".pickle" false s = (Ret (Some v), s))
     ∧ (files s !! cd_dat W (catalogue_name +:+ ".json") = Some (VJson v) →
        fetch_subregion_info_catalogue W catalogue_name ".json" false s = (Ret (Some v), s)))
  ∧ (catalogue_name ∈ ["GeoFabrik-region-subregion-tier"; "GeoFabrik-non-subregion-list"] →
     (files s !! cd_dat W (catalogue_name +:+ ".pickle") = Some v → pickled v →
        fetch_region_subregion_tier W catalogue_name ".pickle" false s = (Ret (Some v), s))
     ∧ (files s !! cd_dat W (catalogue_name +:+ ".json") = Some (VJson v) →
        fetch_region_subregion_tier W catalogue_name ".json" false s = (Ret (Some v), s))).
Proof.
  unfold fetch_subregion_info_catalogue, fetch_region_subregion_tier.
  split; intros Hin; split.
  - intros Hv Hp. by apply fetch_catalogue_present.
  - by apply fetch_catalogue_cached_json.
  - intros Hv Hp. by apply fetch_catalogue_present.
  - by apply fetch_catalogue_cached_json.
Qed.

Lemma fetch_reads_the_cache_witness :
  fetch_subregion_info_catalogue Site.W0 "GeoFabrik-subregion-downloads-catalogue" ".pickle"
    false Site.disk_with_catalogue
  = (Ret (Some (VTable Site.catalogue)), Site.disk_with_catalogue)
  ∧ fetch_region_subregion_tier Site.W0 "GeoFabrik-non-subregion-list" ".pickle" false
      Site.disk_with_tier
    = (Ret (Some (VNames Site.non_subregions)), Site.disk_with_tier).
Proof.
  split.
  - apply (fetch_reads_the_cache Site.W0 "GeoFabrik-subregion-downloads-catalogue"
             Site.disk_with_catalogue (VTable Site.catalogue));
      [set_solver|reflexivity|exact I].
  - apply (fetch_reads_the_cache Site.W0 "GeoFabrik-non-subregion-list"
             Site.disk_with_tier (VNames Site.non_subregions));
      [set_solver|reflexivity|exact I].
Defined.

(** X11. A fetch that has to collect asks the operator first.  When the
    operator declines, nothing is requested from the site and no file is
    written; a catalogue that is missing then makes the fetch print the
    error of the load and return nothing, without raising; a catalogue
    that was to be updated is returned as it is on disk. *)
Theorem fetch_when_collection_is_declined (W : env) (catalogue_name : string)
    (update : bool) (s : state) :
  catalogue_name ∈ ["GeoFabrik-subregion-name-list"; "GeoFabrik-subregion-name-url-dictionary";
                    "GeoFabrik-subregion-downloads-catalogue"] →
  operator W collect_prompt = false →
  let asked := log (Print "The information collection process was not activated.")
                   (log (Prompt collect_prompt) s) in
  (files s !! pickle_of W catalogue_name = None →
     fetch_subregion_info_catalogue W catalogue_name ".pickle" update s
     = (Ret None,
        log (Print ("[Errno 2] No such file or directory: " +:+ pickle_of W catalogue_name))
            asked))
  ∧ (∀ v, files s !! pickle_of W catalogue_name = Some v → pickled v → update = true →
       fetch_subregion_info_catalogue W catalogue_name ".pickle" update s
       = (Ret (Some v), asked)).
Proof.
  intros Hin Hop asked. unfold fetch_subregion_info_catalogue, fetch_catalogue, pickle_of.
  rewrite (bool_decide_eq_true_2 (catalogue_name ∈ _)) by done.
  rewrite (bool_decide_eq_true_2 (".pickle" ∈ _)) by set_solver.
  rewrite (bool_decide_eq_true_2 (".pickle" = _)) by done.
  do 3 mstep. rewrite run_isfile.
  assert (collect_subregion_info_catalogue W true s = (Ret tt, asked)) as Hcollect.
  { unfold collect_subregion_info_catalogue, confirmed. rewrite run_bind, run_bind.
    cbn [emit mret M_ret]. by rewrite Hop. }
  split.
  - intros Hv. rewrite bool_decide_eq_false_2 by (rewrite Hv; by intros [??]).
    cbn [negb orb]. rewrite run_bind, Hcollect.
    unfold try_except, load_pickle. rewrite run_bind, run_bind. cbn [get_state].
    subst asked. cbn [log files]. rewrite Hv. reflexivity.
  - intros v Hv Hp ->. rewrite orb_true_r. rewrite run_bind, Hcollect.
    erewrite run_try_ret; [done|]. rewrite run_bind.
    by rewrite (run_load_pickle _ asked v) by done.
Qed.

Lemma fetch_declined_witness :
  fetch_subregion_info_catalogue Cases.W_declining "GeoFabrik-subregion-name-list" ".pickle"
    false Site.empty_disk
  = (Ret None,
     log (Print ("[Errno 2] No such file or directory: "
                   +:+ pickle_of Cases.W_declining "GeoFabrik-subregion-name-list"))
         (log (Print "The information collection process was not activated.")
              (log (Prompt collect_prompt) Site.empty_disk)))
  ∧ fetch_subregion_info_catalogue Cases.W_declining "GeoFabrik-subregion-name-list" ".pickle"
      true Site.disk_with_names
    = (Ret (Some (VNames Site.names)),
       log (Print "The information collection process was not activated.")
           (log (Prompt collect_prompt) Site.disk_with_names)).
Proof.
  split.
  - apply (fetch_when_collection_is_declined Cases.W_declining "GeoFabrik-subregion-name-list"
             false Site.empty_disk); [set_solver|reflexivity|reflexivity].
  - apply (fetch_when_collection_is_declined Cases.W_declining "GeoFabrik-subregion-name-list"
             true Site.disk_with_names); [set_solver|reflexivity|reflexivity|exact I|reflexivity].
Defined.

(** ** Name resolution and download URL, continued *)

Lemma extractOne_None (W : env) (query : string) (choices : list string) (cutoff : nat) :
  (∀ c, c ∈ choices → WRatio W query c < cutoff) → extractOne W query choices cutoff = None.
Proof.
  intros Hall. unfold extractOne.
  replace (extractWithoutOrder W query choices cutoff) with (@nil (string * nat)); [done|].
  symmetry. unfold extractWithoutOrder.
  induction choices as [|c choices IH]; [done|]. cbn [omap list_omap].
  destruct (Nat.leb_spec cutoff (WRatio W query c)) as [Hle|_].
  - pose proof (Hall c ltac:(by left)). lia.
  - apply IH. intros c' Hc'. apply Hall. by right.
Qed.

(** X12. A name that no name of the list matches with a score of 50 or
    more is not resolved: unpacking the missing match raises [TypeError],
    and the state is left as it was.  It is so, in particular, when the
    list is empty. *)
Theorem regulate_input_subregion_name_no_match (W : env) (s : state) (names : list string)
    (query : string) :
  files s !! pickle_of W "GeoFabrik-subregion-name-list" = Some (VNames names) →
  (∀ c, c ∈ names → WRatio W query c < 50) →
  regulate_input_subregion_name W query s
  = (Raise (Exn TypeError "cannot unpack non-iterable NoneType object"), s).
Proof.
  intros Hv Hall. rewrite (run_regulate _ _ _ _ Hv).
  by rewrite extractOne_None.
Qed.

Lemma regulate_no_match_witness :
  regulate_input_subregion_name Site.W0 "Atlantis" Site.disk_with_names
  = (Raise (Exn TypeError "cannot unpack non-iterable NoneType object"), Site.disk_with_names).
Proof.
  apply (regulate_input_subregion_name_no_match Site.W0 Site.disk_with_names Site.names
           "Atlantis"); [reflexivity|].
  intros c Hc. repeat (apply elem_of_cons in Hc as [->|Hc]; [vm_compute; lia|]).
  by apply elem_of_nil in Hc.
Defined.

Lemma parse_format_None (osm_file_format : string) :
  osm_file_format ∉ [".osm.pbf"; ".shp.zip"; ".osm.bz2"] → parse_format osm_file_format = None.
Proof.
  intros Hn. unfold parse_format, file_types. cbn [List.find ext].
  rewrite !bool_decide_eq_false_2; [done|..]; intros <-; apply Hn; set_solver.
Qed.

Lemma parse_format_ext (ft : file_type) : parse_format (ext ft) = Some ft.
Proof. by destruct ft. Qed.

(** With both catalogues on disk, the URL of a subregion is looked up
    without anything being collected. *)
Lemma run_get_subregion_download_url (W : env) (s : state) (names : list string) (t : table)
    (subregion_name : string) (ft : file_type) :
  files s !! pickle_of W "GeoFabrik-subregion-name-list" = Some (VNames names) →
  files s !! pickle_of W "GeoFabrik-subregion-downloads-catalogue" = Some (VTable t) →
  get_subregion_download_url W subregion_name (ext ft) false s
  = match extractOne W subregion_name names 50 with
    | None => (Raise (Exn TypeError "cannot unpack non-iterable NoneType object"), s)
    | Some (name, _) =>
        match loc t name ft s with
        | (Ret download_url, s') => (Ret (name, download_url), s')
        | (Raise e, s') => (Raise e, s')
        | (Diverge, s') => (Diverge, s')
        end
    end.
Proof.
  intros Hnames Ht. unfold get_subregion_download_url. rewrite parse_format_ext.
  unfold fetch_subregion_info_catalogue. rewrite run_bind.
  rewrite (fetch_catalogue_present W _ _ "GeoFabrik-subregion-downloads-catalogue" s (VTable t));
    [|set_solver|done|done].
  rewrite run_bind, (run_regulate _ _ _ _ Hnames).
  destruct (extractOne W subregion_name names 50) as [[name score]|]; [|done].
  rewrite run_bind. by destruct (loc t name ft s) as [[]].
Qed.

(** X13. The download URL of a subregion.  A format that is none of
    the three raises [AssertionError] before any catalogue is read.  With
    the two catalogues on disk and a name resolved to a name of the list:
    when the downloads catalogue has no row of that name, [KeyError] is
    raised with the name; when it has one row, the cell of the format in
    that row is returned with the name, be the cell missing or not.  The
    state is the same in all three cases. *)
Theorem download_url_lookup (W : env) (s : state) (subregion_name : string)
    (names : list string) (t : table) (name : string) (score : nat) (ft : file_type) :
  files s !! pickle_of W "GeoFabrik-subregion-name-list" = Some (VNames names) →
  files s !! pickle_of W "GeoFabrik-subregion-downloads-catalogue" = Some (VTable t) →
  extractOne W subregion_name names 50 = Some (name, score) →
  (name ∉ map Subregion t →
     get_subregion_download_url W subregion_name (ext ft) false s
     = (Raise (Exn KeyError name), s))
  ∧ (∀ r, List.filter (λ r, bool_decide (Subregion r = name)) t = [r] →
       get_subregion_download_url W subregion_name (ext ft) false s
       = (Ret (name, Scalar (row_format ft r)), s))
  ∧ (∀ osm_file_format update s0,
       osm_file_format ∉ [".osm.pbf"; ".shp.zip"; ".osm.bz2"] →
       ∃ msg, get_subregion_download_url W subregion_name osm_file_format update s0
              = (Raise (Exn AssertionError msg), s0)).
Proof.
  intros Hnames Ht Hname.
  rewrite (run_get_subregion_download_url W s names t) by done. rewrite Hname.
  unfold loc. split; [|split].
  - intros Hn.
    replace (List.filter (λ r, bool_decide (Subregion r = name)) t) with (@nil row); [done|].
    symmetry. clear -Hn. induction t as [|r t IH]; [done|]. cbn [List.filter].
    rewrite bool_decide_eq_false_2.
    + apply IH. intros Hin. apply Hn. cbn [map]. by right.
    + intros Heq. apply Hn. cbn [map]. rewrite Heq. by left.
  - intros r ->. done.
  - intros osm_file_format update s0 Hn. unfold get_subregion_download_url.
    rewrite parse_format_None by done. by eexists.
Qed.

Lemma download_url_lookup_witness :
  get_subregion_download_url Site.W0 "kent" ".osm.pbf" false Site.disk_with_catalogue
  = (Raise (Exn KeyError "Kent"), Site.disk_with_catalogue)
  ∧ get_subregion_download_url Site.W0 "greater london" ".shp.zip" false
      Site.disk_with_catalogue
    = (Ret ("Greater London", Scalar None), Site.disk_with_catalogue)
  ∧ ∃ msg, get_subregion_download_url Site.W0 "kent" ".osm" false Site.disk_with_catalogue
           = (Raise (Exn AssertionError msg), Site.disk_with_catalogue).
Proof.
  destruct (download_url_lookup Site.W0 Site.disk_with_catalogue "kent" Site.names
              Site.catalogue "Kent" 100 OsmPbf eq_refl eq_refl eq_refl)
    as (Hkent & _ & Hformat).
  destruct (download_url_lookup Site.W0 Site.disk_with_catalogue "greater london" Site.names
              Site.catalogue "Greater London" 100 ShpZip eq_refl eq_refl eq_refl)
    as (_ & Hlondon & _).
  split; [|split].
  - apply Hkent. vm_compute. set_solver.
  - apply (Hlondon (Row "Greater London"
                        (Site.root +:+ "europe/great-britain/england/greater-london.html")
                        (Some Site.greater_london_pbf) (Some "81 MB") None None)).
    reflexivity.
  - apply Hformat. vm_compute. set_solver.
Defined.

(** X14. A subregion whose row in the downloads catalogue has no URL for
    the format asked for stops the whole call: computing the target path
    from the missing URL raises, before anything is asked or downloaded,
    and the names that follow are not processed.  The error is an
    [AttributeError] with the default directory and a [TypeError] with a
    directory given. *)
Theorem missing_format_stops_the_downloads (W : env) (s : state) (names : list string)
    (t : table) (sub_reg_name name : string) (score score' : nat) (r : row) (ft : file_type)
    (others : list string) (update download_confirmation_required verbose : bool) :
  files s !! pickle_of W "GeoFabrik-subregion-name-list" = Some (VNames names) →
  files s !! pickle_of W "GeoFabrik-subregion-downloads-catalogue" = Some (VTable t) →
  extractOne W sub_reg_name names 50 = Some (name, score) →
  extractOne W name names 50 = Some (name, score') →
  List.filter (λ r, bool_decide (Subregion r = name)) t = [r] →
  row_format ft r = None →
  (∃ msg, download_subregion_osm_file W (sub_reg_name :: others) (ext ft) None update
            download_confirmation_required verbose s
          = (Raise (Exn AttributeError msg), s))
  ∧ ∀ c d, ∃ msg s',
      download_subregion_osm_file W (sub_reg_name :: others) (ext ft) (Some (String c d)) update
        download_confirmation_required verbose s
      = (Raise (Exn TypeError msg), s')
      ∧ files s' = files s ∧ trace s' = trace s.
Proof.
  intros Hnames Ht Hq Hname Hrow Hcell.
  assert (∀ q sc, extractOne W q names 50 = Some (name, sc) →
            get_subregion_download_url W q (ext ft) false s = (Ret (name, Scalar None), s))
    as Hurl.
  { intros q sc Hqq. rewrite (run_get_subregion_download_url W s names t) by done.
    rewrite Hqq. unfold loc. rewrite Hrow. cbn [mret M_ret]. by rewrite Hcell. }
  split.
  - eexists. rewrite download_subregion_osm_file_cons, run_bind.
    unfold download_one. rewrite run_bind. unfold resolve_target.
    rewrite run_bind, (Hurl _ _ Hq). rewrite run_bind.
    unfold get_default_path_to_osm_file. rewrite run_bind, (Hurl _ _ Hname).
    rewrite run_bind. reflexivity.
  - intros c d. do 2 eexists. rewrite download_subregion_osm_file_cons, run_bind.
    unfold download_one. rewrite run_bind. unfold resolve_target.
    rewrite run_bind, (Hurl _ _ Hq). rewrite run_bind.
    unfold regulate_input_data_dir. rewrite run_bind. unfold modify. cbn [mret M_ret].
    rewrite run_bind. unfold get_default_osm_filename. rewrite run_bind.
    assert (∀ dirs', get_subregion_download_url W name (ext ft) false (set_dirs dirs' s)
                     = (Ret (name, Scalar None), set_dirs dirs' s)) as Hurl'.
    { intros dirs'. rewrite (run_get_subregion_download_url W _ names t) by done.
      rewrite Hname. unfold loc. rewrite Hrow. cbn [mret M_ret]. by rewrite Hcell. }
    rewrite Hurl'. rewrite run_bind. cbn [snd as_str raise].
    split; [reflexivity|]. done.
Qed.

Lemma missing_format_witness :
  (∃ msg, download_subregion_osm_file Site.W0 ["greater london"; "malta"] ".shp.zip" None
            false false true Site.disk_with_catalogue
          = (Raise (Exn AttributeError msg), Site.disk_with_catalogue))
  ∧ ∀ c d, ∃ msg s',
      download_subregion_osm_file Site.W0 ["greater london"; "malta"] ".shp.zip"
        (Some (String c d)) false false true Site.disk_with_catalogue
      = (Raise (Exn TypeError msg), s')
      ∧ files s' = files Site.disk_with_catalogue ∧ trace s' = trace Site.disk_with_catalogue.
Proof.
  apply (missing_format_stops_the_downloads Site.W0 Site.disk_with_catalogue Site.names
           Site.catalogue "greater london" "Greater London" 100 100
           (Row "Greater London" (Site.root +:+ "europe/great-britain/england/greater-london.html")
                (Some Site.greater_london_pbf) (Some "81 MB") None None)
           ShpZip ["malta"] false false true); reflexivity.
Defined.

(** ** Subregion name retrieval, continued *)

Lemma tier_keys_cons (k : string) (v : tier) (rest : list (string * tier)) :
  tier_keys (Nested ((k, v) :: rest)) = k :: tier_keys v ++ tier_keys (Nested rest).
Proof. reflexivity. Qed.

Lemma find_in_cons (name k : string) (v : tier) (rest : list (string * tier)) :
  find_in name (Nested ((k, v) :: rest))
  = (if bool_decide (name = k) then
       match v with
       | Nested items' => [map fst items']
       | Terminal => [[name]]
       end
     else find_in name v) ++ find_in name (Nested rest).
Proof. reflexivity. Qed.

Lemma tier_keys_top (items : list (string * tier)) (x : string) :
  x ∈ map fst items → x ∈ tier_keys (Nested items).
Proof.
  induction items as [|[k v] items IH]; cbn [map fst]; [by intros ?%elem_of_nil|].
  rewrite tier_keys_cons. intros [->|Hin]%elem_of_cons; [by left|].
  right. apply elem_of_app. right. by apply IH.
Qed.

Lemma find_in_yields_keys (reg_name : string) (v : tier) (l : list string) :
  l ∈ find_in reg_name v →
  reg_name ∈ tier_keys v ∧ ∀ x, x ∈ l → x ∈ tier_keys v.
Proof.
  revert l.
  induction v as [|items IH| |k v rest IHv IHrest] using tier_items_ind
    with (Q := λ items, ∀ l, l ∈ find_in reg_name (Nested items) →
                 reg_name ∈ tier_keys (Nested items)
                 ∧ ∀ x, x ∈ l → x ∈ tier_keys (Nested items)).
  - by intros l ?%elem_of_nil.
  - exact IH.
  - by intros l ?%elem_of_nil.
  - intros l. rewrite find_in_cons, tier_keys_cons.
    intros [Hl|Hl]%elem_of_app.
    + destruct (bool_decide_reflect (reg_name = k)) as [->|Hne].
      * split; [by left|]. destruct v as [|items'].
        -- apply list_elem_of_singleton in Hl as ->.
           intros x ->%list_elem_of_singleton. by left.
        -- apply list_elem_of_singleton in Hl as ->.
           intros x Hx. right. apply elem_of_app. left. by apply tier_keys_top.
      * destruct (IHv l Hl) as [Hname Hall]. split.
        -- right. apply elem_of_app. by left.
        -- intros x Hx. right. apply elem_of_app. left. by apply Hall.
    + destruct (IHrest l Hl) as [Hname Hall]. split.
      * right. apply elem_of_app. by right.
      * intros x Hx. right. apply elem_of_app. right. by apply Hall.
Qed.

(** X15. The generator yields only names of the tier: every list it
    yields is made of keys found somewhere in the tier, and it yields
    nothing unless the name searched is itself one of the keys. *)
Theorem find_subregions_yields_keys (reg_name : string) (reg_sub_idx : list (string * tier))
    (l : list string) :
  l ∈ find_subregions reg_name reg_sub_idx →
  reg_name ∈ tier_keys (Nested reg_sub_idx)
  ∧ ∀ x, x ∈ l → x ∈ tier_keys (Nested reg_sub_idx).
Proof. apply find_in_yields_keys. Qed.

Lemma find_subregions_witness :
  "England" ∈ tier_keys (Nested Site.tier_of_europe)
  ∧ ∀ x, x ∈ ["Greater London"; "Kent"] → x ∈ tier_keys (Nested Site.tier_of_europe).
Proof.
  apply (find_subregions_yields_keys "England" Site.tier_of_europe ["Greater London"; "Kent"]).
  vm_compute. set_solver.
Defined.

(** The call unfolded once, the two catalogues of the tier being on
    disk. *)
Lemma retrieve_unfold (W : env) (s : state) (non_subregions : list string)
    (tier_ : list (string * tier)) (depth : nat) (q : string) (names : list string) :
  files s !! pickle_of W "GeoFabrik-non-subregion-list" = Some (VNames non_subregions) →
  files s !! pickle_of W "GeoFabrik-region-subregion-tier" = Some (VTier tier_) →
  retrieve W (S depth) (q :: names) s
  = (result ← (res ← foldM (first_of W (Some (VTier tier_))) [] (q :: names);
               check_list ← not_in_list res (Some (VNames non_subregions));
               match check_list with
               | [] => mret res
               | _ :: _ =>
                   foldM (expand_with (retrieve W depth))
                         (set_iter W (list_to_set res ∖ list_to_set check_list)) check_list
               end);
     mret (Py.dict_fromkeys result)) s.
Proof.
  intros Hnon Htier. cbn [retrieve]. unfold fetch_region_subregion_tier.
  rewrite run_bind.
  rewrite (fetch_catalogue_present W _ _ "GeoFabrik-non-subregion-list" s
             (VNames non_subregions)); [|set_solver|done|done].
  rewrite run_bind, run_bind.
  rewrite (fetch_catalogue_present W _ _ "GeoFabrik-region-subregion-tier" s (VTier tier_));
    [|set_solver|done|done].
  by rewrite !run_bind.
Qed.

(** X16. A name that resolves to a name of the list which is no key of
    the tier, at any depth, makes the retrieval raise [IndexError]: the
    generator yields nothing, and its first item is asked for. *)
Theorem retrieve_unknown_region (W : env) (s : state)
    (canonical non_subregions : list string) (tier_ : list (string * tier))
    (region name : string) (others : list string) :
  files s !! pickle_of W "GeoFabrik-subregion-name-list" = Some (VNames canonical) →
  files s !! pickle_of W "GeoFabrik-non-subregion-list" = Some (VNames non_subregions) →
  files s !! pickle_of W "GeoFabrik-region-subregion-tier" = Some (VTier tier_) →
  resolve_name W canonical region = Some name →
  name ∉ tier_keys (Nested tier_) →
  retrieve_subregion_names_from W (region :: others) s
  = (Raise (Exn IndexError "list index out of range"), s).
Proof.
  intros Hcanonical Hnon Htier Hname Hkey. unfold retrieve_subregion_names_from.
  rewrite (retrieve_unfold W s non_subregions tier_) by done.
  rewrite run_bind, run_bind. cbn [foldM]. rewrite run_bind.
  unfold first_of at 1. rewrite run_bind, (run_regulate _ _ _ _ Hcanonical).
  unfold resolve_name in Hname.
  destruct (extractOne W region canonical 50) as [[n sc]|]; [|done].
  injection Hname as ->. rewrite run_bind. cbn [as_tier mret M_ret].
  destruct (find_subregions name tier_) as [|first rest] eqn:Hfind; [done|].
  exfalso. apply Hkey.
  destruct (find_in_yields_keys name (Nested tier_) first) as [Hin _]; [|done].
  fold (find_subregions name tier_).
  rewrite Hfind. by left.
Qed.

Lemma retrieve_unknown_region_witness :
  retrieve_subregion_names_from Site.W0 ["kent"; "malta"] Cases.disk_with_partial_tier
  = (Raise (Exn IndexError "list index out of range"), Cases.disk_with_partial_tier).
Proof.
  apply (retrieve_unknown_region Site.W0 Cases.disk_with_partial_tier Site.names ["Malta"]
           [("Europe", Nested [("Malta", Terminal)])] "kent" "Kent" ["malta"]);
    try reflexivity.
  vm_compute. set_solver.
Defined.

(** X17. A name that is a terminal key of the tier but is missing from the
    non-subregion list is taken for a region still to expand, and expands
    to itself: the retrieval calls itself with the same name until
    Python's recursion limit is hit, whatever that limit is. *)
Theorem retrieve_never_ends_on_unlisted_terminal (W : env) (s : state)
    (canonical non_subregions : list string) (tier_ : list (string * tier)) (name : string) :
  files s !! pickle_of W "GeoFabrik-subregion-name-list" = Some (VNames canonical) →
  files s !! pickle_of W "GeoFabrik-non-subregion-list" = Some (VNames non_subregions) →
  files s !! pickle_of W "GeoFabrik-region-subregion-tier" = Some (VTier tier_) →
  resolve_name W canonical name = Some name →
  tier_entry tier_ name = Some Terminal →
  name ∉ non_subregions →
  (∀ depth, retrieve W depth [name] s
            = (Raise (Exn RecursionError "maximum recursion depth exceeded"), s))
  ∧ retrieve_subregion_names_from W [name] s
    = (Raise (Exn RecursionError "maximum recursion depth exceeded"), s).
Proof.
  intros Hcanonical Hnon Htier Hname Hentry Hunlisted.
  assert (∀ depth, retrieve W depth [name] s
            = (Raise (Exn RecursionError "maximum recursion depth exceeded"), s)) as Hall.
  { induction depth as [|depth IH]; [done|].
    rewrite (retrieve_unfold W s non_subregions tier_) by done.
    rewrite run_bind, run_bind. cbn [foldM]. rewrite run_bind.
    unfold first_of at 1. rewrite run_bind, (run_regulate _ _ _ _ Hcanonical).
    unfold resolve_name in Hname.
    destruct (extractOne W name canonical 50) as [[n sc]|]; [|done].
    injection Hname as ->. rewrite run_bind. cbn [as_tier mret M_ret].
    pose proof (find_subregions_head tier_ name) as Hhead. rewrite Hentry in Hhead.
    destruct (find_subregions name tier_) as [|first rest]; [done|].
    injection Hhead as ->. cbn [mret M_ret app].
    rewrite run_bind. unfold not_in_list. cbn [List.filter mret M_ret].
    rewrite bool_decide_eq_true_2 by done.
    cbn [foldM]. rewrite run_bind. unfold expand_with. rewrite run_bind, IH. done. }
  split; [done|]. apply Hall.
Qed.

Lemma retrieve_never_ends_witness :
  (∀ depth, retrieve Site.W0 depth ["Kent"] Cases.disk_unlisted_terminal
            = (Raise (Exn RecursionError "maximum recursion depth exceeded"),
               Cases.disk_unlisted_terminal))
  ∧ retrieve_subregion_names_from Site.W0 ["Kent"] Cases.disk_unlisted_terminal
    = (Raise (Exn RecursionError "maximum recursion depth exceeded"),
       Cases.disk_unlisted_terminal).
Proof.
  apply (retrieve_never_ends_on_unlisted_terminal Site.W0 Cases.disk_unlisted_terminal
           Site.names ["Greater London"; "Scotland"; "Malta"] Site.tier_of_europe "Kent");
    try reflexivity.
  vm_compute. set_solver.
Defined.

(** ** Downloading, continued *)

Section DownloadOne.

Context (W : env) (osm_file_format : string) (download_dir : option string)
        (update download_confirmation_required verbose : bool)
        (sub_reg_name : string) (s s1 : state)
        (subregion_name_ url osm_filename path_to_file : string).

Hypothesis Hresolve :
  resolve_target W sub_reg_name osm_file_format download_dir s
  = (Ret (subregion_name_, Scalar (Some url), osm_filename, path_to_file), s1).
Hypothesis Hdue : files s1 !! path_to_file = None ∨ update = true.

Lemma run_download_one_agreed :
  (download_confirmation_required = true →
   operator W (to_download osm_file_format subregion_name_) = true) →
  download_one W osm_file_format download_dir update download_confirmation_required verbose
               sub_reg_name s
  = try_except
      (download W url path_to_file;;
       print (done_line (if bool_decide (is_Some (files s1 !! path_to_file))
                         then "Updating" else "Downloading") osm_filename subregion_name_);;
       print (check_out_line path_to_file))
      [Exception]
      (λ e, print (failed_to_download osm_filename e))
      (agreed download_confirmation_required osm_file_format subregion_name_ s1).
Proof.
  intros Hop. unfold download_one. rewrite run_bind, Hresolve.
  rewrite run_bind, run_isfile.
  assert (bool_decide (is_Some (files s1 !! path_to_file)) && negb update = false) as ->.
  { destruct Hdue as [-> | ->]; [|by rewrite andb_false_r].
    rewrite bool_decide_eq_false_2; [done|]. by intros [??]. }
  rewrite run_bind. unfold confirmed, agreed. fold (to_download osm_file_format subregion_name_).
  destruct download_confirmation_required.
  - rewrite run_bind. cbn [emit mret M_ret]. rewrite Hop by done.
    rewrite run_bind, run_isfile. cbn [log files].
    unfold try_except. rewrite !run_bind. cbn [as_str mret M_ret]. rewrite !run_bind.
    by destruct (bool_decide (is_Some (files s1 !! path_to_file))).
  - cbn [mret M_ret]. rewrite run_bind, run_isfile.
    unfold try_except. rewrite !run_bind. cbn [as_str mret M_ret]. rewrite !run_bind.
    by destruct (bool_decide (is_Some (files s1 !! path_to_file))).
Qed.


(** X18. A download that goes ahead and succeeds: the target file is not
    there yet, or [update] is true; the operator agrees, if asked; the
    site serves the URL.  Then the file holds what the site serves, one
    download is requested, of that URL to that path, and two lines are
    printed, the first saying Updating when the file was there before and
    Downloading otherwise. *)
Theorem download_writes_the_file (content : string) :
  (download_confirmation_required = true →
   operator W (to_download osm_file_format subregion_name_) = true) →
  remote_file W url = inr content →
  ∃ s2,
    download_one W osm_file_format download_dir update download_confirmation_required verbose
                 sub_reg_name s = (Ret tt, s2)
    ∧ files s2 = <[path_to_file := VBlob content]> (files s1)
    ∧ trace s2
      = trace (agreed download_confirmation_required osm_file_format subregion_name_ s1)
        ++ [Download url path_to_file;
            Print (done_line (if bool_decide (is_Some (files s1 !! path_to_file))
                              then "Updating" else "Downloading") osm_filename subregion_name_);
            Print (check_out_line path_to_file)].
Proof.
  intros Hop Hremote. rewrite run_download_one_agreed by done.
  unfold try_except, download. rewrite !run_bind. cbn [emit]. rewrite !run_bind, Hremote.
  cbn [call mret M_ret]. rewrite !run_bind. unfold modify. cbn [print emit].
  eexists. split; [reflexivity|]. cbn [log set_files set_dirs files trace].
  split.
  - unfold agreed. by destruct download_confirmation_required.
  - by rewrite <- !app_assoc.
Qed.

(** X19. A download that fails: the error of the transfer is caught and
    reported by one line, the files are as they were, and the loop goes on
    with the names that are left. *)
Theorem failed_download_is_reported (e : exn) (others : list string) :
  (download_confirmation_required = true →
   operator W (to_download osm_file_format subregion_name_) = true) →
  remote_file W url = inl e →
  let s2 := log (Print (failed_to_download osm_filename e))
                (log (Download url path_to_file)
                     (agreed download_confirmation_required osm_file_format subregion_name_ s1)) in
  download_one W osm_file_format download_dir update download_confirmation_required verbose
               sub_reg_name s = (Ret tt, s2)
  ∧ files s2 = files s1
  ∧ download_subregion_osm_file W (sub_reg_name :: others) osm_file_format download_dir
      update download_confirmation_required verbose s
    = download_subregion_osm_file W others osm_file_format download_dir
        update download_confirmation_required verbose s2.
Proof.
  intros Hop Hremote s2.
  assert (download_one W osm_file_format download_dir update download_confirmation_required
            verbose sub_reg_name s = (Ret tt, s2)) as Hone.
  { rewrite run_download_one_agreed by done.
    unfold try_except, download. rewrite !run_bind. cbn [emit]. rewrite !run_bind, Hremote.
    cbn [call reraise]. unfold handled_by. by destruct e as [[] ?]. }
  split; [done|]. split.
  - subst s2. cbn [log files]. unfold agreed. by destruct download_confirmation_required.
  - by rewrite download_subregion_osm_file_cons, run_bind, Hone.
Qed.

(** X20. A download that the operator declines: the notice is printed,
    no download is requested and no file is written. *)
Theorem declined_download :
  download_confirmation_required = true →
  operator W (to_download osm_file_format subregion_name_) = false →
  download_one W osm_file_format download_dir update download_confirmation_required verbose
               sub_reg_name s
  = (Ret tt, log (Print "The downloading process was not activated.")
                 (log (Prompt (to_download osm_file_format subregion_name_)) s1)).
Proof.
  intros -> Hop. unfold download_one. rewrite run_bind, Hresolve.
  rewrite run_bind, run_isfile.
  assert (bool_decide (is_Some (files s1 !! path_to_file)) && negb update = false) as ->.
  { destruct Hdue as [-> | ->]; [|by rewrite andb_false_r].
    rewrite bool_decide_eq_false_2; [done|]. by intros [??]. }
  rewrite run_bind. unfold confirmed. fold (to_download osm_file_format subregion_name_).
  rewrite run_bind. cbn [emit mret M_ret]. by rewrite Hop.
Qed.

End DownloadOne.

Lemma download_writes_the_file_witness :
  ∃ s2,
    download_one Site.W0 ".osm.pbf" None false false true "malta" Site.disk_with_catalogue
    = (Ret tt, s2)
    ∧ files s2
      = <[Site.malta_pbf := VBlob ("content of " +:+ Site.root +:+ "europe/malta-latest.osm.pbf")]>
          (files (resolve_target Site.W0 "malta" ".osm.pbf" None Site.disk_with_catalogue).2)
    ∧ trace s2
      = trace (agreed false ".osm.pbf" "Malta"
                 (resolve_target Site.W0 "malta" ".osm.pbf" None Site.disk_with_catalogue).2)
        ++ [Download (Site.root +:+ "europe/malta-latest.osm.pbf") Site.malta_pbf;
            Print (done_line
                     (if bool_decide
                           (is_Some (files (resolve_target Site.W0 "malta" ".osm.pbf" None
                                              Site.disk_with_catalogue).2 !! Site.malta_pbf))
                      then "Updating" else "Downloading") "malta-latest.osm.pbf" "Malta");
            Print (check_out_line Site.malta_pbf)].
Proof.
  apply (download_writes_the_file Site.W0 ".osm.pbf" None false false true "malta"
           Site.disk_with_catalogue _ "Malta" (Site.root +:+ "europe/malta-latest.osm.pbf")
           "malta-latest.osm.pbf" Site.malta_pbf).
  - vm_compute. reflexivity.
  - left. reflexivity.
  - discriminate.
  - reflexivity.
Defined.

(** The whole call on the small site: what is printed, requested and
    written. *)
Example download_malta :
  let r := download_subregion_osm_file Site.W0 ["malta"] ".osm.pbf" None false false true
             Site.disk_with_catalogue in
  r.1 = Ret tt
  ∧ trace r.2
    = [Download (Site.root +:+ "europe/malta-latest.osm.pbf") Site.malta_pbf;
       Print (done_line "Downloading" "malta-latest.osm.pbf" "Malta");
       Print (check_out_line Site.malta_pbf)]
  ∧ files r.2 !! Site.malta_pbf
    = Some (VBlob ("content of " +:+ Site.root +:+ "europe/malta-latest.osm.pbf")).
Proof. vm_compute. done. Qed.

Lemma failed_download_witness :
  download_one Cases.W_no_transfer ".osm.pbf" None false false true "malta"
    Site.disk_with_catalogue
  = (Ret tt,
     log (Print (failed_to_download "malta-latest.osm.pbf" Site.unreachable))
         (log (Download (Site.root +:+ "europe/malta-latest.osm.pbf") Site.malta_pbf)
              (agreed false ".osm.pbf" "Malta"
                 (resolve_target Cases.W_no_transfer "malta" ".osm.pbf" None
                    Site.disk_with_catalogue).2)))
  ∧ files (log (Print (failed_to_download "malta-latest.osm.pbf" Site.unreachable))
               (log (Download (Site.root +:+ "europe/malta-latest.osm.pbf") Site.malta_pbf)
                    (agreed false ".osm.pbf" "Malta"
                       (resolve_target Cases.W_no_transfer "malta" ".osm.pbf" None
                          Site.disk_with_catalogue).2)))
    = files (resolve_target Cases.W_no_transfer "malta" ".osm.pbf" None
               Site.disk_with_catalogue).2
  ∧ download_subregion_osm_file Cases.W_no_transfer ["malta"; "greater london"] ".osm.pbf" None
      false false true Site.disk_with_catalogue
    = download_subregion_osm_file Cases.W_no_transfer ["greater london"] ".osm.pbf" None
        false false true
        (log (Print (failed_to_download "malta-latest.osm.pbf" Site.unreachable))
             (log (Download (Site.root +:+ "europe/malta-latest.osm.pbf") Site.malta_pbf)
                  (agreed false ".osm.pbf" "Malta"
                     (resolve_target Cases.W_no_transfer "malta" ".osm.pbf" None
                        Site.disk_with_catalogue).2))).
Proof.
  apply (failed_download_is_reported Cases.W_no_transfer ".osm.pbf" None false false true
           "malta" Site.disk_with_catalogue _ "Malta"
           (Site.root +:+ "europe/malta-latest.osm.pbf") "malta-latest.osm.pbf" Site.malta_pbf).
  - vm_compute. reflexivity.
  - left. reflexivity.
  - discriminate.
  - reflexivity.
Defined.

Lemma declined_download_witness :
  download_one Cases.W_declining ".osm.pbf" None false true true "malta"
    Site.disk_with_catalogue
  = (Ret tt,
     log (Print "The downloading process was not activated.")
         (log (Prompt (to_download ".osm.pbf" "Malta"))
              (resolve_target Cases.W_declining "malta" ".osm.pbf" None
                 Site.disk_with_catalogue).2)).
Proof.
  apply (declined_download Cases.W_declining ".osm.pbf" None false true true "malta"
           Site.disk_with_catalogue _ "Malta"
           (Site.root +:+ "europe/malta-latest.osm.pbf") "malta-latest.osm.pbf" Site.malta_pbf).
  - vm_compute. reflexivity.
  - left. reflexivity.
  - reflexivity.
  - reflexivity.
Defined.

(** X21. With [update] false no file that is on disk is overwritten or
    removed, whatever the names asked for, whatever the operator answers
    and whatever fails: each file, the five catalogue files apart, holds
    after the call what it held before. *)
Theorem update_false_never_overwrites (W : env) (subregion_name : list string)
    (osm_file_format : string) (download_dir : option string)
    (download_confirmation_required verbose : bool) (s : state) (p : string) (v : value) :
  p ∉ catalogue_files W →
  files s !! p = Some v →
  files (download_subregion_osm_file W subregion_name osm_file_format download_dir false
           download_confirmation_required verbose s).2 !! p = Some v.
Proof. apply download_keeps_files. Qed.

Lemma update_false_witness :
  files (download_subregion_osm_file Site.W0 ["malta"; "greater london"] ".osm.pbf" None false
           false true Site.disk_with_download).2 !! Site.malta_pbf
  = Some (VBlob "osm").
Proof.
  apply (update_false_never_overwrites Site.W0 ["malta"; "greater london"] ".osm.pbf" None
           false true Site.disk_with_download Site.malta_pbf (VBlob "osm")).
  - vm_compute. set_solver.
  - reflexivity.
Defined.

(** ** The events a computation adds to the trace *)

Section Emits.

Context (P : event → Prop).

Lemma emits_nothing {A} (m : M A) : (∀ s, trace (m s).2 = trace s) → emits P m.
Proof. intros H s. exists []. by rewrite app_nil_r, H. Qed.

Lemma emits_ret {A} (a : A) : emits P (mret a).
Proof. by apply emits_nothing. Qed.

Lemma emits_raise {A} (k : exn_class) (msg : string) : emits P (@raise A k msg).
Proof. by apply emits_nothing. Qed.

Lemma emits_reraise {A} (e : exn) : emits P (@reraise A e).
Proof. by apply emits_nothing. Qed.

Lemma emits_diverge {A} : emits P (@diverge A).
Proof. by apply emits_nothing. Qed.

Lemma emits_get_state : emits P get_state.
Proof. by apply emits_nothing. Qed.

Lemma emits_call {A} (r : exn + A) : emits P (call r).
Proof. apply emits_nothing. by destruct r. Qed.

Lemma emits_set_files (f : gmap string value → gmap string value) :
  emits P (modify (set_files f)).
Proof. by apply emits_nothing. Qed.

Lemma emits_set_dirs (f : gset string → gset string) : emits P (modify (set_dirs f)).
Proof. by apply emits_nothing. Qed.

Lemma emits_emit (e : event) : P e → emits P (emit e).
Proof. intros He s. exists [e]. split; [done|]. by constructor. Qed.

Lemma emits_bind {A B} (m : M A) (f : A → M B) :
  emits P m → (∀ a, emits P (f a)) → emits P (m ≫= f).
Proof.
  intros Hm Hf s. rewrite run_bind. destruct (Hm s) as (evs & Ht & He).
  destruct (m s) as [[a|e|] s']; cbn [snd] in *; [|by exists evs..].
  destruct (Hf a s') as (evs' & Ht' & He'). exists (evs ++ evs').
  rewrite Ht', Ht, app_assoc. split; [done|]. by apply Forall_app.
Qed.

Lemma emits_try {A} (m : M A) (ks : list exn_class) (h : exn → M A) :
  emits P m → (∀ e, emits P (h e)) → emits P (try_except m ks h).
Proof.
  intros Hm Hh s. unfold try_except. destruct (Hm s) as (evs & Ht & He).
  destruct (m s) as [[a|e|] s']; cbn [snd] in *; [by exists evs| |by exists evs].
  destruct (handled_by ks e); [|by exists evs].
  destruct (Hh e s') as (evs' & Ht' & He'). exists (evs ++ evs').
  rewrite Ht', Ht, app_assoc. split; [done|]. by apply Forall_app.
Qed.

Lemma emits_mapM {A B} (f : A → M B) (l : list A) :
  (∀ a, emits P (f a)) → emits P (mapM f l).
Proof.
  intros Hf. induction l as [|x l IH]; cbn [mapM]; [apply emits_ret|].
  apply emits_bind; [done|]. intros y.
  apply emits_bind; [done|]. intros ys. apply emits_ret.
Qed.

Lemma emits_foldM {A B} (f : B → A → M B) (b : B) (l : list A) :
  (∀ b a, emits P (f b a)) → emits P (foldM f b l).
Proof.
  intros Hf. revert b. induction l as [|x l IH]; intros b; cbn [foldM];
    [apply emits_ret|].
  apply emits_bind; [done|]. intros b'. apply IH.
Qed.

End Emits.

Create HintDb emits.

#[export] Hint Resolve emits_ret emits_raise emits_reraise emits_diverge
  emits_get_state emits_call emits_set_files emits_set_dirs : emits.
#[export] Hint Extern 1 (emits _ (emit _)) => apply emits_emit; reflexivity : emits.
#[export] Hint Extern 1 (emits _ (print _)) => apply emits_emit; reflexivity : emits.

Ltac emits_step :=
  lazymatch goal with
  | |- emits _ (mbind _ _) => apply emits_bind; [|intros ?]
  | |- emits _ (try_except _ _ _) => apply emits_try; [|intros ?]
  | |- emits _ (mapM _ _) => apply emits_mapM; intros ?
  | |- emits _ (foldM _ _ _) => apply emits_foldM; intros ? ?
  | |- emits _ (match ?x with _ => _ end) => destruct x
  | |- emits _ (let '(_, _) := ?x in _) => destruct x
  | |- emits _ _ => solve [auto with emits]
  end.
Ltac emits_auto := repeat emits_step.

Section NoSleep.

Context (W : env).

Local Abbreviation awake := (emits (λ e, is_sleep e = false)).

Lemma awake_get_subregion_table (url : string) : awake (get_subregion_table W url).
Proof.
  unfold get_subregion_table, parse_subregion_page, with_canonical_columns,
    assign_format_urls, loc_notnull_assign, subregion_page_urls, subscript_href,
    assign_SubregionURL.
  emits_auto.
Qed.

Lemma awake_crawl (rounds : nat) (tables : list table) (acc : crawl_acc) :
  awake (crawl W rounds tables acc).
Proof.
  revert tables acc. induction rounds as [|rounds IH]; intros tables acc;
    destruct tables as [|t tables]; cbn [crawl]; auto with emits.
  apply emits_bind; [|intros st; apply IH].
  apply emits_foldM. intros [next [[names urls] tbls]] tbl. unfold crawl_table.
  apply emits_bind; [|intros ?; auto with emits].
  apply emits_mapM. intros url. apply awake_get_subregion_table.
Qed.

Lemma awake_collect (confirmation_required : bool) :
  awake (collect_subregion_info_catalogue W confirmation_required).
Proof.
  unfold collect_subregion_info_catalogue, confirmed, crawl_and_save, crawl_site,
    save_catalogues, pd_concat, to_json_by_Subregion, td_a_text, subscript_href,
    save_pickle, save_json.
  pose proof awake_get_subregion_table. pose proof awake_crawl.
  emits_auto.
Qed.

Lemma awake_fetch (name file_format : string) (update : bool) :
  awake (fetch_subregion_info_catalogue W name file_format update).
Proof.
  unfold fetch_subregion_info_catalogue, fetch_catalogue, os_path_isfile, load_pickle, load_json.
  pose proof awake_collect. emits_auto.
Qed.

Lemma awake_resolve_target (sub_reg_name osm_file_format : string)
    (download_dir : option string) :
  awake (resolve_target W sub_reg_name osm_file_format download_dir).
Proof.
  unfold resolve_target, get_default_path_to_osm_file, get_default_osm_filename,
    get_subregion_download_url, regulate_input_subregion_name, loc,
    regulate_input_data_dir, as_str, choices_of, os_path_exists, os_makedirs.
  pose proof awake_fetch. emits_auto.
Qed.

Lemma awake_download_subregion_osm_file (subregion_name : list string)
    (osm_file_format : string) (download_dir : option string)
    (update download_confirmation_required verbose : bool) :
  awake (download_subregion_osm_file W subregion_name osm_file_format download_dir update
           download_confirmation_required verbose).
Proof.
  unfold download_subregion_osm_file, download_one, confirmed, os_path_isfile, download, as_str.
  pose proof awake_resolve_target. emits_auto.
Qed.

End NoSleep.

(** X22. However many subregions are downloaded, the call pauses at most
    once, and only after the last of them: once the names are expanded,
    the events added to the trace are not pauses, but for the last one
    when the call goes through with an interval that is not zero. *)
Theorem one_pause_after_all_downloads (W : env) (subregion_name : list string)
    (osm_file_format : string) (download_dir : option string)
    (update download_confirmation_required : bool) (interval_sec : nat)
    (s s1 s' : state) (subregions : list string) (o : outcome unit) :
  retrieve_subregion_names_from W subregion_name s = (Ret subregions, s1) →
  download_sub_subregion_osm_file W subregion_name osm_file_format download_dir update
    download_confirmation_required interval_sec s = (o, s') →
  ∃ evs, Forall (λ e, is_sleep e = false) evs
         ∧ (trace s' = trace s1 ++ evs
            ∨ (o = Ret tt ∧ interval_sec ≠ 0
               ∧ trace s' = trace s1 ++ evs ++ [Sleep interval_sec])).
Proof.
  intros Hnames. unfold download_sub_subregion_osm_file. rewrite run_bind, Hnames.
  rewrite run_bind. unfold confirmed.
  set (prompt := Py.nl +:+ "To download " +:+ _).
  assert (∀ s0 evs0 o s',
            Forall (λ e, is_sleep e = false) evs0 → trace s0 = trace s1 ++ evs0 →
            (download_subregion_osm_file W subregions osm_file_format download_dir update
               false true;;
             match interval_sec with
             | O => mret tt
             | S _ => emit (Sleep interval_sec)
             end) s0 = (o, s') →
            ∃ evs, Forall (λ e, is_sleep e = false) evs
                   ∧ (trace s' = trace s1 ++ evs
                      ∨ (o = Ret tt ∧ interval_sec ≠ 0
                         ∧ trace s' = trace s1 ++ evs ++ [Sleep interval_sec]))) as Hgo.
  { intros s0 evs0 o0 s0' Hevs0 Hs0. rewrite run_bind.
    destruct (awake_download_subregion_osm_file W subregions osm_file_format download_dir
                update false true s0) as (evs & Ht & Hevs).
    destruct (download_subregion_osm_file W subregions _ _ _ _ _ s0) as [[[]|e|] s2];
      cbn [snd] in Ht.
    - destruct interval_sec as [|n].
      + cbn [mret M_ret]. intros [= <- <-]. exists (evs0 ++ evs).
        split; [by apply Forall_app|]. left. by rewrite Ht, Hs0, app_assoc.
      + cbn [emit]. intros [= <- <-]. exists (evs0 ++ evs).
        split; [by apply Forall_app|]. right. split; [done|]. split; [done|].
        cbn [log trace]. by rewrite Ht, Hs0, !app_assoc.
    - intros [= <- <-]. exists (evs0 ++ evs).
      split; [by apply Forall_app|]. left. by rewrite Ht, Hs0, app_assoc.
    - intros [= <- <-]. exists (evs0 ++ evs).
      split; [by apply Forall_app|]. left. by rewrite Ht, Hs0, app_assoc. }
  destruct download_confirmation_required.
  - rewrite run_bind. cbn [emit mret M_ret].
    destruct (operator W prompt).
    + apply (Hgo _ [Prompt prompt]); [by repeat constructor|done].
    + cbn [mret M_ret]. intros [= <- <-]. exists [Prompt prompt].
      split; [by repeat constructor|]. by left.
  - cbn [mret M_ret]. apply (Hgo _ []); [constructor|by rewrite app_nil_r].
Qed.

Lemma one_pause_witness :
  ∃ evs, Forall (λ e, is_sleep e = false) evs
         ∧ (trace (download_sub_subregion_osm_file Site.W0 ["great britain"] ".osm.pbf" None
                     false false 5 Site.disk_with_tier).2
            = trace Site.disk_with_tier ++ evs
            ∨ ((download_sub_subregion_osm_file Site.W0 ["great britain"] ".osm.pbf" None
                  false false 5 Site.disk_with_tier).1 = Ret tt
               ∧ 5 ≠ 0
               ∧ trace (download_sub_subregion_osm_file Site.W0 ["great britain"] ".osm.pbf"
                          None false false 5 Site.disk_with_tier).2
                 = trace Site.disk_with_tier ++ evs ++ [Sleep 5])).
Proof.
  apply (one_pause_after_all_downloads Site.W0 ["great britain"] ".osm.pbf" None false false 5
           Site.disk_with_tier Site.disk_with_tier _ ["Scotland"; "Greater London"; "Kent"]).
  - vm_compute. reflexivity.
  - apply surjective_pairing.
Defined.

(** ** [settings.py], continued *)

(** X23. The last call decides: applying a preset over the options left
    by any earlier call gives the very options that applying it alone
    gives, so that applying a preset twice is applying it once; and no
    option other than the four is ever touched. *)
Theorem gdal_configurations_last_call_wins (reset reset' : bool) (cfg : gmap string string) :
  gdal_configurations reset (gdal_configurations reset' cfg) = gdal_configurations reset cfg
  ∧ ∀ key, key ∉ ["OGR_INTERLEAVED_READING"; "USE_CUSTOM_INDEXING"; "COMPRESS_NODES";
                  "MAX_TMPFILE_SIZE"] →
           gdal_configurations reset (gdal_configurations reset' cfg) !! key = cfg !! key.
Proof.
  split.
  - apply map_eq. intros key. unfold gdal_configurations, SetConfigOption.
    destruct reset, reset'; cbn [negb];
      rewrite !lookup_insert; repeat case_decide; done.
  - intros key Hkey. by rewrite !gdal_configurations_frame.
Qed.

(** ** The region-subregion tier builder *)

Lemma terminal_keys_cons (k : string) (v : tier) (rest : list (string * tier)) :
  terminal_keys (Nested ((k, v) :: rest))
  = match v with Terminal => [k] | Nested _ => terminal_keys v end
    ++ terminal_keys (Nested rest).
Proof. reflexivity. Qed.

Lemma dict_set_keys {A} (k : string) (v : A) (d : list (string * A)) :
  map fst (Builder.dict_set k v d) = if decide (k ∈ map fst d) then map fst d else map fst d ++ [k].
Proof.
  induction d as [|[k' v'] d IH]; cbn [Builder.dict_set map fst].
  - by rewrite decide_False by apply not_elem_of_nil.
  - destruct (bool_decide_reflect (k = k')) as [->|Hne]; cbn [map fst].
    + by rewrite decide_True by apply list_elem_of_here.
    + rewrite IH. destruct (decide (k ∈ map fst d)) as [Hin|Hnin].
      * by rewrite decide_True by (by apply list_elem_of_further).
      * rewrite decide_False; [done|]. by intros [?|?]%elem_of_cons.
Qed.

Lemma dict_set_NoDup {A} (k : string) (v : A) (d : list (string * A)) :
  NoDup (map fst d) → NoDup (map fst (Builder.dict_set k v d)).
Proof.
  intros Hd. rewrite dict_set_keys. destruct (decide _); [done|].
  apply NoDup_app. split; [done|]. split; [|apply NoDup_singleton].
  intros x Hx ->%list_elem_of_singleton. done.
Qed.

Lemma dict_of_zip_NoDup {A} (keys : list string) (vals : list A) :
  NoDup (map fst (Builder.dict_of_zip keys vals)).
Proof.
  unfold Builder.dict_of_zip. generalize (zip keys vals). intros l.
  assert (NoDup (map fst (@nil (string * A)))) as H by constructor.
  revert H. generalize (@nil (string * A)).
  induction l as [|[k v] l IH]; intros d Hd; cbn [fold_left]; [done|].
  apply IH. by apply dict_set_NoDup.
Qed.

Lemma dict_set_not_dicts {A} (k : string) (d : list (string * A)) :
  k ∈ map fst d → Builder.dict_set k Terminal (Builder.not_dicts d) = Builder.not_dicts d.
Proof.
  unfold Builder.not_dicts. induction d as [|[k' v'] d IH]; cbn [map fst Builder.dict_set].
  - by intros ?%elem_of_nil.
  - intros Hin. destruct (bool_decide_reflect (k = k')) as [->|Hne]; [done|].
    f_equal. apply IH. by apply elem_of_cons in Hin as [?|?].
Qed.

Lemma classify_spec (tbls : list (string * option table)) :
  Builder.classify tbls = (Builder.not_dicts tbls, none_keys tbls).
Proof.
  unfold Builder.classify.
  assert (∀ (l : list (string * option table)) acc, (∀ kv, kv ∈ l → kv.1 ∈ map fst tbls) → acc.1 = Builder.not_dicts tbls →
            fold_left (λ acc kv,
               match kv.2 with
               | Some v => (Builder.update_nested_dict (Builder.not_dicts tbls) kv.1 Terminal, acc.2)
               | None => (acc.1, acc.2 ++ [kv.1])
               end) l acc = (Builder.not_dicts tbls, acc.2 ++ none_keys l)) as H.
  { induction l as [|[k [t|]] l IH]; intros acc Hl Hacc; cbn [fold_left snd fst].
    - destruct acc; cbn in *. by rewrite app_nil_r, Hacc.
    - rewrite IH; cbn [fst snd].
      + done.
      + intros kv Hkv. apply Hl. by right.
      + unfold Builder.update_nested_dict. apply dict_set_not_dicts.
        apply (Hl (k, Some t)). by left.
    - rewrite IH; cbn [fst snd].
      + unfold none_keys. cbn [omap list_omap snd fst]. by rewrite <- app_assoc.
      + intros kv Hkv. apply Hl. by right.
      + done. }
  rewrite H; cbn [fst snd]; [done| |done].
  intros kv Hkv. by apply (list_elem_of_fmap_2 fst).
Qed.

Lemma dict_pop_other {A} (xs : list string) (k : string) (v : A) (d : list (string * A)) :
  k ∉ xs →
  fold_left (λ d x, Builder.dict_pop x d) xs ((k, v) :: d)
  = (k, v) :: fold_left (λ d x, Builder.dict_pop x d) xs d.
Proof.
  revert d. induction xs as [|x xs IH]; intros d Hk; cbn [fold_left]; [done|].
  cbn [Builder.dict_pop]. rewrite bool_decide_eq_false_2.
  - apply IH. set_solver.
  - intros ->. apply Hk. by left.
Qed.

Lemma elem_of_none_keys {A} (d : list (string * option A)) (k : string) :
  k ∈ none_keys d → k ∈ map fst d.
Proof.
  unfold none_keys. intros ([k' [t|]] & Hin & Heq)%list_elem_of_omap; [done|].
  injection Heq as <-. by apply (list_elem_of_fmap_2 fst) in Hin.
Qed.

Lemma having_subregions_spec {A} (d : list (string * option A)) :
  NoDup (map fst d) →
  fold_left (λ d x, Builder.dict_pop x d) (none_keys d) d = some_items d.
Proof.
  induction d as [|[k [t|]] d IH]; intros Hd; [done|..];
    apply NoDup_cons in Hd as [Hk Hd].
  - change (none_keys ((k, Some t) :: d)) with (none_keys d).
    rewrite dict_pop_other.
    + unfold some_items. cbn [List.filter snd]. rewrite bool_decide_eq_true_2 by by eexists.
      f_equal. by apply IH.
    + intros Hin. by apply elem_of_none_keys in Hin.
  - change (none_keys ((k, None) :: d)) with (k :: none_keys d).
    cbn [fold_left Builder.dict_pop]. rewrite bool_decide_eq_true_2 by done.
    rewrite IH by done. unfold some_items. cbn [List.filter snd].
    rewrite bool_decide_eq_false_2; [done|]. by intros [??].
Qed.

Lemma terminal_keys_not_dicts {A} (d : list (string * A)) :
  terminal_keys (Nested (Builder.not_dicts d)) = map fst d.
Proof.
  unfold Builder.not_dicts. induction d as [|[k v] d IH]; [done|].
  cbn [map fst]. rewrite terminal_keys_cons. cbn [app]. by f_equal.
Qed.

Lemma keys_partition {A} (d : list (string * option A)) :
  map fst d ≡ₚ none_keys d ++ map fst (some_items d).
Proof.
  unfold some_items.
  induction d as [|[k [t|]] d IH]; [done|..]; cbn [map fst List.filter snd].
  - rewrite bool_decide_eq_true_2 by (by eexists). cbn [map fst].
    change (none_keys ((k, Some t) :: d)) with (none_keys d).
    rewrite <- Permutation_middle. by constructor.
  - rewrite bool_decide_eq_false_2 by (by intros [??]).
    change (none_keys ((k, None) :: d)) with (k :: none_keys d). cbn [app].
    by constructor.
Qed.

Lemma some_items_NoDup {A} (d : list (string * option A)) :
  NoDup (map fst d) → NoDup (map fst (some_items d)).
Proof.
  unfold some_items.
  induction d as [|[k v] d IH]; [done|]. cbn [map fst List.filter snd].
  intros [Hk Hd]%NoDup_cons. destruct (bool_decide _); [|by apply IH].
  cbn [map fst]. apply NoDup_cons. split; [|by apply IH].
  intros (kv & -> & Hin)%list_elem_of_fmap_1. apply elem_of_List_filter in Hin as [Hin _].
  apply Hk. by apply (list_elem_of_fmap_2 fst) in Hin.
Qed.

Lemma terminal_keys_dict_set (k : string) (d : list (string * tier)) :
  NoDup (map fst d) → (k, Terminal) ∈ d →
  ∃ rest, terminal_keys (Nested d) ≡ₚ k :: rest
          ∧ ∀ idx, terminal_keys (Nested (Builder.dict_set k (Nested idx) d))
                   ≡ₚ terminal_keys (Nested idx) ++ rest.
Proof.
  induction d as [|[k' v'] d IH]; [by intros _ ?%elem_of_nil|].
  cbn [map fst]. intros [Hk Hd]%NoDup_cons Hin. cbn [Builder.dict_set].
  destruct (bool_decide_reflect (k = k')) as [->|Hne].
  - apply elem_of_cons in Hin as [[= <-]|Hin].
    + exists (terminal_keys (Nested d)). split; [by rewrite terminal_keys_cons|].
      intros idx. by rewrite terminal_keys_cons.
    + exfalso. apply Hk. by apply (list_elem_of_fmap_2 fst) in Hin.
  - apply elem_of_cons in Hin as [[= ? ?]|Hin]; [done|].
    destruct (IH Hd Hin) as (rest & Hrest & Hset).
    exists (match v' with Terminal => [k'] | Nested _ => terminal_keys v' end ++ rest).
    split.
    + rewrite terminal_keys_cons, Hrest. by rewrite <- Permutation_middle.
    + intros idx. rewrite terminal_keys_cons, Hset.
      rewrite !app_assoc. apply Permutation_app_tail, Permutation_app_comm.
Qed.

Lemma dict_set_other_elem {A} (k k' : string) (v v' : A) (d : list (string * A)) :
  k' ≠ k → (k', v') ∈ d → (k', v') ∈ Builder.dict_set k v d.
Proof.
  intros Hne. induction d as [|[k0 v0] d IH]; [by intros ?%elem_of_nil|].
  cbn [Builder.dict_set]. intros [[= <- <-]|Hin]%elem_of_cons.
  - rewrite bool_decide_eq_false_2 by done. by left.
  - destruct (bool_decide (k = k0)); right; [done|by apply IH].
Qed.

Section Compile.

Context (W : env) (depth : nat).

Hypothesis IHdepth :
  ∀ tbls s r s',
    NoDup (map fst tbls) →
    Builder.compile_region_subregion_tier W depth tbls s = (Ret r, s') →
    map fst r.1 = map fst tbls ∧ r.2 ≡ₚ terminal_keys (Nested r.1).

Lemma compile_loop (remaining : list (string * option table))
    (acc : list (string * tier) * list string) (s : state)
    (r : list (string * tier) * list string) (s' : state) :
  NoDup (map fst remaining) → NoDup (map fst acc.1) →
  (∀ kv, kv ∈ remaining → (kv.1, Terminal) ∈ acc.1) →
  terminal_keys (Nested acc.1) ≡ₚ acc.2 ++ map fst remaining →
  foldM (λ acc item,
           subregion_table ← Builder.table_of item.2;
           tables ← mapM (get_subregion_table W) (map SubregionURL subregion_table);
           let sub_subregion_tables := Builder.dict_of_zip (map Subregion subregion_table) tables in
           r ← Builder.compile_region_subregion_tier W depth sub_subregion_tables;
           mret (Builder.dict_set item.1 (Nested r.1) acc.1, acc.2 ++ r.2))
        acc remaining s = (Ret r, s') →
  map fst r.1 = map fst acc.1 ∧ r.2 ≡ₚ terminal_keys (Nested r.1).
Proof.
  revert acc s. induction remaining as [|[k v] rem IH]; intros acc s Hrem Hacc Hterm Hperm.
  - cbn [foldM mret M_ret]. intros [= <- <-]. split; [done|].
    by rewrite Hperm, app_nil_r.
  - cbn [foldM]. rewrite run_bind. cbn [fst snd].
    destruct v as [t|]; cbn [Builder.table_of]; [|by rewrite run_bind].
    mstep. rewrite run_bind.
    destruct (mapM (get_subregion_table W) (map SubregionURL t) s) as [[tables|e|] s1];
      [|done..].
    rewrite run_bind.
    destruct (Builder.compile_region_subregion_tier W depth
                (Builder.dict_of_zip (map Subregion t) tables) s1) as [[r0|e|] s2] eqn:Hrec; [|done..].
    cbn [mret M_ret].
    apply IHdepth in Hrec as [_ Hr0]; [|apply dict_of_zip_NoDup].
    cbn [map fst] in Hrem. apply NoDup_cons in Hrem as [Hk Hrem].
    assert ((k, Terminal) ∈ acc.1) as Hin by (apply (Hterm (k, Some t)); by left).
    destruct (terminal_keys_dict_set k acc.1 Hacc Hin) as (rest & Hrest & Hset).
    intros Hrun. apply IH in Hrun; cbn [fst snd] in *.
    + destruct Hrun as [Hkeys Hres]. split; [|done].
      rewrite Hkeys, dict_set_keys. rewrite decide_True; [done|].
      by apply (list_elem_of_fmap_2' fst _ (k, Terminal)).
    + done.
    + by apply dict_set_NoDup.
    + intros kv Hkv. apply dict_set_other_elem; [|apply Hterm; by right].
      intros Heq. apply Hk. rewrite <- Heq. by apply (list_elem_of_fmap_2 fst) in Hkv.
    + rewrite Hset, Hr0.
      assert (rest ≡ₚ acc.2 ++ map fst rem) as ->.
      { rewrite Hperm in Hrest. cbn [map fst] in Hrest.
        rewrite <- Permutation_middle in Hrest.
        by apply Permutation_cons_inv in Hrest. }
      rewrite !app_assoc. apply Permutation_app_tail, Permutation_app_comm.
Qed.

End Compile.

Lemma compile_invariant (W : env) (depth : nat) (tbls : list (string * option table))
    (s : state) (r : list (string * tier) * list string) (s' : state) :
  NoDup (map fst tbls) →
  Builder.compile_region_subregion_tier W depth tbls s = (Ret r, s') →
  map fst r.1 = map fst tbls ∧ r.2 ≡ₚ terminal_keys (Nested r.1).
Proof.
  revert tbls s r s'. induction depth as [|depth IHd]; intros tbls s r s' Hd; [done|].
  cbn [Builder.compile_region_subregion_tier]. rewrite classify_spec.
  rewrite having_subregions_spec by done.
  intros Hrun. apply (compile_loop W depth IHd) in Hrun; cbn [fst snd] in *.
  - destruct Hrun as [Hkeys Hperm]. split; [|done].
    rewrite Hkeys. unfold Builder.not_dicts. rewrite map_map. done.
  - by apply some_items_NoDup.
  - unfold Builder.not_dicts. by rewrite map_map.
  - intros kv [Hkv _]%elem_of_List_filter.
    apply (list_elem_of_fmap_2 (λ kv : string * option table, (kv.1, Terminal))) in Hkv. done.
  - rewrite terminal_keys_not_dicts. apply keys_partition.
Qed.

(** X24. The tier and the list that the builder returns go together: the
    tier has the keys of the dict it was given, in the same order, and the
    list holds the keys of the tier, at any depth, whose value is not a
    dict, each as many times as it is such a key. *)
Theorem compiled_tier_lists_its_terminals (W : env) (depth : nat)
    (sub_reg_tbls : list (string * option table)) (s s' : state)
    (region_subregion_tiers : list (string * tier)) (non_subregions_list : list string) :
  NoDup (map fst sub_reg_tbls) →
  Builder.compile_region_subregion_tier W depth sub_reg_tbls s
    = (Ret (region_subregion_tiers, non_subregions_list), s') →
  map fst region_subregion_tiers = map fst sub_reg_tbls
  ∧ non_subregions_list ≡ₚ terminal_keys (Nested region_subregion_tiers)
  ∧ ∀ x, x ∈ non_subregions_list ↔ x ∈ terminal_keys (Nested region_subregion_tiers).
Proof.
  intros Hnd Hrun. destruct (compile_invariant W depth _ _ _ _ Hnd Hrun) as [Hkeys Hperm].
  cbn [fst snd] in *. split; [done|]. split; [done|]. intros x. by rewrite Hperm.
Qed.

Lemma compiled_tier_witness :
  map fst [("Europe",
            Nested [("Great Britain", Nested [("England", Terminal); ("Scotland", Terminal)]);
                    ("Malta", Terminal)]);
           ("Antarctica", Terminal)]
  = map fst Cases.continents
  ∧ ["Antarctica"; "Malta"; "England"; "Scotland"]
    ≡ₚ terminal_keys
         (Nested [("Europe",
                   Nested [("Great Britain",
                            Nested [("England", Terminal); ("Scotland", Terminal)]);
                           ("Malta", Terminal)]);
                  ("Antarctica", Terminal)])
  ∧ ∀ x, x ∈ ["Antarctica"; "Malta"; "England"; "Scotland"]
         ↔ x ∈ terminal_keys
                 (Nested [("Europe",
                           Nested [("Great Britain",
                                    Nested [("England", Terminal); ("Scotland", Terminal)]);
                                   ("Malta", Terminal)]);
                          ("Antarctica", Terminal)]).
Proof.
  apply (compiled_tier_lists_its_terminals Site.W0 5 Cases.continents Site.empty_disk
           (Builder.compile_region_subregion_tier Site.W0 5 Cases.continents Site.empty_disk).2).
  - vm_compute. repeat constructor; set_solver.
  - vm_compute. reflexivity.
Defined.

(** X25. A collection that goes through: the continent tables are loaded,
    the tier is compiled and the three files are written without an
    error.  Then the pickle of the tier and the pickle of the
    non-subregion list hold a tier and a list that go together: the list
    is made of the terminal keys of the tier. *)
Theorem collected_tier_lists_its_terminals (W : env)
    (fetch_continents_subregion_tables : bool → M (option (list (string * option table))))
    (confirmation_required : bool) (s s0 s1 s2 : state)
    (sub_reg_tbls : list (string * option table))
    (region_subregion_tiers : list (string * tier)) (non_subregions_list : list string) :
  confirmed W Builder.tier_prompt confirmation_required s = (Ret true, s0) →
  fetch_continents_subregion_tables true s0 = (Ret (Some sub_reg_tbls), s1) →
  NoDup (map fst sub_reg_tbls) →
  Builder.compile_region_subregion_tier W (S (recursion_limit W)) sub_reg_tbls s1
    = (Ret (region_subregion_tiers, non_subregions_list), s2) →
  (∀ p, write_error W p = None) →
  ∃ s3,
    Builder.collect_region_subregion_tier W fetch_continents_subregion_tables confirmation_required s
      = (Ret tt, s3)
    ∧ trace s3 = trace s2
    ∧ files s3 !! pickle_of W "GeoFabrik-region-subregion-tier"
      = Some (VTier region_subregion_tiers)
    ∧ files s3 !! cd_dat W "GeoFabrik-region-subregion-tier.json"
      = Some (VJson (VTier region_subregion_tiers))
    ∧ files s3 !! pickle_of W "GeoFabrik-non-subregion-list"
      = Some (VNames non_subregions_list)
    ∧ non_subregions_list ≡ₚ terminal_keys (Nested region_subregion_tiers).
Proof.
  intros Hok Hfetch Hnd Hrun Hdisk.
  destruct (compile_invariant W _ _ _ _ _ Hnd Hrun) as [_ Hperm]. cbn [fst snd] in Hperm.
  unfold Builder.collect_region_subregion_tier. rewrite run_bind, Hok.
  eexists. split.
  - erewrite run_try_ret; [reflexivity|].
    unfold Builder.compile_and_save. rewrite run_bind, Hfetch. cbn [Builder.items_of]. mstep.
    rewrite run_bind, Hrun. cbn [fst snd].
    unfold save_pickle, save_json. rewrite !Hdisk. rewrite !run_bind. reflexivity.
  - unfold modify, pickle_of. cbn [set_files files trace]. split; [done|].
    repeat split; [| |by rewrite lookup_insert_eq|done].
    + do 2 other_path. by rewrite lookup_insert_eq.
    + other_path. by rewrite lookup_insert_eq.
Qed.

Lemma collected_tier_witness :
  ∃ s3,
    Builder.collect_region_subregion_tier Site.W0 Cases.loaded_continents false Site.empty_disk
    = (Ret tt, s3)
    ∧ trace s3
      = trace (Builder.compile_region_subregion_tier Site.W0 (S (recursion_limit Site.W0))
                 Cases.continents Site.empty_disk).2
    ∧ files s3 !! pickle_of Site.W0 "GeoFabrik-region-subregion-tier"
      = Some (VTier [("Europe",
                      Nested [("Great Britain",
                               Nested [("England", Terminal); ("Scotland", Terminal)]);
                              ("Malta", Terminal)]);
                     ("Antarctica", Terminal)])
    ∧ files s3 !! cd_dat Site.W0 "GeoFabrik-region-subregion-tier.json"
      = Some (VJson (VTier [("Europe",
                             Nested [("Great Britain",
                                      Nested [("England", Terminal); ("Scotland", Terminal)]);
                                     ("Malta", Terminal)]);
                            ("Antarctica", Terminal)]))
    ∧ files s3 !! pickle_of Site.W0 "GeoFabrik-non-subregion-list"
      = Some (VNames ["Antarctica"; "Malta"; "England"; "Scotland"])
    ∧ ["Antarctica"; "Malta"; "England"; "Scotland"]
      ≡ₚ terminal_keys
           (Nested [("Europe",
                     Nested [("Great Britain",
                              Nested [("England", Terminal); ("Scotland", Terminal)]);
                             ("Malta", Terminal)]);
                    ("Antarctica", Terminal)]).
Proof.
  apply (collected_tier_lists_its_terminals Site.W0 Cases.loaded_continents false
           Site.empty_disk Site.empty_disk Site.empty_disk _ Cases.continents).
  - reflexivity.
  - reflexivity.
  - vm_compute. repeat constructor; set_solver.
  - vm_compute. reflexivity.
  - reflexivity.
Defined.

(** On the tier and the list the builder leaves, the retrieval of a
    region gives its terminal names. *)
Example retrieve_after_collection :
  let s := (Builder.collect_region_subregion_tier Site.W0 Cases.loaded_continents false
              Site.disk_with_names).2 in
  (retrieve_subregion_names_from Site.W0 ["europe"] s).1
  = Ret ["Malta"; "England"; "Scotland"].
Proof. vm_compute. reflexivity. Qed.

(** ** The strings the code cuts *)

Lemma length_app_s (a b : string) :
  String.length (a +:+ b) = String.length a + String.length b.
Proof. induction a as [|c a IH]; [done|]. rewrite app_cons. cbn [String.length]. by rewrite IH. Qed.

Lemma substring_skip (a b : string) (n m : nat) :
  String.substring (String.length a + n) m (a +:+ b) = String.substring n m b.
Proof. induction a as [|c a IH]; [done|]. rewrite app_cons. exact IH. Qed.

Lemma substring_S (n m : nat) (c : ascii) (s : string) :
  String.substring (S n) m (String c s) = String.substring n m s.
Proof. reflexivity. Qed.

Lemma substring_prefix (a b : string) :
  String.substring 0 (String.length a) (a +:+ b) = a.
Proof.
  induction a as [|c a IH]; [by destruct b|]. rewrite app_cons.
  cbn [String.length String.substring]. by rewrite IH.
Qed.

(** [find] gives [-1] or an index from the start of the search on. *)
Lemma find_from_range (c : ascii) (s : string) (i : Z) :
  Py.find_from c s i = (-1)%Z ∨ (i ≤ Py.find_from c s i)%Z.
Proof.
  revert i. induction s as [|a s IH]; intros i; cbn [Py.find_from]; [by left|].
  destruct (ascii_dec a c); [right; lia|].
  destruct (IH (i + 1)%Z) as [->|H]; [by left|right; lia].
Qed.

Lemma find_from_absent (c : ascii) (s : string) (i j : Z) :
  (0 ≤ i)%Z → (0 ≤ j)%Z →
  Py.find_from c s i = (-1)%Z → Py.find_from c s j = (-1)%Z.
Proof.
  revert i j. induction s as [|a s IH]; intros i j Hi Hj; cbn [Py.find_from]; [done|].
  destruct (ascii_dec a c); [lia|]. apply IH; lia.
Qed.

(** The first occurrence of a character, past a prefix that does not
    have it. *)
Lemma find_from_app (c : ascii) (pre rest : string) (i : Z) :
  (0 ≤ i)%Z →
  Py.find c pre = (-1)%Z →
  Py.find_from c (pre +:+ String c rest) i = (i + Z.of_nat (String.length pre))%Z.
Proof.
  unfold Py.find. revert i. induction pre as [|a pre IH]; intros i Hi Hpre.
  - rewrite app_empty_l. cbn [Py.find_from String.length].
    destruct (ascii_dec c c); [lia|done].
  - rewrite app_cons. cbn [Py.find_from String.length] in *.
    destruct (ascii_dec a c); [lia|].
    rewrite IH; [lia|lia|]. eapply (find_from_absent c pre 1 0); [lia|lia|done].
Qed.

Lemma find_cons_ne (c a : ascii) (s : string) :
  a ≠ c → Py.find c s = (-1)%Z → Py.find c (String a s) = (-1)%Z.
Proof.
  intros Hne H. unfold Py.find in *. cbn [Py.find_from].
  destruct (ascii_dec a c); [done|]. by apply (find_from_absent c s 0 (0 + 1)).
Qed.

Lemma find_app_both (c : ascii) (a b : string) (i : Z) :
  (0 ≤ i)%Z →
  Py.find c a = (-1)%Z → Py.find c b = (-1)%Z → Py.find_from c (a +:+ b) i = (-1)%Z.
Proof.
  unfold Py.find. revert i. induction a as [|x a IH]; intros i Hi Ha Hb.
  - rewrite app_empty_l. by apply (find_from_absent c b 0 i).
  - rewrite app_cons. cbn [Py.find_from] in *.
    destruct (ascii_dec x c); [lia|]. apply IH; [lia| |done].
    by apply (find_from_absent c a (0 + 1) 0).
Qed.

(** The argument of the call written in a map overlay: what stands
    between the quotes that follow the first opening bracket and precede
    the first closing one. *)
Lemma slice_overlay (pre p post : string) (q1 q2 : ascii) :
  Py.find "(" pre = (-1)%Z → Py.find ")" pre = (-1)%Z → Py.find ")" p = (-1)%Z →
  q1 ≠ ")"%char → q2 ≠ ")"%char →
  let s := pre +:+ String "(" (String q1 (p +:+ String q2 (String ")" post))) in
  Py.slice (Py.slice s (Py.find "(" s + 1)%Z (Py.find ")" s)) 1%Z (-1)%Z = p.
Proof.
  intros Hopen Hclose Hp Hq1 Hq2 s.
  assert (Py.find "(" s = Z.of_nat (String.length pre)) as ->.
  { unfold Py.find, s. rewrite find_from_app; [lia|lia|done]. }
  assert (Py.find ")" s = Z.of_nat (String.length pre + 2 + String.length p + 1)) as ->.
  { unfold s.
    replace (pre +:+ String "(" (String q1 (p +:+ String q2 (String ")" post))))
      with ((pre +:+ String "(" (String q1 (p +:+ String q2 ""))) +:+ String ")" post).
    2:{ rewrite !app_assoc_s, !app_cons, !app_assoc_s, !app_cons. by rewrite app_empty_l. }
    unfold Py.find. rewrite find_from_app; [|lia|].
    - rewrite !length_app_s. cbn [String.length]. rewrite !length_app_s. cbn [String.length].
      lia.
    - apply find_app_both; [lia|done|].
      apply find_cons_ne; [done|]. apply find_cons_ne; [done|].
      apply find_app_both; [lia|done|]. by apply find_cons_ne. }
  assert (String.length s = String.length pre + 2 + String.length p + 2 + String.length post)
    as Hlen.
  { unfold s. rewrite !length_app_s. cbn [String.length]. rewrite !length_app_s.
    cbn [String.length]. lia. }
  unfold Py.slice at 2. rewrite Hlen. unfold Py.clamp.
  destruct (Z.ltb_spec (Z.of_nat (String.length pre) + 1) 0); [lia|].
  destruct (Z.ltb_spec (Z.of_nat (String.length pre + 2 + String.length p + 1)) 0); [lia|].
  rewrite !Z.min_r by lia.
  replace (Z.to_nat (Z.of_nat (String.length pre) + 1)) with (String.length pre + 1) by lia.
  replace (Z.to_nat (Z.of_nat (String.length pre + 2 + String.length p + 1)
                     - (Z.of_nat (String.length pre) + 1)))
    with (String.length p + 2) by lia.
  unfold s. rewrite substring_skip, substring_S.
  replace (String.substring 0 (String.length p + 2)
             (String q1 (p +:+ String q2 (String ")" post))))
    with (String q1 (p +:+ String q2 "")).
  2:{ replace (String.length p + 2) with (String.length (String q1 (p +:+ String q2 "")))
        by (cbn [String.length]; rewrite length_app_s; cbn [String.length]; lia).
      replace (String q1 (p +:+ String q2 (String ")" post)))
        with (String q1 (p +:+ String q2 "") +:+ String ")" post).
      - by rewrite substring_prefix.
      - rewrite !app_cons, app_assoc_s, app_cons. by rewrite app_empty_l. }
  unfold Py.slice. cbn [String.length]. rewrite length_app_s. cbn [String.length].
  unfold Py.clamp.
  destruct (Z.ltb_spec 1 0); [lia|]. destruct (Z.ltb_spec (-1) 0); [|lia].
  rewrite Z.min_r by lia. rewrite Z.max_r by lia.
  replace (Z.to_nat 1) with 1 by lia.
  replace (Z.to_nat (Z.of_nat (S (String.length p + 1)) + -1 - 1)) with (String.length p) by lia.
  rewrite substring_S. apply substring_prefix.
Qed.

(** X26. The page of a subregion read from a map overlay.  In the text
    of the overlay, a call whose one argument is written between quotes,
    what the code cuts out is that argument, the quotes taken off, and
    every kml in it is then replaced by html: the path of the KML file of
    the subregion gives the path of its page. *)
Theorem kml_to_html_of_overlay (pre p post : string) (q1 q2 : ascii) :
  Py.find "(" pre = (-1)%Z → Py.find ")" pre = (-1)%Z → Py.find ")" p = (-1)%Z →
  q1 ≠ ")"%char → q2 ≠ ")"%char →
  kml_to_html (pre +:+ String "(" (String q1 (p +:+ String q2 (String ")" post))))
  = Py.replace "kml" "html" p.
Proof.
  intros Hopen Hclose Hp Hq1 Hq2. unfold kml_to_html.
  by rewrite (slice_overlay pre p post q1 q2).
Qed.

Lemma kml_to_html_witness :
  kml_to_html ("loadkml" +:+ String "(" (String "'" ("europe/great-britain/england.kml"
                 +:+ String "'" (String ")" ""))))
  = Py.replace "kml" "html" "europe/great-britain/england.kml".
Proof.
  apply (kml_to_html_of_overlay "loadkml" "europe/great-britain/england.kml" "" "'" "'");
    [reflexivity|reflexivity|reflexivity|discriminate|discriminate].
Defined.

(** The overlay of England on the page of Great Britain. *)
Example kml_to_html_england :
  kml_to_html "loadkml('europe/great-britain/england.kml')"
  = "europe/great-britain/england.html".
Proof. reflexivity. Qed.

(** ** The name of a downloaded file *)

Lemma find_cons_inv (c a : ascii) (s : string) :
  Py.find c (String a s) = (-1)%Z → a ≠ c ∧ Py.find c s = (-1)%Z.
Proof.
  unfold Py.find. cbn [Py.find_from]. destruct (ascii_dec a c); [lia|].
  intros H. split; [done|]. by apply (find_from_absent c s (0 + 1) 0).
Qed.

Lemma find_rev_absent (c : ascii) (s : string) :
  Py.find c s = (-1)%Z → Py.find c (String.rev s) = (-1)%Z.
Proof.
  induction s as [|a s IH]; [done|]. intros [Hne Hs]%find_cons_inv.
  rewrite rev_cons. apply find_app_both; [lia|by apply IH|].
  by apply find_cons_ne.
Qed.

(** The scan from the end of a path: what is read before the first
    slash met, and what is left. *)
Lemma rsplit_slash_spec (rs acc rh t : string) :
  Py.rsplit_slash rs acc = (rh, t) →
  ∃ x, rs = x +:+ rh ∧ t = String.rev x +:+ acc ∧ Py.find "/" x = (-1)%Z
       ∧ (rh = "" ∨ ∃ r, rh = String "/" r).
Proof.
  revert acc. induction rs as [|c rs IH]; intros acc; cbn [Py.rsplit_slash].
  - intros [= <- <-]. exists "". repeat split. by left.
  - destruct (ascii_dec c "/") as [->|Hne].
    + intros [= <- <-]. exists "". repeat split. right. by eexists.
    + intros (x & -> & -> & Hx & Hrh)%IH. exists (String c x).
      split; [done|]. split; [|split; [by apply find_cons_ne|done]].
      by rewrite rev_cons, app_assoc_s.
Qed.

(** A path is its last component preceded by nothing or by a part that
    ends with a slash, and the last component has no slash. *)
Lemma os_path_split_tail (p : string) :
  ∃ h, p = h +:+ (Py.os_path_split p).2
       ∧ Py.find "/" (Py.os_path_split p).2 = (-1)%Z
       ∧ (h = "" ∨ ∃ h', h = h' +:+ "/").
Proof.
  unfold Py.os_path_split.
  destruct (Py.rsplit_slash (String.rev p) "") as [rhead tail] eqn:Hsplit. cbn [snd].
  apply rsplit_slash_spec in Hsplit as (x & Hp & -> & Hx & Hrh).
  rewrite app_empty_r. exists (String.rev rhead). split; [|split].
  - rewrite <- (rev_involutive_s p), Hp. by rewrite rev_append.
  - by apply find_rev_absent.
  - destruct Hrh as [->|[r ->]]; [by left|]. right. exists (String.rev r). by rewrite rev_cons.
Qed.

Lemma last_split_go_tail (cur t : string) :
  Py.find "/" t = (-1)%Z →
  List.last (Py.split_go "/" cur t) "" = String.rev cur +:+ t.
Proof.
  revert cur. induction t as [|c t IH]; intros cur; cbn [Py.split_go].
  - intros _. cbn [List.last]. by rewrite app_empty_r.
  - intros [Hne Ht]%find_cons_inv. destruct (ascii_dec c "/"); [done|].
    rewrite IH by done. by rewrite rev_cons, app_assoc_s.
Qed.

Lemma split_go_not_nil (sep : ascii) (cur s : string) : Py.split_go sep cur s ≠ [].
Proof.
  revert cur. induction s as [|c s IH]; intros cur; cbn [Py.split_go]; [done|].
  destruct (ascii_dec c sep); [done|apply IH].
Qed.

Lemma last_split_go_head (cur h t : string) :
  List.last (Py.split_go "/" cur (h +:+ String "/" t)) ""
  = List.last (Py.split_go "/" "" t) "".
Proof.
  revert cur. induction h as [|c h IH]; intros cur.
  - rewrite app_empty_l. cbn [Py.split_go]. destruct (ascii_dec "/" "/"); [|done].
    pose proof (split_go_not_nil "/" "" t). cbn [List.last].
    by destruct (Py.split_go "/" "" t).
  - rewrite app_cons. cbn [Py.split_go]. destruct (ascii_dec c "/"); [|apply IH].
    pose proof (split_go_not_nil "/" "" (h +:+ String "/" t)). cbn [List.last].
    destruct (Py.split_go "/" "" (h +:+ String "/" t)) eqn:Hs; [done|].
    rewrite <- Hs. apply IH.
Qed.

(** The last item of a path split at its slashes, from the same
    decomposition. *)
Lemma last_item_split (h t : string) :
  Py.find "/" t = (-1)%Z → (h = "" ∨ ∃ h', h = h' +:+ "/") →
  Py.last_item (Py.split "/" (h +:+ t)) = t.
Proof.
  intros Ht Hh. unfold Py.last_item, Py.split.
  destruct Hh as [->|[h' ->]].
  - rewrite app_empty_l. by rewrite last_split_go_tail.
  - rewrite app_assoc_s, app_cons, app_empty_l.
    rewrite last_split_go_head. by rewrite last_split_go_tail.
Qed.

(** Leading slashes taken off, a path that does not end with its leading
    slashes keeps a part that ends with a slash before its last
    component. *)
Lemma lstrip_head (h t : string) :
  Py.find "/" t = (-1)%Z → (h = "" ∨ ∃ h', h = h' +:+ "/") →
  ∃ k, Py.lstrip "/" (h +:+ t) = k +:+ t ∧ (k = "" ∨ ∃ k', k = k' +:+ "/").
Proof.
  intros Ht. induction h as [|c h IH]; intros Hh.
  - rewrite app_empty_l. exists "". split; [|by left].
    destruct t as [|a t]; [done|]. apply find_cons_inv in Ht as [Hne _].
    cbn [Py.lstrip]. by destruct (ascii_dec a "/").
  - rewrite app_cons. cbn [Py.lstrip]. destruct (ascii_dec c "/") as [->|Hne].
    + apply IH. destruct Hh as [?|[h' Hh]]; [done|].
      destruct h' as [|a h'].
      * rewrite app_empty_l in Hh. injection Hh as <-. by left.
      * rewrite app_cons in Hh. injection Hh as _ ->. right. by exists h'.
    + exists (String c h). split; [by rewrite app_cons|done].
Qed.

Lemma slash_free_prefix_unique (u v r1 r2 : string) :
  u +:+ r1 = v +:+ r2 →
  Py.find "/" u = (-1)%Z → Py.find "/" v = (-1)%Z →
  (r1 = "" ∨ ∃ r, r1 = String "/" r) → (r2 = "" ∨ ∃ r, r2 = String "/" r) →
  u = v.
Proof.
  revert v. induction u as [|c u IH]; intros [|d v]; rewrite ?app_cons, ?app_empty_l.
  - done.
  - intros -> _ [Hne _]%find_cons_inv [?|[r [= ? _]]] _; done.
  - intros <- [Hne _]%find_cons_inv _ _ [?|[r [= ? _]]]; done.
  - intros [= -> Heq] [_ Hu]%find_cons_inv [_ Hv]%find_cons_inv H1 H2.
    f_equal. by apply IH.
Qed.

Lemma rev_head (a : string) :
  (a = "" ∨ ∃ a', a = a' +:+ "/") → String.rev a = "" ∨ ∃ r, String.rev a = String "/" r.
Proof.
  intros [->|[a' ->]]; [by left|]. right. exists (String.rev a').
  by rewrite rev_append.
Qed.

(** The last component of a path is determined by the two conditions. *)
Lemma tail_unique (a b x y : string) :
  a +:+ x = b +:+ y →
  Py.find "/" x = (-1)%Z → Py.find "/" y = (-1)%Z →
  (a = "" ∨ ∃ a', a = a' +:+ "/") → (b = "" ∨ ∃ b', b = b' +:+ "/") →
  x = y.
Proof.
  intros Heq Hx Hy Ha Hb.
  apply (f_equal String.rev) in Heq. rewrite !rev_append in Heq.
  apply slash_free_prefix_unique in Heq;
    [|by apply find_rev_absent|by apply find_rev_absent|by apply rev_head|by apply rev_head].
  rewrite <- (rev_involutive_s x), Heq. apply rev_involutive_s.
Qed.

(** The two ways in which the code names the file of a URL agree: the
    last component of the URL, and the last item of its path split at the
    slashes once the leading slashes are taken off. *)
Lemma url_file_name (pre path : string) :
  String.prefix "/" path = true →
  Py.last_item (Py.split "/" (Py.lstrip "/" path)) = (Py.os_path_split (pre +:+ path)).2.
Proof.
  intros Hslash.
  destruct (os_path_split_tail path) as (h & Hpath & Ht & Hh).
  destruct (os_path_split_tail (pre +:+ path)) as (g & Hurl & Hu & Hg).
  set (t := (Py.os_path_split path).2) in *.
  set (u := (Py.os_path_split (pre +:+ path)).2) in *.
  assert (∃ h', h = h' +:+ "/") as Hh'.
  { destruct Hh as [->|?]; [|done]. rewrite app_empty_l in Hpath. exfalso.
    rewrite Hpath in Hslash. destruct t as [|a t']; [done|].
    apply find_cons_inv in Ht as [Hne _].
    change (String.prefix "/" (String a t'))
      with (if ascii_dec "/" a then String.prefix "" t' else false) in Hslash.
    destruct (ascii_dec "/" a); [by subst|done]. }
  assert (u = t) as ->.
  { symmetry. apply (tail_unique (pre +:+ h) g); try done.
    - by rewrite app_assoc_s, <- Hpath.
    - right. destruct Hh' as [h' ->]. exists (pre +:+ h'). by rewrite app_assoc_s. }
  destruct (lstrip_head h t Ht Hh) as (k & Hk & Hk').
  rewrite Hpath at 1. rewrite Hk. by apply last_item_split.
Qed.

(** X27. The default file name of a subregion is the last component
    of its download URL: the URL is the name preceded by nothing or by
    a part that ends with a slash, and the name has no slash. *)
Theorem default_filename_is_the_last_component (W : env)
    (subregion_name osm_file_format : string) (update : bool) (s s' : state)
    (subregion_filename : string) :
  get_default_osm_filename W subregion_name osm_file_format update s
    = (Ret subregion_filename, s') →
  ∃ name download_url h,
    get_subregion_download_url W subregion_name osm_file_format update s
      = (Ret (name, Scalar (Some download_url)), s')
    ∧ download_url = h +:+ subregion_filename
    ∧ Py.find "/" subregion_filename = (-1)%Z
    ∧ (h = "" ∨ ∃ h', h = h' +:+ "/").
Proof.
  unfold get_default_osm_filename. rewrite run_bind.
  destruct (get_subregion_download_url W subregion_name osm_file_format update s)
    as [[[name [[url|]|]]|e|] s1]; cbn [snd as_str]; try done.
  mstep. intros [= <- <-].
  destruct (os_path_split_tail url) as (h & Hurl & Ht & Hh).
  by exists name, url, h.
Qed.

Lemma default_filename_witness :
  ∃ name download_url h,
    get_subregion_download_url Site.W0 "greater london" ".osm.pbf" false
      Site.disk_with_catalogue
    = (Ret (name, Scalar (Some download_url)), Site.disk_with_catalogue)
    ∧ download_url = h +:+ "greater-london-latest.osm.pbf"
    ∧ Py.find "/" "greater-london-latest.osm.pbf" = (-1)%Z
    ∧ (h = "" ∨ ∃ h', h = h' +:+ "/").
Proof.
  apply (default_filename_is_the_last_component Site.W0 "greater london" ".osm.pbf" false
           Site.disk_with_catalogue Site.disk_with_catalogue "greater-london-latest.osm.pbf").
  reflexivity.
Defined.

Lemma os_path_join_ends (directory filename : string) :
  Py.find "/" filename = (-1)%Z → Py.ends_with (Py.os_path_join directory filename) filename.
Proof.
  intros Hf. unfold Py.os_path_join.
  assert (String.prefix "/" filename = false) as ->.
  { destruct filename as [|a f]; [done|]. apply find_cons_inv in Hf as [Hne _].
    change (String.prefix "/" (String a f))
      with (if ascii_dec "/" a then String.prefix "" f else false).
    destruct (ascii_dec "/" a); [by subst|done]. }
  destruct directory as [|c d]; [by exists ""|].
  destruct (Py.endswith _ "/").
  - by eexists.
  - exists (String c d +:+ "/"). by rewrite app_assoc_s.
Qed.

(** X28. The two functions that name a downloaded file agree.  For a
    download URL that ends with its path, the path starting with a slash,
    the default file name, cut from the URL, and the file name returned
    with the default path, cut from the path of the URL, are the same
    string, and the default path ends with it.  The download thus stores
    a file under one name, in the default directory or in a directory
    given. *)
Theorem default_filename_and_path_agree (W : env)
    (subregion_name osm_file_format : string) (mkdir update : bool) (s s1 : state)
    (name url pre : string) :
  get_subregion_download_url W subregion_name osm_file_format update s
    = (Ret (name, Scalar (Some url)), s1) →
  url = pre +:+ urlparse_path W url →
  String.prefix "/" (urlparse_path W url) = true →
  get_default_osm_filename W subregion_name osm_file_format update s
    = (Ret (Py.os_path_split url).2, s1)
  ∧ ∃ default_file_path s2,
      get_default_path_to_osm_file W subregion_name osm_file_format mkdir update s
        = (Ret ((Py.os_path_split url).2, default_file_path), s2)
      ∧ Py.ends_with default_file_path (Py.os_path_split url).2.
Proof.
  intros Hurl Hpre Hslash. split.
  - unfold get_default_osm_filename. by rewrite run_bind, Hurl.
  - destruct (get_subregion_download_url_Ret _ _ _ _ _ _ _ _ Hurl) as (names & Hv & Hin).
    assert (names ≠ []) as Hne by (intros ->; by apply elem_of_nil in Hin).
    destruct (match_segments W names
                (Py.but_last (Py.split "/" (Py.lstrip "/" (urlparse_path W url)))) s1 Hne)
      as (segments & Hrun & _ & _).
    pose proof (url_file_name pre (urlparse_path W url) Hslash) as Hname.
    rewrite <- Hpre in Hname.
    unfold get_default_path_to_osm_file. rewrite run_bind, Hurl. cbn [snd as_str]. mstep.
    unfold fetch_subregion_info_catalogue. rewrite run_bind.
    rewrite (fetch_catalogue_present W _ _ "GeoFabrik-subregion-name-list" s1 (VNames names));
      [|set_solver|done|done].
    cbn [choices_of]. mstep. rewrite run_bind, Hrun. rewrite run_bind.
    destruct (os_path_exists (cd_dat_geofabrik W segments) s1) as [o s'] eqn:Hex.
    injection Hex as <- <-. rewrite Hname.
    destruct (os_path_split_tail url) as (h & _ & Ht & _).
    destruct (negb _ && mkdir); rewrite run_bind; cbn [os_makedirs modify mret M_ret];
      do 2 eexists; (split; [reflexivity|]); by apply os_path_join_ends.
Qed.

Lemma default_filename_and_path_witness :
  get_default_osm_filename Site.W0 "greater london" ".osm.pbf" false Site.disk_with_catalogue
  = (Ret (Py.os_path_split Site.greater_london_pbf).2, Site.disk_with_catalogue)
  ∧ ∃ default_file_path s2,
      get_default_path_to_osm_file Site.W0 "greater london" ".osm.pbf" true false
        Site.disk_with_catalogue
      = (Ret ((Py.os_path_split Site.greater_london_pbf).2, default_file_path), s2)
      ∧ Py.ends_with default_file_path (Py.os_path_split Site.greater_london_pbf).2.
Proof.
  apply (default_filename_and_path_agree Site.W0 "greater london" ".osm.pbf" true
           false Site.disk_with_catalogue Site.disk_with_catalogue "Greater London"
           Site.greater_london_pbf "http://download.geofabrik.de");
    reflexivity.
Defined.
